(** * express-dot-engine: template composition and rendering pipeline

    A shallow embedding of [index.js]: the template parser
    ([processTemplateString] and the regular expressions of [settings]),
    the [Template] object with its [render] / [renderAsync] methods, the
    partial helper, and the two template caches.

    Conventions of the embedding.
    - Template text is a [string] of code units below 256.
    - The regular expressions of [settings] are written out as matchers;
      each matcher's comment gives the pattern it implements.
    - The collaborators that live outside the repository (the doT
      compiler, js-yaml, the file system, [path]) are the fields of a
      record [world] that every function of the pipeline takes.
    - A function that reads or writes the process state (the settings,
      the cache stores, the allocation of objects) is a computation of
      the monad [M]; it returns, throws, or runs out of the evaluation
      budget [fuel] that bounds the depth of nested renders.  A rejected
      promise is modelled as a throw.
    - [render], [getTemplate] and [buildTemplate] are modelled in their
      form without callback in [Engine] and in their form with callback
      in [Callback].  The deprecated [def.partial] of [DotDef] /
      [DotDefAsync] is not modelled.
    - The sections of [renderAsync] advance one partial call at a time in
      an order given by the [schedule] of the state, so that a property
      proved for every state holds for every interleaving.  A partial
      call inside an async section is awaited; what the other sections do
      after a first rejection is not followed. *)

From Stdlib Require Import String Ascii List ZArith Lia Bool Arith.
From stdpp Require Import base gmap strings.
Import ListNotations.
Local Open Scope string_scope.
Set Warnings "-register-all".

(** ** Text utilities *)

Module Text.

(** [\s] on code units below 256: TAB, LF, VT, FF, CR, SPACE, NBSP. *)
Definition is_space (c : ascii) : bool :=
  let n := nat_of_ascii c in
  (((9 <=? n) && (n <=? 13)) || (n =? 32) || (n =? 160))%nat.

(** [\w] : [A-Za-z0-9_]. *)
Definition is_word (c : ascii) : bool :=
  let n := nat_of_ascii c in
  (((48 <=? n) && (n <=? 57)) || ((65 <=? n) && (n <=? 90))
   || ((97 <=? n) && (n <=? 122)) || (n =? 95))%nat.

(** The character class [[\w\.$]] of [settings.dot.define]. *)
Definition is_name_char (c : ascii) : bool :=
  is_word c || (nat_of_ascii c =? 46)%nat || (nat_of_ascii c =? 36)%nat.

Fixpoint drop (n : nat) (s : string) : string :=
  match n, s with
  | O, _ => s
  | S n', String _ s' => drop n' s'
  | S _, EmptyString => EmptyString
  end.

(** Longest prefix of [s] made of characters satisfying [p], and the rest. *)
Fixpoint span (p : ascii -> bool) (s : string) : string * string :=
  match s with
  | EmptyString => (EmptyString, EmptyString)
  | String c s' =>
      if p c then let '(a, b) := span p s' in (String c a, b)
      else (EmptyString, s)
  end.

Fixpoint all_chars (p : ascii -> bool) (s : string) : bool :=
  match s with
  | EmptyString => true
  | String c s' => p c && all_chars p s'
  end.

(** First occurrence of [pat] in [s]: the text before it and the text
    after it. *)
Fixpoint find_sub (pat s : string) : option (string * string) :=
  if String.prefix pat s then Some (EmptyString, drop (String.length pat) s)
  else match s with
       | EmptyString => None
       | String c s' =>
           match find_sub pat s' with
           | Some (a, b) => Some (String c a, b)
           | None => None
           end
       end.

(** A lazy [[\s\S]+?] followed by the literal [pat]: at least one
    character, then the first occurrence of [pat]. *)
Definition lazy_until (pat s : string) : option (string * string) :=
  match s with
  | EmptyString => None
  | String c s' =>
      match find_sub pat s' with
      | Some (a, b) => Some (String c a, b)
      | None => None
      end
  end.

Fixpoint rev_onto (s acc : string) : string :=
  match s with
  | EmptyString => acc
  | String c s' => rev_onto s' (String c acc)
  end.

End Text.

(** ** The regular expressions of [settings] *)

Module Settings.
Import Text.

(** [settings.config = /^---([\s\S]+?)---/g].  The anchor has no [m] flag,
    so the only possible match starts at offset 0.  Returns the captured
    group and the text after the match. *)
Definition match_config (str : string) : option (string * string) :=
  if String.prefix "---" str then lazy_until "---" (drop 3 str) else None.

(** [settings.comment = /<!--([\s\S]+?)-->/g], every match replaced by
    the empty string.  [skip] counts the characters of the current match
    that are still to be dropped. *)
Fixpoint strip_comments_from (skip : nat) (s : string) : string :=
  match s with
  | EmptyString => EmptyString
  | String c s' =>
      match skip with
      | S k => strip_comments_from k s'
      | O =>
          if String.prefix "<!--" s then
            match lazy_until "-->" (drop 4 s) with
            | Some (body, _) =>
                (* match length: 4 + |body| + 3; this character is the first *)
                strip_comments_from (String.length body + 6) s'
            | None => String c (strip_comments_from 0 s')
            end
          else String c (strip_comments_from 0 s')
      end
  end.

Definition strip_comments (s : string) : string := strip_comments_from 0 s.

(** [settings.dot.define =
      /\[\[##\s*([\w\.$]+)\s*(:|=)([\s\S]+?)#]]/g]
    tried at the start of [s].  The classes [\s], [[\w\.$]] and [(:|=)]
    are pairwise disjoint, so the greedy quantifiers never give a
    character back.  Returns the name (group 1), the value (group 3) and
    the length of the whole match. *)
Definition match_define (s : string) : option (string * string * nat) :=
  if String.prefix "[[##" s then
    let '(ws1, s1) := span is_space (drop 4 s) in
    let '(name, s2) := span is_name_char s1 in
    match name with
    | EmptyString => None
    | _ =>
        let '(ws2, s3) := span is_space s2 in
        match s3 with
        | String sep s4 =>
            if (sep =? ":")%char || (sep =? "=")%char then
              match lazy_until "#]]" s4 with
              | Some (value, _) =>
                  Some (name, value,
                        4 + String.length ws1 + String.length name
                        + String.length ws2 + 1 + String.length value + 3)
              | None => None
              end
            else None
        | EmptyString => None
        end
    end
  else None.

(** All matches of [settings.dot.define] in [s], left to right and
    non-overlapping: the [(code, value)] pairs the callback of
    [str.replace] receives. *)
Fixpoint scan_defines (skip : nat) (s : string) : list (string * string) :=
  match s with
  | EmptyString => []
  | String _ s' =>
      match skip with
      | S k => scan_defines k s'
      | O =>
          match match_define s with
          | Some (name, value, len) => (name, value) :: scan_defines (len - 1) s'
          | None => scan_defines 0 s'
          end
      end
  end.

(** The look-behind [(?<!await\s+)]: [before] is the text to the left of
    the current position, nearest character first.  It holds when that
    text does NOT end with "await" followed by one or more [\s]. *)
Definition not_after_await (before : string) : bool :=
  let '(ws, rest) := span is_space before in
  match ws with
  | EmptyString => true
  | _ => negb (String.prefix "tiawa" rest)
  end.

(** [\b] in front of a word character: the previous character, if any,
    is not a word character. *)
Definition word_boundary (before : string) : bool :=
  match before with
  | EmptyString => true
  | String c _ => negb (is_word c)
  end.

(** [settings.partialAsync = /(?<!await\s+)\bpartial\s*\([^)]*\)/g]
    tried at the start of [s]; returns the length of the match. *)
Definition match_partial (before s : string) : option nat :=
  if not_after_await before && word_boundary before && String.prefix "partial" s
  then
    let '(ws, s1) := span is_space (drop 7 s) in
    match s1 with
    | String "("%char s2 =>
        match find_sub ")" s2 with
        | Some (args, _) =>
            Some (7 + String.length ws + 1 + String.length args + 1)
        | None => None
        end
    | _ => None
    end
  else None.

(** [str.replace(settings.partialAsync, 'await $&')]: every match,
    left to right and non-overlapping, gets "await " in front of it. *)
Fixpoint add_await_from (before : string) (skip : nat) (s : string) : string :=
  match s with
  | EmptyString => EmptyString
  | String c s' =>
      match skip with
      | S k => String c (add_await_from (String c before) k s')
      | O =>
          match match_partial before s with
          | Some len =>
              "await " ++ String c (add_await_from (String c before) (len - 1) s')
          | None => String c (add_await_from (String c before) 0 s')
          end
      end
  end.

Definition add_await (s : string) : string := add_await_from EmptyString 0 s.

End Settings.

(** ** JavaScript values

    The values the engine handles: primitives, plain objects, arrays and
    functions.  Numbers are the integers.  A plain object is its list of
    own enumerable properties in enumeration order together with its
    identity [id] (two objects are the same object iff their identities
    agree).  An array is an object of its own kind: its properties are
    its elements under their indices.  Of the members inherited from
    [Object.prototype], the accessor [__proto__] is modelled where the
    engine assigns under a computed key ([put]) and [hasOwnProperty]
    where the engine calls it on an object with computed keys; the
    lookup of a cache store under a file name that is the name of such
    a member is outside the modelled universe.  A function is an opaque
    identity. *)

Module Js.

Inductive value : Type :=
| VUndef
| VNull
| VBool (b : bool)
| VNum (n : Z)
| VStr (s : string)
| VObj (id : N) (props : list (string * value))
| VArr (id : N) (props : list (string * value))
| VFun (id : N).

Abbreviation props := (list (string * value)).

(** ToBoolean. *)
Definition truthy (v : value) : bool :=
  match v with
  | VUndef | VNull => false
  | VBool b => b
  | VNum n => negb (n =? 0)%Z
  | VStr s => negb (String.eqb s "")
  | VObj _ _ | VArr _ _ | VFun _ => true
  end.

(** [a || b]. *)
Definition or_else (a b : value) : value := if truthy a then a else b.

(** SameValueZero, the equality of [_.union] and of lodash's [eq]. *)
Definition same_value_zero (a b : value) : bool :=
  match a, b with
  | VUndef, VUndef | VNull, VNull => true
  | VBool x, VBool y => Bool.eqb x y
  | VNum x, VNum y => (x =? y)%Z
  | VStr x, VStr y => String.eqb x y
  | VObj i _, VObj j _ => (i =? j)%N
  | VArr i _, VArr j _ => (i =? j)%N
  | VFun i, VFun j => (i =? j)%N
  | _, _ => false
  end.

Fixpoint digits_value (acc : N) (s : string) : option N :=
  match s with
  | EmptyString => Some acc
  | String c s' =>
      let n := N_of_ascii c in
      if ((48 <=? n) && (n <=? 57))%N
      then digits_value (acc * 10 + (n - 48)) s'
      else None
  end.

(** An array index: a canonical decimal numeral below 2^32 - 1.  Such
    keys are enumerated first, in ascending numeric order. *)
Definition array_index (k : string) : option N :=
  match k with
  | EmptyString => None
  | String "0"%char EmptyString => Some 0%N
  | String "0"%char _ => None
  | _ =>
      match digits_value 0 k with
      | Some n => if (n <? 4294967295)%N then Some n else None
      | None => None
      end
  end.

(** [o[k]] on own properties. *)
Fixpoint lookup (k : string) (o : props) : option value :=
  match o with
  | [] => None
  | (k', v) :: o' => if String.eqb k k' then Some v else lookup k o'
  end.

Definition has (k : string) (o : props) : bool :=
  match lookup k o with Some _ => true | None => false end.

(** [v[k]] for any value [v] that is not [null] or [undefined]; an
    array also has its [length]. *)
Definition get (v : value) (k : string) : value :=
  match v with
  | VObj _ o => match lookup k o with Some x => x | None => VUndef end
  | VArr _ o =>
      match lookup k o with
      | Some x => x
      | None => if String.eqb k "length" then VNum (Z.of_nat (length o))
                else VUndef
      end
  | _ => VUndef
  end.

Fixpoint replace (k : string) (v : value) (o : props) : props :=
  match o with
  | [] => []
  | (k', v') :: o' =>
      if String.eqb k k' then (k', v) :: o' else (k', v') :: replace k v o'
  end.

(** Position of a new array-index key [i]: before the first key that is
    not an array index or is a larger one. *)
Fixpoint insert_index (i : N) (k : string) (v : value) (o : props) : props :=
  match o with
  | [] => [(k, v)]
  | (k', v') :: o' =>
      match array_index k' with
      | Some j =>
          if (j <? i)%N then (k', v') :: insert_index i k v o'
          else (k, v) :: o
      | None => (k, v) :: o
      end
  end.

(** [o[k] = v]: an existing key keeps its place; a new key is enumerated
    after the existing ones, array indices first. *)
Definition set (k : string) (v : value) (o : props) : props :=
  if has k o then replace k v o
  else match array_index k with
       | Some i => insert_index i k v o
       | None => (o ++ [(k, v)])%list
       end.

(** [o[k] = v] on a plain object, for a value [v] that is not an object:
    the key [__proto__] names the accessor of the prototype, which
    ignores such a value, so nothing is stored. *)
Definition put (k : string) (v : value) (o : props) : props :=
  if String.eqb k "__proto__" then o else set k v o.

Fixpoint chars_from (i : N) (s : string) : props :=
  match s with
  | EmptyString => []
  | String c s' =>
      (pretty.pretty i, VStr (String c EmptyString)) :: chars_from (i + 1) s'
  end.

(** The own enumerable string-keyed properties lodash iterates over
    ([_.keys], [_.assign], [_.merge], [_.reduce]): those of a plain
    object, the elements of an array, the indexed characters of a string,
    none otherwise. *)
Definition own_props (v : value) : props :=
  match v with
  | VObj _ o | VArr _ o => o
  | VStr s => chars_from 0 s
  | _ => []
  end.

(** [_.has(v, k)]. *)
Definition has_key (v : value) (k : string) : bool :=
  match v with
  | VObj _ o | VArr _ o => has k o
  | _ => false
  end.

(** [_.assign(dst, src)]: every own property of [src] is assigned. *)
Definition assign1 (dst : props) (src : value) : props :=
  fold_left (fun d kv => set (fst kv) (snd kv) d) (own_props src) dst.

(** [isArrayLike(v)] for an object: an array, or an object whose
    [length] is a natural number. *)
Definition is_array_like (v : value) : bool :=
  match v with
  | VArr _ _ => true
  | VObj _ o =>
      match lookup "length" o with
      | Some (VNum n) => (0 <=? n)%Z
      | _ => false
      end
  | _ => false
  end.

(** [isIterateeCall(v, index, object)]: the three values look like the
    arguments of an iteratee, the element [v] of [object] under [index].
    The properties of a function are not modelled. *)
Definition is_iteratee_call (v index object : value) : bool :=
  match object with
  | VObj _ _ | VArr _ _ =>
      match index with
      | VNum n =>
          is_array_like object
          && match get object "length" with
             | VNum len => (0 <=? n)%Z && (n <? len)%Z
             | _ => false
             end
          && same_value_zero (get object (pretty.pretty n)) v
      | VStr k => has_key object k && same_value_zero (get object k) v
      | _ => false
      end
  | _ => false
  end.

(** [_.assign.apply(_, [dst].concat(srcs))]: when the second and third
    source are an index and an object that hold the first source, the
    call is taken for an iteratee call and only the first source is
    assigned. *)
Definition assign (dst : props) (srcs : list value) : props :=
  match srcs with
  | first :: index :: guard :: _ =>
      if is_iteratee_call first index guard then assign1 dst first
      else fold_left assign1 srcs dst
  | _ => fold_left assign1 srcs dst
  end.

(** [assignMergeValue] for a value that is not merged recursively: an
    [undefined] source value is assigned only to a missing key. *)
Definition assign_merge_value (k : string) (v : value) (dst : props) : props :=
  match v with
  | VUndef => if has k dst then dst else set k v dst
  | _ => set k v dst
  end.

Definition is_plain_object (v : value) : bool :=
  match v with VObj _ _ => true | _ => false end.

Definition is_array (v : value) : bool :=
  match v with VArr _ _ => true | _ => false end.

(** A plain object or an array: what [_.merge] merges recursively. *)
Definition is_container (v : value) : bool := is_plain_object v || is_array v.

Definition container (arr : bool) (id : N) (ps : props) : value :=
  if arr then VArr id ps else VObj id ps.

(** [baseMergeDeep]: the object that the source value [sv] is merged
    into, given the destination's value [dv] under the same key.  A plain
    object is merged into the destination's object or array; an array is
    merged into the destination's array; [None] when a new object, or a
    new array, takes the place of the destination's value. *)
Definition merge_target (sv : value) (dv : option value)
  : option (bool * N * props) :=
  match sv, dv with
  | VObj _ _, Some (VObj oid oprops) => Some (false, oid, oprops)
  | VObj _ _, Some (VArr oid oprops) => Some (true, oid, oprops)
  | VArr _ _, Some (VArr oid oprops) => Some (true, oid, oprops)
  | _, _ => None
  end.

(** [copyArray(o)] for an array-like object [o]: the elements under the
    indices below its [length]. *)
Definition copy_array (o : props) : props :=
  match lookup "length" o with
  | Some (VNum n) =>
      map (fun i =>
             let k := pretty.pretty (N.of_nat i) in
             (k, match lookup k o with Some x => x | None => VUndef end))
          (seq 0 (Z.to_nat n))
  | _ => []
  end.

(** [baseMergeDeep] when there is no target: the properties the new
    object or array starts with.  A new array starts as the copy of an
    array-like destination value; every other new object or array
    starts empty. *)
Definition merge_start (sv : value) (dv : option value) : props :=
  match sv, dv with
  | VArr _ _, Some (VObj i o) =>
      if is_array_like (VObj i o) then copy_array o else []
  | _, _ => []
  end.

(** [baseMerge(dst, src)] for a plain object or an array [src].  [nx] is
    the next unused object identity.  A source value that is a plain
    object or an array is merged recursively into its target, or into a
    new object or array; every other source value is assigned.  Under
    the key [__proto__] a plain object or an array is not merged and
    nothing is assigned ([safeGet] answers [undefined] for that key, and
    [undefined] is not assigned to a key the destination has or
    inherits). *)
Fixpoint base_merge (nx : N) (dst : props) (src : value) {struct src}
  : N * props :=
  match src with
  | VObj _ sprops | VArr _ sprops =>
      (fix each (nx : N) (dst : props) (ps : props) {struct ps} : N * props :=
         match ps with
         | [] => (nx, dst)
         | (k, sv) :: ps' =>
             match sv with
             | VObj _ _ | VArr _ _ =>
                 if String.eqb k "__proto__" then each nx dst ps'
                 else
                   match merge_target sv (lookup k dst) with
                   | Some (arr, oid, oprops) =>
                       let '(nx1, merged) := base_merge nx oprops sv in
                       each nx1 (set k (container arr oid merged) dst) ps'
                   | None =>
                       let '(nx1, merged) :=
                         base_merge (nx + 1) (merge_start sv (lookup k dst)) sv in
                       each nx1 (set k (container (is_array sv) nx merged) dst)
                            ps'
                   end
             | _ => each nx (assign_merge_value k sv dst) ps'
             end
         end) nx dst sprops
  | _ => (nx, dst)
  end.

(** One iteration of the loop of [base_merge], for the source property
    [k: sv]. *)
Definition merge_key (nx : N) (dst : props) (k : string) (sv : value)
  : N * props :=
  match sv with
  | VObj _ _ | VArr _ _ =>
      if String.eqb k "__proto__" then (nx, dst)
      else
        match merge_target sv (lookup k dst) with
        | Some (arr, oid, oprops) =>
            let '(nx1, merged) := base_merge nx oprops sv in
            (nx1, set k (container arr oid merged) dst)
        | None =>
            let '(nx1, merged) :=
              base_merge (nx + 1) (merge_start sv (lookup k dst)) sv in
            (nx1, set k (container (is_array sv) nx merged) dst)
        end
  | _ => (nx, assign_merge_value k sv dst)
  end.

(** The value that takes the place of the destination's value [dv] when
    the plain object or array [sv] is merged under the same key: the
    target with [sv] merged into it, or a new object or array with the
    content of [sv]. *)
Definition merge_into (nx : N) (sv : value) (dv : option value) : N * value :=
  match merge_target sv dv with
  | Some (arr, oid, oprops) =>
      let '(nx1, merged) := base_merge nx oprops sv in
      (nx1, container arr oid merged)
  | None =>
      let '(nx1, merged) := base_merge (nx + 1) (merge_start sv dv) sv in
      (nx1, container (is_array sv) nx merged)
  end.

(** What the key [k] holds once the source value [sv] has been merged
    onto the destination's value [dv] ([None]: the destination has not
    the key): a plain object or an array is merged (under [__proto__],
    left out), [undefined] leaves the destination's value, every other
    value takes its place. *)
Definition merge_value (nx : N) (k : string) (sv : value) (dv : option value)
  : option value :=
  if is_container sv then
    if String.eqb k "__proto__" then dv
    else Some (snd (merge_into nx sv dv))
  else match sv, dv with
       | VUndef, Some d => Some d
       | _, _ => Some sv
       end.

(** [o[k]] for a property found or not. *)
Definition value_of (o : option value) : value :=
  match o with Some x => x | None => VUndef end.

(** The properties the plain object or array [sv] is merged into. *)
Definition target_props (sv : value) (dv : option value) : props :=
  match merge_target sv dv with
  | Some (_, _, oprops) => oprops
  | None => merge_start sv dv
  end.

(** One source of [_.merge]: [null] and [undefined] sources are skipped,
    a string contributes its characters, other primitives nothing. *)
Definition merge1 (nx : N) (dst : props) (src : value) : N * props :=
  match src with
  | VObj _ _ | VArr _ _ => base_merge nx dst src
  | VStr s => (nx, fold_left (fun d kv => assign_merge_value (fst kv) (snd kv) d)
                             (chars_from 0 s) dst)
  | _ => (nx, dst)
  end.

(** [_.merge({}, a, b)]: the fresh destination gets identity [nx]. *)
Definition merge_fresh (nx : N) (a b : value) : N * value :=
  let '(nx1, d1) := merge1 (nx + 1) [] a in
  let '(nx2, d2) := merge1 nx1 d1 b in
  (nx2, VObj nx d2).

(** [_.union(xs)] after flattening: first occurrences, in order. *)
Fixpoint uniq_onto (seen : list value) (xs : list value) : list value :=
  match xs with
  | [] => []
  | x :: xs' =>
      if existsb (same_value_zero x) seen then uniq_onto seen xs'
      else x :: uniq_onto (x :: seen) xs'
  end.

Definition union (xs : list value) : list value := uniq_onto [] xs.

(** The content of a value: the identities of objects forgotten (a copy
    made by [_.merge] has the content of its original). *)
Fixpoint content (v : value) : value :=
  match v with
  | VObj _ o =>
      VObj 0 ((fix go (o : props) : props :=
                 match o with
                 | [] => []
                 | (k, x) :: o' => (k, content x) :: go o'
                 end) o)
  | VArr _ o =>
      VArr 0 ((fix go (o : props) : props :=
                 match o with
                 | [] => []
                 | (k, x) :: o' => (k, content x) :: go o'
                 end) o)
  | _ => v
  end.

(** ToString, as used by [+] on strings; an array is the list of its
    elements separated by commas, [null] and [undefined] elements being
    empty. *)
Fixpoint to_string (v : value) : string :=
  match v with
  | VUndef => "undefined"
  | VNull => "null"
  | VBool true => "true"
  | VBool false => "false"
  | VNum n => pretty.pretty n
  | VStr s => s
  | VObj _ _ => "[object Object]"
  | VArr _ o =>
      (fix go (o : props) : string :=
         match o with
         | [] => ""
         | (_, x) :: o' =>
             let here := match x with
                         | VUndef | VNull => ""
                         | _ => to_string x
                         end in
             match o' with
             | [] => here
             | _ => here ++ "," ++ go o'
             end
         end) o
  | VFun _ => "function"
  end.

End Js.

(** ** The engine: data model *)

Module Engine.
Import Js.

(** An [Error] object: its [name] and its [message]. *)
Record error : Type := { err_name : string; err_message : string }.

(** [new Error(message)]. *)
Definition Error (message : string) : error :=
  {| err_name := "Error"; err_message := message |}.

(** A [TypeError] raised by the runtime (property access on [null] or
    [undefined], a call of something that is not a function, a path
    argument that is not a string); [what] names the offending
    expression, the runtime's own wording is not modelled. *)
Definition TypeError (what : string) : error :=
  {| err_name := "TypeError"; err_message := what |}.

(** [Error.prototype.toString]. *)
Definition err_to_string (e : error) : string :=
  match err_name e, err_message e with
  | EmptyString, m => m
  | n, EmptyString => n
  | n, m => n ++ ": " ++ m
  end.

(** How a call ends: it returns, it throws (a promise: it is rejected),
    or the evaluation budget of the model is used up. *)
Inductive result (A : Type) : Type :=
| Returned (a : A)
| Thrown (e : error)
| NoFuel.
Arguments Returned {A} a.
Arguments Thrown {A} e.
Arguments NoFuel {A}.

(** What a compiled section function does when it is applied to its
    arguments: it returns its output, it throws, or it calls the partial
    helper it was given and goes on with what the helper delivered (its
    string, or the error it raised).  In an async section the call is
    awaited.  The function holds the layout model it was given, an
    object that the engine writes to: what the function does after a
    call also depends on that object as it is when the function goes
    on, the second argument of [k]. *)
Inductive prog : Type :=
| Return (out : string)
| Raise (e : error)
| CallPartial (path : string) (extra : list value)
              (k : error + string -> value -> prog).

(** A compiled section: a function of the positional argument list. *)
Definition section_fn : Type := list value -> prog.

(** The options object handed to [new Template(options, isAsync)]. *)
Record source_options : Type := {
  express : value;            (* templateSettings *)
  config : value;
  sections : props;
  dirname : string;
  filename : string
}.

Record Template : Type := {
  options : source_options;
  isAsync : bool;
  isLayout : bool;
  master : option string;
  templates : list (string * section_fn);
  varname : string;           (* self.settings.varname *)
  strip : bool;               (* self.settings.strip *)
  viewData : list value;
  shortcuts : props
}.

(** The argument of [render] / [renderAsync]. *)
Record render_options : Type := {
  layout : value;
  model : value;
  isPartial : bool
}.

(** The mutable fields of [settings] that the pipeline reads or writes. *)
Record settings : Type := {
  header : string;
  stripComment : bool;
  stripWhitespace : bool;
  dot_strip : bool            (* settings.dot.strip *)
}.

(** Instrumentation: the engine actions, most recent first. *)
Inductive event : Type :=
| CacheGet (async : bool) (key : string)
| CacheSet (async : bool) (key : string)
| RenderBegin (async : bool) (file : string)
| Invoke (file : string) (section : string) (args : list value)
| Store (file : string) (section : string) (out : string).

(** The process state: the settings, the two cache stores, the next
    unused object identity, the choices of the scheduler among pending
    async sections, and the event trace. *)
Record state : Type := {
  st_settings : settings;
  cache : gmap string Template;
  asyncCache : gmap string Template;
  next_id : N;
  schedule : list nat;
  trace : list event
}.

(** The collaborators outside the repository. *)
Record world : Type := {
  (* yaml.load *)
  yaml_load : string -> error + value;
  (* dot.template / dot.templateAsync: async flag, varname, strip, text *)
  dot_template : bool -> string -> bool -> string -> error + section_fn;
  (* fs.readFileSync / fsPromises.readFile, 'utf8' *)
  read_file : string -> error + string;
  (* a custom [getTemplate] function, by its identity *)
  call_loader : N -> string -> value -> error + value;
  path_join : string -> string -> string;
  path_dirname : string -> string
}.

(** *** The state-and-result monad of the engine *)

Definition M (A : Type) : Type := state -> state * result A.

Definition ret {A} (a : A) : M A := fun st => (st, Returned a).
Definition throw {A} (e : error) : M A := fun st => (st, Thrown e).
Definition no_fuel {A} : M A := fun st => (st, NoFuel).

Definition bind {A B} (m : M A) (f : A -> M B) : M B :=
  fun st =>
    match m st with
    | (st', Returned a) => f a st'
    | (st', Thrown e) => (st', Thrown e)
    | (st', NoFuel) => (st', NoFuel)
    end.

(** [try { m } catch (err) { h err }]. *)
Definition try_catch {A} (m : M A) (h : error -> M A) : M A :=
  fun st =>
    match m st with
    | (st', Thrown e) => h e st'
    | r => r
    end.

(** The outcome of [m] as a value: what an awaited call delivers. *)
Definition settle {A} (m : M A) : M (error + A) :=
  fun st =>
    match m st with
    | (st', Returned a) => (st', Returned (inr a))
    | (st', Thrown e) => (st', Returned (inl e))
    | (st', NoFuel) => (st', NoFuel)
    end.

Definition lift {A} (r : error + A) : M A :=
  match r with inl e => throw e | inr a => ret a end.

Declare Scope engine_scope.
Delimit Scope engine_scope with engine.
Notation "'let*' x ':=' m 'in' k" := (bind m (fun x => k))
  (at level 10, x pattern, m at level 100, k at level 200) : engine_scope.
Local Open Scope engine_scope.

Definition log (e : event) : M unit :=
  fun st => (Build_state (st_settings st) (cache st) (asyncCache st)
                         (next_id st) (schedule st) (e :: trace st),
             Returned tt).

(** A new object identity. *)
Definition fresh : M N :=
  fun st => (Build_state (st_settings st) (cache st) (asyncCache st)
                         (next_id st + 1) (schedule st) (trace st),
             Returned (next_id st)).

(** Run a computation that threads the identity counter. *)
Definition with_ids {A} (f : N -> N * A) : M A :=
  fun st => let '(nx, a) := f (next_id st) in
            (Build_state (st_settings st) (cache st) (asyncCache st)
                         nx (schedule st) (trace st),
             Returned a).

Definition get_settings : M settings :=
  fun st => (st, Returned (st_settings st)).

(** [settings.dot.strip = b]. *)
Definition set_dot_strip (b : bool) : M unit :=
  fun st =>
    let s := st_settings st in
    (Build_state (Build_settings (header s) (stripComment s) (stripWhitespace s) b)
                 (cache st) (asyncCache st) (next_id st) (schedule st) (trace st),
     Returned tt).

(** [v.k] as an expression: reading a property of [null] or [undefined]
    throws. *)
Definition member (what : string) (v : value) (k : string) : M value :=
  match v with
  | VUndef | VNull => throw (TypeError what)
  | _ => ret (get v k)
  end.

Fixpoint join (sep : string) (xs : list string) : string :=
  match xs with
  | [] => ""
  | [x] => x
  | x :: xs' => x ++ sep ++ join sep xs'
  end.

Section Pipeline.
Variable W : world.

(** *** [processTemplateString(str, options, isAsync)] *)
Definition processTemplateString (str : string) (opts : value) (async : bool)
  : M (value * props * value) :=
  (* let config = {}; the callback of str.replace(settings.config, ...)
     runs for the match at offset 0, and the result of replace is dropped *)
  let* cid := fresh in
  let* config :=
    match Settings.match_config str with
    | Some (conf, _) => lift (yaml_load W conf)
    | None => ret (VObj cid [])
    end in
  let* s := get_settings in
  let str := if stripComment s then Settings.strip_comments str else str in
  let* _ := if stripWhitespace s then set_dot_strip true else ret tt in
  let partial := if async then Settings.add_await else (fun x => x) in
  let* lay := member "config.layout" config "layout" in
  let sections :=
    if negb (truthy lay) then put "body" (VStr (partial str)) []
    else fold_left (fun acc cv => put (fst cv) (VStr (partial (snd cv))) acc)
                   (Settings.scan_defines 0 str) [] in
  (* templateSettings *)
  let* tid := fresh in
  let picked :=
    if has_key opts "settings" then [("settings", get opts "settings")] else [] in
  let* gt := member "options.getTemplate" opts "getTemplate" in
  let picked := if truthy gt then set "getTemplate" gt picked else picked in
  let picked := set "cache" (or_else (get opts "cache") (VBool false)) picked in
  ret (config, sections, VObj tid picked).

(** *** [Template.prototype.init] / [initAsync]: one compiled function per
    section, under the section's name. *)
Fixpoint compile_sections (async : bool) (vn : string) (sp : bool)
    (secs : props) : M (list (string * section_fn)) :=
  match secs with
  | [] => ret []
  | (key, v) :: rest =>
      let* f :=
        match v with
        | VStr text => lift (dot_template W async vn sp text)
        | _ => throw (TypeError "dot.template")
        end in
      let* fs := compile_sections async vn sp rest in
      ret ((key, f) :: fs)
  end.

Definition with_templates (t : Template) (fs : list (string * section_fn))
  : Template :=
  {| options := options t; isAsync := isAsync t; isLayout := isLayout t;
     master := master t; templates := fs; varname := varname t;
     strip := strip t; viewData := viewData t; shortcuts := shortcuts t |}.

(** The loop over the sections asks [sections.hasOwnProperty(key)] for
    every key: a section of that name takes the place of the method, and
    the first call fails. *)
Definition own_guard (secs : props) : M unit :=
  match secs with
  | [] => ret tt
  | _ => if has "hasOwnProperty" secs
         then throw (TypeError "sections.hasOwnProperty") else ret tt
  end.

(** The promises of [initAsync], and the loop body of [init]. *)
Definition compile_all (t : Template) : M Template :=
  let* fs := compile_sections (isAsync t) (varname t) (strip t)
                              (sections (options t)) in
  ret (with_templates t fs).

Definition init (t : Template) : M Template :=
  let* _ := own_guard (sections (options t)) in
  compile_all t.

(** *** [new Template(options, isAsync)] *)
Definition new_Template (o : source_options) (async : bool) : M Template :=
  let* lay := member "options.config.layout" (config o) "layout" in
  let* mst :=
    if truthy lay then
      match lay with
      | VStr l => ret (Some (path_join W (dirname o) l))
      | _ => throw (TypeError "path.join")
      end
    else ret None in
  let* s := get_settings in
  let est := get (express o) "settings" in
  let vd :=
    if has_key (express o) "settings" && has_key est "view data"
    then own_props (get est "view data") else [] in
  let vn := fold_left (fun r kv => r ++ ", " ++ fst kv) vd
                      "layout, partial, locals, model" in
  let has_sc := has_key (express o) "settings" && has_key est "view shortcut" in
  let sc := if has_sc then own_props (get est "view shortcut") else [] in
  let vn := if has_sc then vn ++ ", " ++ join "," (map fst sc) else vn in
  let t := {| options := o; isAsync := async; isLayout := truthy lay;
              master := mst; templates := []; varname := vn;
              strip := dot_strip s; viewData := map snd vd; shortcuts := sc |} in
  if async then ret t else init t.

Definition build_error (file : string) (err : error) : error :=
  Error ("Failed to build template (" ++ file ++ ") - " ++ err_to_string err).

(** The text handed to the parser must be a string: [str.replace]. *)
Definition as_text (v : value) : M string :=
  match v with
  | VStr s => ret s
  | _ => throw (TypeError "str.replace")
  end.

(** *** [builtTemplateFromString(str, filename, options)] *)
Definition builtTemplateFromString (str : value) (file : string) (opts : value)
  : M Template :=
  try_catch
    (let* text := as_text str in
     let* parsed := processTemplateString text opts false in
     let '(cfg, secs, ts) := parsed in
     new_Template {| express := ts; config := cfg; sections := secs;
                     dirname := path_dirname W file; filename := file |} false)
    (fun err => throw (build_error file err)).

(** *** [builtTemplateFromStringAsync(str, filename, options)]: the
    [try] covers the parser, the constructor and the call of
    [initAsync], whose loop over the sections runs at once; a failure of
    [dot.templateAsync] is a rejection of the promise [initAsync]
    returns and passes through unwrapped. *)
Definition builtTemplateFromStringAsync (str : value) (file : string)
    (opts : value) : M Template :=
  let* t :=
    try_catch
      (let* text := as_text str in
       let* parsed := processTemplateString text opts true in
       let '(cfg, secs, ts) := parsed in
       let* t := new_Template {| express := ts; config := cfg; sections := secs;
                                 dirname := path_dirname W file;
                                 filename := file |} true in
       let* _ := own_guard secs in
       ret t)
      (fun err => throw (build_error file err)) in
  compile_all t.

(** *** The cache stores: [cache.get], [cache.set], [cache.clear] and
    their [asyncCache] twins, selected by [async]. *)
Definition cache_get (async : bool) (key : string) : M (option Template) :=
  fun st =>
    (Build_state (st_settings st) (cache st) (asyncCache st) (next_id st)
                 (schedule st) (CacheGet async key :: trace st),
     Returned ((if async then asyncCache st else cache st) !! key)).

Definition cache_set (async : bool) (key : string) (t : Template) : M unit :=
  fun st =>
    (Build_state (st_settings st)
                 (if async then cache st else <[key := t]> (cache st))
                 (if async then <[key := t]> (asyncCache st) else asyncCache st)
                 (next_id st) (schedule st) (CacheSet async key :: trace st),
     Returned tt).

Definition cache_clear (async : bool) : M unit :=
  fun st =>
    (Build_state (st_settings st)
                 (if async then cache st else ∅)
                 (if async then ∅ else asyncCache st)
                 (next_id st) (schedule st) (trace st),
     Returned tt).

(** The template text: [options.getTemplate] when it is a function, the
    file otherwise. *)
Definition template_content (file : string) (opts : value) : M value :=
  let* gt := member "options.getTemplate" opts "getTemplate" in
  match gt with
  | VFun f => lift (call_loader W f file opts)
  | _ => let* s := lift (read_file W file) in ret (VStr s)
  end.

(** *** [buildTemplate(filename, options)], without callback *)
Definition buildTemplate (file : string) (opts : value) : M Template :=
  let* text := template_content file opts in
  builtTemplateFromString text file opts.

(** *** [buildTemplateAsync(filename, options)] *)
Definition buildTemplateAsync (file : string) (opts : value) : M Template :=
  let* text := template_content file opts in
  builtTemplateFromStringAsync text file opts.

(** *** [getTemplate(filename, options)], without callback *)
Definition getTemplate (file : string) (opts : value) : M Template :=
  let* c := member "options.cache" opts "cache" in
  let cacheTemplate := truthy c in
  let* fromCache := if cacheTemplate then cache_get false file else ret None in
  match fromCache with
  | Some t => ret t
  | None =>
      let* t := buildTemplate file opts in
      let* _ := if cacheTemplate then cache_set false file t else ret tt in
      ret t
  end.

(** *** [getTemplateAsync(filename, options)]; [options?.cache] does not
    throw. *)
Definition getTemplateAsync (file : string) (opts : value) : M Template :=
  let cacheTemplate := truthy (get opts "cache") in
  let* fromCache := if cacheTemplate then cache_get true file else ret None in
  match fromCache with
  | Some t => ret t
  | None =>
      let* t := buildTemplateAsync file opts in
      let* _ := if cacheTemplate then cache_set true file t else ret tt in
      ret t
  end.

(** *** Rendering a section *)

Definition render_error (file : string) (err : error) : error :=
  Error ("Failed to render with doT (" ++ file ++ ") - " ++ err_to_string err).

(** The shortcut values:
    [options.model._locals[this.shortcuts[shortcut]] || null] for every
    key of [this.shortcuts]. *)
Fixpoint shortcut_values (locals : value) (sc : props) : M (list value) :=
  match sc with
  | [] => ret []
  | (_, path) :: rest =>
      let* v := member "options.model._locals" locals (to_string path) in
      let* vs := shortcut_values locals rest in
      ret (or_else v VNull :: vs)
  end.

(** The shortcut values in [render]: the callback of [map] reads
    [this.shortcuts], and [this] is not the template there (lodash's
    [map] takes no [this] argument), so the callback fails at the first
    shortcut. *)
Definition shortcut_values_unbound (sc : props) : M (list value) :=
  match sc with
  | [] => ret []
  | _ => throw (TypeError "this.shortcuts")
  end.

(** The positional arguments before [_.union] removes repetitions, in
    [renderAsync] ([async = true]) and in [render]. *)
Definition arg_candidates (async : bool) (t : Template) (layoutModel : value)
    (ro : render_options) : M (list value) :=
  let* helper := fresh in                 (* this.createPartialHelper(...) *)
  let* loc := member "options.model" (model ro) "_locals" in
  let* locals :=
    if truthy loc then ret loc
    else let* i := fresh in ret (VObj i []) in
  let* scs := if async then shortcut_values loc (shortcuts t)
              else shortcut_values_unbound (shortcuts t) in
  ret ([layoutModel; VFun helper; locals; model ro] ++ viewData t ++ scs)%list.

(** [viewModel]. *)
Definition viewModel (async : bool) (t : Template) (layoutModel : value)
    (ro : render_options) : M (list value) :=
  let* xs := arg_candidates async t layoutModel ro in
  ret (union xs).

(** [layoutModel[key] = out]. *)
Definition store (key : string) (out : string) (layoutModel : value) : value :=
  match layoutModel with
  | VObj i o => VObj i (put key (VStr out) o)
  | _ => layoutModel
  end.

(** *** The function returned by [createPartialHelper(layout, model)] *)

(** [path.join(self.options.dirname || self.options.express.settings.views,
    partialPath)]. *)
Definition helper_path (t : Template) (partialPath : string) : M string :=
  if negb (String.eqb (dirname (options t)) "")
  then ret (path_join W (dirname (options t)) partialPath)
  else
    let* views := member "self.options.express.settings"
                         (get (express (options t)) "settings") "views" in
    match views with
    | VStr d => ret (path_join W d partialPath)
    | _ => throw (TypeError "path.join")
    end.

(** [if (args.length) model = _.assign.apply(_, [{}, model].concat(args))]:
    the new value of the variable [model] the helper closes over. *)
Definition helper_model (captured : value) (extra : list value) : M value :=
  match extra with
  | [] => ret captured
  | _ => let* i := fresh in ret (VObj i (assign [] (captured :: extra)))
  end.

(** Applying a sync section: its calls of the helper are answered by
    [getTemplate] and the nested [render] ([rnd]); [captured] is the
    helper's variable [model]. *)
Fixpoint run_prog (rnd : Template -> render_options -> M string)
    (t : Template) (layoutModel captured : value) (p : prog) : M string :=
  match p with
  | Return out => ret out
  | Raise e => throw e
  | CallPartial partialPath extra k =>
      let* tp := settle (helper_path t partialPath) in
      match tp with
      | inl e => run_prog rnd t layoutModel captured (k (inl e) layoutModel)
      | inr templatePath =>
          let* m := helper_model captured extra in
          let* r := settle
            (let* pt := getTemplate templatePath (express (options t)) in
             rnd pt {| layout := layoutModel; model := m; isPartial := true |}) in
          run_prog rnd t layoutModel m (k r layoutModel)
      end
  end.

(** [layoutModel = _.merge({}, layout, this.options.config)]. *)
Definition seed_layout (t : Template) (ro : render_options) : M value :=
  with_ids (fun nx => merge_fresh nx (layout ro) (config (options t))).

(** The [for (let key in this.templates)] loop of [render]. *)
Fixpoint render_sections (rnd : Template -> render_options -> M string)
    (t : Template) (ro : render_options) (layoutModel : value)
    (fs : list (string * section_fn)) : M value :=
  match fs with
  | [] => ret layoutModel
  | (key, f) :: rest =>
      let file := filename (options t) in
      let* out :=
        try_catch
          (let* args := viewModel false t layoutModel ro in
           let* _ := log (Invoke file key args) in
           run_prog rnd t layoutModel (model ro) (f args))
          (fun err => throw (render_error file err)) in
      let* _ := log (Store file key out) in
      render_sections rnd t ro (store key out layoutModel) rest
  end.

(** [(!options.isPartial ? settings.header : '') + layoutModel.body]. *)
Definition final_result (ro : render_options) (layoutModel : value) : M string :=
  let* s := get_settings in
  ret ((if negb (isPartial ro) then header s else "")
       ++ to_string (get layoutModel "body")).

Definition master_path (t : Template) : M string :=
  match master t with
  | Some p => ret p
  | None => throw (TypeError "path")
  end.

(** The first part of [render]: the layout model is seeded and every
    section is rendered into it. *)
Definition render_all_sections (rnd : Template -> render_options -> M string)
    (t : Template) (ro : render_options) : M value :=
  let* _ := log (RenderBegin false (filename (options t))) in
  let* lm0 := seed_layout t ro in
  render_sections rnd t ro lm0 (templates t).

(** *** [Template.prototype.render(options)], without callback *)
Fixpoint Template_render (fuel : nat) (t : Template) (ro : render_options)
  : M string :=
  match fuel with
  | O => no_fuel
  | S n =>
      let* lm := render_all_sections (Template_render n) t ro in
      if negb (isLayout t) then final_result ro lm
      else
        let* mp := master_path t in
        let* masterTemplate := getTemplate mp (express (options t)) in
        Template_render n masterTemplate
          {| layout := lm; model := model ro; isPartial := false |}
  end.

(** *** [Template.prototype.renderAsync(options)] *)

(** A section whose promise is pending: what is left of its function
    and the variable [model] of its helper. *)
Record task : Type := {
  tk_key : string;
  tk_prog : prog;
  tk_model : value
}.

(** The [.map] over the section names: the arguments are built and the
    function is applied, inside the [try]. *)
Fixpoint start_sections (t : Template) (ro : render_options)
    (layoutModel : value) (fs : list (string * section_fn)) : M (list task) :=
  match fs with
  | [] => ret []
  | (key, f) :: rest =>
      let file := filename (options t) in
      let* args := try_catch (viewModel true t layoutModel ro)
                             (fun err => throw (render_error file err)) in
      let* _ := log (Invoke file key args) in
      let* ts := start_sections t ro layoutModel rest in
      ret ({| tk_key := key; tk_prog := f args; tk_model := model ro |} :: ts)
  end.

(** The next choice of the scheduler among [n] pending sections. *)
Definition pick (n : nat) : M nat :=
  fun st =>
    match schedule st with
    | [] => (st, Returned 0)
    | c :: cs =>
        (Build_state (st_settings st) (cache st) (asyncCache st) (next_id st)
                     cs (trace st),
         Returned (c mod n))
    end.

(** [Promise.all(sectionPromisses)]: the pending sections advance one
    step at a time in the order the scheduler chooses.  A section that
    returns is stored ([.then((m) => layoutModel[key] = m)]); the first
    one that fails rejects the whole.  A section that goes on after a
    call of the helper finds the layout model as the sections that
    returned before have left it. *)
Fixpoint settle_all (rnd : Template -> render_options -> M string)
    (fuel : nat) (t : Template) (layoutModel : value) (pending : list task)
  : M value :=
  match pending with
  | [] => ret layoutModel
  | first :: _ =>
      match fuel with
      | O => no_fuel
      | S n =>
          let* i := pick (length pending) in
          let tk := nth i pending first in
          match tk_prog tk with
          | Return out =>
              let* _ := log (Store (filename (options t)) (tk_key tk) out) in
              settle_all rnd n t (store (tk_key tk) out layoutModel)
                         (delete i pending)
          | Raise e => throw e
          | CallPartial partialPath extra k =>
              let* tp := settle (helper_path t partialPath) in
              match tp with
              | inl e =>
                  settle_all rnd n t layoutModel
                    (<[i := {| tk_key := tk_key tk;
                               tk_prog := k (inl e) layoutModel;
                               tk_model := tk_model tk |}]> pending)
              | inr templatePath =>
                  let* m := helper_model (tk_model tk) extra in
                  let* r := settle
                    (let* pt := getTemplateAsync templatePath
                                                 (express (options t)) in
                     rnd pt {| layout := layoutModel; model := m;
                               isPartial := true |}) in
                  settle_all rnd n t layoutModel
                    (<[i := {| tk_key := tk_key tk; tk_prog := k r layoutModel;
                               tk_model := m |}]> pending)
              end
          end
      end
  end.

(** The first part of [renderAsync]: the layout model is seeded, every
    section is started, and all of them are awaited. *)
Definition renderAsync_all_sections
    (rnd : Template -> render_options -> M string) (fuel : nat)
    (t : Template) (ro : render_options) : M value :=
  let* _ := log (RenderBegin true (filename (options t))) in
  let* lm0 := seed_layout t ro in
  let* pending := start_sections t ro lm0 (templates t) in
  settle_all rnd fuel t lm0 pending.

Fixpoint Template_renderAsync (fuel : nat) (t : Template) (ro : render_options)
  : M string :=
  match fuel with
  | O => no_fuel
  | S n =>
      let* lm := renderAsync_all_sections (Template_renderAsync n) n t ro in
      if negb (isLayout t) then final_result ro lm
      else
        let* mp := master_path t in
        let* masterTemplate := getTemplateAsync mp (express (options t)) in
        Template_renderAsync n masterTemplate
          {| layout := lm; model := model ro; isPartial := false |}
  end.

(** *** The entry points *)

(** [{ model: options, }]. *)
Definition top_options (opts : value) : render_options :=
  {| layout := VUndef; model := opts; isPartial := false |}.

(** [render(filename, options)] without callback, i.e. [renderSync]. *)
Definition render (fuel : nat) (file : string) (opts : value) : M string :=
  let* template := getTemplate file opts in
  Template_render fuel template (top_options opts).

Definition renderAsync (fuel : nat) (file : string) (opts : value) : M string :=
  let* template := getTemplateAsync file opts in
  Template_renderAsync fuel template (top_options opts).

Definition renderString (fuel : nat) (templateString : string) (opts : value)
  : M string :=
  let* template := builtTemplateFromString (VStr templateString) "" opts in
  Template_render fuel template (top_options opts).

Definition renderStringAsync (fuel : nat) (templateString : string)
    (opts : value) : M string :=
  let* template := builtTemplateFromStringAsync (VStr templateString) "" opts in
  Template_renderAsync fuel template (top_options opts).

End Pipeline.

End Engine.

(** ** A small world for the examples

    The collaborators restricted to what the examples use: js-yaml on
    flat [key: value] mappings, doT on literal text with interpolations
    [[[= e ]]] where [e] is a member path ([layout.a], [model.a.b]) or a
    call of the partial helper, an in-memory file system, and [path] on
    relative names without [.] or [..] segments. *)

Module Fixture.
Import Text Js Engine.

Definition nl : string := String (ascii_of_nat 10) EmptyString.

Definition trim_left (s : string) : string := snd (span is_space s).

Definition trim (s : string) : string :=
  rev_onto (trim_left (rev_onto (trim_left s) "")) "".

(** Split at every occurrence of the one-character separator [sep]. *)
Fixpoint split_on (sep : ascii) (cur : string) (s : string) : list string :=
  match s with
  | EmptyString => [rev_onto cur ""]
  | String c s' =>
      if (c =? sep)%char then rev_onto cur "" :: split_on sep "" s'
      else split_on sep (String c cur) s'
  end.

(** A plain YAML scalar. *)
Definition yaml_scalar (s : string) : value :=
  match s with
  | "" => VNull
  | "true" => VBool true
  | "false" => VBool false
  | _ => match digits_value 0 s with
         | Some n => VNum (Z.of_N n)
         | None => VStr s
         end
  end.

Fixpoint yaml_lines (ls : list string) (acc : props) : error + props :=
  match ls with
  | [] => inr acc
  | l :: rest =>
      if String.eqb (trim l) "" then yaml_lines rest acc
      else match find_sub ":" l with
           | Some (k, v) => yaml_lines rest (set (trim k) (yaml_scalar (trim v)) acc)
           | None => inl (Error "YAMLException")
           end
  end.

(** [yaml.load] on a flat mapping; an empty document loads as
    [undefined]. *)
Definition yaml (conf : string) : error + value :=
  match yaml_lines (split_on (ascii_of_nat 10) "" conf) [] with
  | inl e => inl e
  | inr [] => inr VUndef
  | inr o => inr (VObj 0 o)
  end.

Inductive expr : Type :=
| EPath (root : nat) (segs : list string)
| ELit (s : string)
| ECall (path : string) (extra : list (string * expr)).

Inductive piece : Type :=
| Lit (s : string)
| Interp (e : expr).

(** The position of a parameter in [varname]. *)
Definition root_index (name : string) : option nat :=
  match name with
  | "layout" => Some 0 | "partial" => Some 1
  | "locals" => Some 2 | "model" => Some 3
  | _ => None
  end.

Definition parse_simple (s : string) : option expr :=
  match s with
  | String "'"%char rest =>
      match find_sub "'" rest with
      | Some (lit, "") => Some (ELit lit)
      | _ => None
      end
  | _ =>
      match split_on "."%char "" s with
      | root :: segs =>
          match root_index root with
          | Some i =>
              if forallb (fun g => all_chars is_word g
                                   && negb (String.eqb g "")) segs
              then Some (EPath i segs) else None
          | None => None
          end
      | [] => None
      end
  end.

(** [{ key: e }] or [{ key: e, }]. *)
Definition parse_extra (s : string) : option (list (string * expr)) :=
  match s with
  | String "{"%char rest =>
      match find_sub "}" rest with
      | Some (body, "") =>
          match find_sub ":" body with
          | Some (k, v) =>
              let v := trim v in
              let v := match find_sub "," v with
                       | Some (v', after) =>
                           if String.eqb (trim after) "" then trim v' else v
                       | None => v
                       end in
              match parse_simple v with
              | Some e => Some [(trim k, e)]
              | None => None
              end
          | None => None
          end
      | _ => None
      end
  | _ => None
  end.

Definition strip_await (s : string) : string :=
  if String.prefix "await " s then trim_left (drop 6 s) else s.

Definition parse_expr (inner : string) : option expr :=
  let s := strip_await (trim inner) in
  if String.prefix "partial('" s then
    match find_sub "'" (drop 9 s) with
    | Some (path, rest) =>
        match trim rest with
        | ")" => Some (ECall path [])
        | String ","%char more =>
            match find_sub ")" more with
            | Some (obj, "") =>
                match parse_extra (trim obj) with
                | Some ex => Some (ECall path ex)
                | None => None
                end
            | _ => None
            end
        | _ => None
        end
    | None => None
    end
  else parse_simple s.

(** The pieces of a template text; [fuel] bounds the number of
    interpolations. *)
Fixpoint parse_pieces (fuel : nat) (s : string) : option (list piece) :=
  match fuel with
  | O => None
  | S n =>
      match find_sub "[[=" s with
      | None => Some [Lit s]
      | Some (before, after) =>
          match find_sub "]]" after with
          | None => None
          | Some (inner, rest) =>
              match parse_expr inner, parse_pieces n rest with
              | Some e, Some ps => Some (Lit before :: Interp e :: ps)
              | _, _ => None
              end
          end
      end
  end.

Fixpoint eval_path (v : value) (segs : list string) : error + value :=
  match segs with
  | [] => inr v
  | g :: rest =>
      match v with
      | VUndef | VNull => inl (TypeError ("Cannot read properties (reading '" ++ g ++ "')"))
      | _ => eval_path (get v g) rest
      end
  end.

Definition eval_simple (args : list value) (e : expr) : error + value :=
  match e with
  | EPath i segs => eval_path (nth i args VUndef) segs
  | ELit s => inr (VStr s)
  | ECall _ _ => inl (TypeError "nested call")
  end.

Fixpoint eval_extra (args : list value) (ex : list (string * expr))
  : error + props :=
  match ex with
  | [] => inr []
  | (k, e) :: rest =>
      match eval_simple args e, eval_extra args rest with
      | inr v, inr o => inr (set k v o)
      | inl err, _ => inl err
      | _, inl err => inl err
      end
  end.

(** The compiled function: the output is built left to right; an
    interpolated value is converted to a string; an exception leaves the
    function. *)
Fixpoint run_pieces (args : list value) (out : string) (ps : list piece) : prog :=
  match ps with
  | [] => Return out
  | Lit s :: rest => run_pieces args (out ++ s) rest
  | Interp (ECall path ex) :: rest =>
      match eval_extra args ex with
      | inl err => Raise err
      | inr o =>
          CallPartial path (match ex with [] => [] | _ => [VObj 0 o] end)
            (fun r lm => match r with
                         | inl err => Raise err
                         | inr s => run_pieces (lm :: tl args) (out ++ s) rest
                         end)
      end
  | Interp e :: rest =>
      match eval_simple args e with
      | inl err => Raise err
      | inr v => run_pieces args (out ++ to_string v) rest
      end
  end.

(** [dot.template] / [dot.templateAsync] on the fragment. *)
Definition dot (async : bool) (vn : string) (sp : bool) (text : string)
  : error + section_fn :=
  match parse_pieces (S (String.length text)) text with
  | Some ps => inr (fun args => run_pieces args "" ps)
  | None => inl (Error "SyntaxError")
  end.

Fixpoint file_lookup (name : string) (files : list (string * string))
  : error + string :=
  match files with
  | [] => inl (Error ("ENOENT: no such file or directory, open '" ++ name ++ "'"))
  | (n, text) :: rest =>
      if String.eqb n name then inr text else file_lookup name rest
  end.

Definition join_path (dir name : string) : string :=
  if String.eqb dir "." then name else dir ++ "/" ++ name.

Fixpoint last_slash (s : string) : option string :=
  match s with
  | EmptyString => None
  | String c s' =>
      match last_slash s' with
      | Some d => Some (String c d)
      | None => if (c =? "/")%char then Some EmptyString else None
      end
  end.

Definition dir_name (file : string) : string :=
  match last_slash file with
  | Some "" => "/"
  | Some d => d
  | None => "."
  end.

(** The world over the files [files]. *)
Definition world_of (files : list (string * string)) : world :=
  {| yaml_load := yaml;
     dot_template := dot;
     read_file := fun name => file_lookup name files;
     call_loader := fun _ _ _ => inl (TypeError "getTemplate");
     path_join := join_path;
     path_dirname := dir_name |}.

Definition default_settings : settings :=
  {| header := ""; stripComment := false; stripWhitespace := false;
     dot_strip := false |}.

(** The state of a fresh process: default settings, empty caches. *)
Definition initial (nx : N) (sched : list nat) : state :=
  {| st_settings := default_settings; cache := ∅; asyncCache := ∅;
     next_id := nx; schedule := sched; trace := [] |}.

(** *** Template texts of the examples *)

(** A standalone page with a front-matter block. *)
Definition page_titled : string :=
  "---" ++ nl ++ "title: x" ++ nl ++ "---" ++ nl ++ "hello".


(** A partial call whose argument is another partial call. *)
Definition page_nested_call : string := "[[= partial(partial('x'), 1) ]]".

(** Two calls side by side, the second one already awaited. *)
Definition page_two_calls : string :=
  "[[= partial('a.dot') ]] [[= await partial('b.dot') ]]".

(** The child page of the test suite's two-level layout. *)
Definition page_child : string :=
  "---" ++ nl ++ "layout: master.dot" ++ nl ++ "---" ++ nl
  ++ "[[##section:test-child#]]".

(** The model [{}] of the examples. *)
Definition empty_model : value := VObj 1 [].

(** A page that reads a field of the model. *)
Definition files_page : list (string * string) :=
  [("views/page.dot", "hello [[= model.name ]]")].

Definition cached_model : value :=
  VObj 1 [("cache", VBool true); ("name", VStr "x")].

Definition plain_model : value := VObj 1 [("name", VStr "x")].

(** A page that reads a field of a missing object. *)
Definition files_broken : list (string * string) :=
  [("views/broken.dot", "[[= model.user.name ]]")].

(** A page that includes a first partial with extra data and a second
    one without, and the two partials. *)
Definition files_partials : list (string * string) :=
  [("views/child.dot",
    "[[=partial('a.dot', { media: 'x' })]] [[=partial('b.dot')]]");
   ("views/a.dot", "A");
   ("views/b.dot", "[[=model.media]]")].

(** The test suite's two-level layout. *)
Definition files_layout : list (string * string) :=
  [("views/master.dot", "test-master [[= layout.section ]]");
   ("views/child.dot",
    "---" ++ nl ++ "layout: master.dot" ++ nl ++ "---" ++ nl
    ++ "[[##section:test-child#]]")].

(** The same child under a master whose own front matter has the key
    [section]. *)
Definition files_layout_shadowed : list (string * string) :=
  [("views/master.dot",
    "---" ++ nl ++ "section: from-master" ++ nl ++ "---" ++ nl
    ++ "test-master [[= layout.section ]]");
   ("views/child.dot",
    "---" ++ nl ++ "layout: master.dot" ++ nl ++ "---" ++ nl
    ++ "[[##section:test-child#]]")].

(** A template with one shortcut, [title], bound to the entry [title]
    of the locals. *)
Definition template_with_shortcut : Template :=
  {| options := {| express := VObj 0 [("cache", VBool false)];
                   config := VObj 2 [];
                   sections := [("body", VStr "hello")]; dirname := "views";
                   filename := "views/page.dot" |};
     isAsync := false; isLayout := false; master := None;
     templates := [("body", fun _ => Return "hello")];
     varname := "layout, partial, locals, model, title";
     strip := false; viewData := [];
     shortcuts := [("title", VStr "title")] |}.

(** A model whose locals have an empty title. *)
Definition model_empty_title : value :=
  VObj 1 [("_locals", VObj 3 [("title", VStr "")])].

(** The options of a render under an application with one view
    shortcut, [title], bound to the entry [title] of the locals. *)
Definition model_with_shortcut : value :=
  VObj 1 [("settings", VObj 2 [("view shortcut", VObj 3 [("title", VStr "title")])]);
          ("_locals", VObj 4 [("title", VStr "Home")]);
          ("name", VStr "x")].

(** A template object around a front-matter config, for the properties
    of [render] that only read the config. *)
Definition template_of_config (cfg : value) : Template :=
  {| options := {| express := VObj 0 [("cache", VBool false)]; config := cfg;
                   sections := []; dirname := "views";
                   filename := "views/page.dot" |};
     isAsync := false; isLayout := truthy (get cfg "layout"); master := None;
     templates := []; varname := "layout, partial, locals, model";
     strip := false; viewData := []; shortcuts := [] |}.

(** A caller layout and a config that both have an object under
    [meta]. *)
Definition layout_with_meta : value :=
  VObj 2 [("meta", VObj 3 [("a", VNum 1)]); ("title", VStr "from-child")].
Definition config_with_meta : value :=
  VObj 4 [("meta", VObj 5 [("b", VNum 2)]); ("lang", VStr "en")].

End Fixture.

(** ** The callback form of the pipeline

    [render(filename, options, callback)] and the functions it calls,
    when they are given a node-style callback.  A callback is a
    continuation that receives the error or the value it is called with
    ([callback(err)] / [callback(null, value)]).  The body of a
    file-system callback runs in a later turn of the event loop: an
    exception it raises is caught by nobody and is the outcome
    [Uncaught].  A custom loader is taken to call the callback it is
    given with an error or with a text. *)

Module Callback.
Import Js Engine.
Local Open Scope engine_scope.

(** How a call in callback form ends: the caller's callback has been
    called, or an exception has escaped from a later turn. *)
Inductive delivery : Type :=
| Called (r : error + string)
| Uncaught (e : error).

(** The body of a callback that the file system calls in a later turn. *)
Definition later (m : M delivery) : M delivery :=
  fun st =>
    match m st with
    | (st', Thrown e) => (st', Returned (Uncaught e))
    | r => r
    end.

Section CallbackPipeline.
Variable W : world.

(** A custom [getTemplate] function called with a callback, by its
    identity. *)
Variable loader_cb :
  N -> string -> value -> (error + value -> M delivery) -> M delivery.

(** *** [getTemplateContentFromFile(filename, options, callback)] *)
Definition getTemplateContentFromFile_cb (file : string)
    (callback : error + string -> M delivery) : M delivery :=
  later
    (match read_file W file with
     | inl _ =>
         callback (inl (Error ("Failed to open view file (" ++ file ++ ")")))
     | inr str =>
         try_catch (callback (inr str)) (fun err => callback (inl err))
     end).

(** *** [buildTemplate(filename, options, callback)]; [done] builds the
    template from the text it is given, [undefined] when it is called
    with an error, before it calls [callback]. *)
Definition buildTemplate_cb (file : string) (opts : value)
    (callback : error + Template -> M delivery) : M delivery :=
  let* getter := member "options.getTemplate" opts "getTemplate" in
  let done := fun r : error + value =>
    match r with
    | inl err =>
        let* _ := builtTemplateFromString W VUndef file opts in
        callback (inl err)
    | inr templateText =>
        let* t := builtTemplateFromString W templateText file opts in
        callback (inr t)
    end in
  match getter with
  | VFun f => loader_cb f file opts done
  | _ =>
      getTemplateContentFromFile_cb file
        (fun r => match r with
                  | inl err => done (inl err)
                  | inr str => done (inr (VStr str))
                  end)
  end.

(** *** [getTemplate(filename, options, callback)] *)
Definition getTemplate_cb (file : string) (opts : value)
    (callback : error + Template -> M delivery) : M delivery :=
  let* c := member "options.cache" opts "cache" in
  let cacheTemplate := truthy c in
  let* fromCache := if cacheTemplate then cache_get false file else ret None in
  match fromCache with
  | Some t => callback (inr t)
  | None =>
      buildTemplate_cb file opts
        (fun r =>
           match r with
           | inl err => callback (inl err)
           | inr t =>
               let* _ := if cacheTemplate then cache_set false file t
                         else ret tt in
               callback (inr t)
           end)
  end.

(** *** [Template.prototype.render(options, callback)]: the sections are
    rendered as without callback; the error of a section is passed to
    the callback; the master is obtained in callback form. *)
Fixpoint Template_render_cb (fuel : nat) (t : Template) (ro : render_options)
    (callback : error + string -> M delivery) : M delivery :=
  match fuel with
  | O => no_fuel
  | S n =>
      let* r := settle (render_all_sections W (Template_render W n) t ro) in
      match r with
      | inl error => callback (inl error)
      | inr lm =>
          if negb (isLayout t) then
            let* result := final_result ro lm in
            callback (inr result)
          else
            let* mp := master_path t in
            getTemplate_cb mp (express (options t))
              (fun r =>
                 match r with
                 | inl err => callback (inl err)
                 | inr masterTemplate =>
                     Template_render_cb n masterTemplate
                       {| layout := lm; model := model ro; isPartial := false |}
                       callback
                 end)
      end
  end.

(** The caller's callback. *)
Definition deliver (r : error + string) : M delivery := ret (Called r).

(** *** [render(filename, options, callback)], i.e. [__express] *)
Definition render_cb (fuel : nat) (file : string) (opts : value)
    (callback : error + string -> M delivery) : M delivery :=
  getTemplate_cb file opts
    (fun r =>
       match r with
       | inl err => callback (inl err)
       | inr template => Template_render_cb fuel template (top_options opts) callback
       end).

(** *** [renderString(templateString, options, callback)] *)
Definition renderString_cb (fuel : nat) (templateString : string)
    (opts : value) (callback : error + string -> M delivery) : M delivery :=
  let* template := builtTemplateFromString W (VStr templateString) "" opts in
  Template_render_cb fuel template (top_options opts) callback.

End CallbackPipeline.

(** A custom loader that calls back at once with what the loader of the
    world returns. *)
Definition loader_of (W : world) (f : N) (file : string) (opts : value)
    (done : error + value -> M delivery) : M delivery :=
  done (call_loader W f file opts).

End Callback.

(** ** Vocabulary of the properties *)

Module Spec.
Import Text Settings Js Engine Callback.


(** The section texts the parser starts from: the whole text under the
    name [body] when the layout is not set, the named definitions
    otherwise. *)
Definition section_bodies (layout_set : bool) (str : string)
  : list (string * string) :=
  if layout_set then scan_defines 0 str else [("body", str)].

(** The sections object built from the texts, each one passed through
    [rewrite] and assigned under its name. *)
Definition sections_of (rewrite : string -> string)
    (bodies : list (string * string)) : props :=
  fold_left (fun acc cv => put (fst cv) (VStr (rewrite (snd cv))) acc) bodies [].

(** A call of the form [partial(...)] starts here: the word [partial],
    optional white space, and a parenthesised argument text up to the
    first closing parenthesis. *)
Definition call_here (before s : string) : bool :=
  word_boundary before && String.prefix "partial" s &&
  match snd (span is_space (drop 7 s)) with
  | String "("%char s2 =>
      match find_sub ")" s2 with Some _ => true | None => false end
  | _ => false
  end.

(** The call is already preceded by the suspension keyword and white
    space. *)
Definition already_awaited (before : string) : bool :=
  negb (not_after_await before).

(** The rewriting as the rule words it: the suspension keyword in front
    of every call that is not already preceded by it, at whatever
    position the call starts. *)
Fixpoint await_every (before s : string) : string :=
  match s with
  | EmptyString => EmptyString
  | String c s' =>
      if call_here before s && negb (already_awaited before)
      then "await " ++ String c (await_every (String c before) s')
      else String c (await_every (String c before) s')
  end.

(** No call to be rewritten starts within the next [k] characters. *)
Fixpoint quiet (before : string) (k : nat) (s : string) : bool :=
  match k, s with
  | S k', String c s' =>
      match match_partial before s with
      | Some _ => false
      | None => quiet (String c before) k' s'
      end
  | _, _ => true
  end.

(** No call to be rewritten starts inside the text of another one. *)
Fixpoint nested_free (before s : string) : bool :=
  match s with
  | EmptyString => true
  | String c s' =>
      match match_partial before s with
      | Some len => quiet (String c before) (len - 1) s'
      | None => true
      end && nested_free (String c before) s'
  end.

(** A triple for the computations of the engine: started in any state,
    [m] ends in a state related to it by [R], and what it returns
    satisfies [Q]. *)
Definition ensures {A : Type} (R : state -> state -> Prop) (Q : A -> Prop)
    (m : M A) : Prop :=
  forall st st' r,
    m st = (st', r) ->
    R st st' /\ match r with Returned a => Q a | _ => True end.

Definition any {A : Type} : A -> Prop := fun _ => True.

(** What holds of a template built from the options [opts] in the mode
    [async]: it has that mode, and its own options carry the cache flag
    of [opts]. *)
Definition built_from (opts : value) (async : bool) (t : Template) : Prop :=
  isAsync t = async
  /\ get (express (options t)) "cache" = or_else (get opts "cache") (VBool false).

Definition is_cache_event (e : event) : bool :=
  match e with
  | CacheGet _ _ | CacheSet _ _ => true
  | _ => false
  end.

(** The reads and writes of the two stores recorded in a trace. *)
Definition cache_events (tr : list event) : list event :=
  filter (fun e => is_cache_event e = true) tr.

(** The two stores hold templates of their own mode only. *)
Definition cache_typed (st : state) : Prop :=
  (forall key t, cache st !! key = Some t -> isAsync t = false)
  /\ (forall key t, asyncCache st !! key = Some t -> isAsync t = true).

(** A step of the process keeps the stores typed. *)
Definition keeps_typed (st st' : state) : Prop :=
  cache_typed st -> cache_typed st'.

(** The template was built from options that do not ask for caching. *)
Definition cache_off (t : Template) : Prop :=
  truthy (get (express (options t)) "cache") = false.

(** The operations a host performs on the engine: a render in one of
    its forms (without callback, with a callback, async), or clearing a
    store.  In the forms with a callback the host's callback takes note
    of what it is called with, and a custom loader calls back at once. *)
Inductive op : Type :=
| OpRender (file : string) (opts : value)
| OpRenderCb (file : string) (opts : value)
| OpRenderAsync (file : string) (opts : value)
| OpRenderString (text : string) (opts : value)
| OpRenderStringCb (text : string) (opts : value)
| OpRenderStringAsync (text : string) (opts : value)
| OpClear (async : bool).

(** The options of a render operation. *)
Definition op_options (o : op) : option value :=
  match o with
  | OpRender _ opts | OpRenderCb _ opts | OpRenderAsync _ opts
  | OpRenderString _ opts | OpRenderStringCb _ opts
  | OpRenderStringAsync _ opts => Some opts
  | OpClear _ => None
  end.

(** The state after an operation, whatever its outcome. *)
Definition run_op (W : world) (fuel : nat) (o : op) (st : state) : state :=
  match o with
  | OpRender file opts => fst (render W fuel file opts st)
  | OpRenderCb file opts =>
      fst (render_cb W (loader_of W) fuel file opts deliver st)
  | OpRenderAsync file opts => fst (renderAsync W fuel file opts st)
  | OpRenderString text opts => fst (renderString W fuel text opts st)
  | OpRenderStringCb text opts =>
      fst (renderString_cb W (loader_of W) fuel text opts deliver st)
  | OpRenderStringAsync text opts => fst (renderStringAsync W fuel text opts st)
  | OpClear async => fst (cache_clear async st)
  end.

Definition run_ops (W : world) (ops : list (nat * op)) (st : state) : state :=
  fold_left (fun s fo => run_op W (fst fo) (snd fo) s) ops st.

(** The stores are left alone: same contents, no read or write
    recorded. *)
Definition stores_untouched (st st' : state) : Prop :=
  cache st' = cache st /\ asyncCache st' = asyncCache st
  /\ cache_events (trace st') = cache_events (trace st).

(** The argument lists with which the sections of [file] were invoked,
    oldest first. *)
Fixpoint invocations (file : string) (tr : list event) : list (list value) :=
  match tr with
  | [] => []
  | Invoke f _ args :: rest =>
      if String.eqb f file then (invocations file rest ++ [args])%list
      else invocations file rest
  | _ :: rest => invocations file rest
  end.

(** No value of the list is the same (SameValueZero) as a later one. *)
Fixpoint distinct (xs : list value) : bool :=
  match xs with
  | [] => true
  | x :: rest => negb (existsb (same_value_zero x) rest) && distinct rest
  end.

(** The argument list as [renderAsync] builds it, before [_.union]: a
    shortcut value is the entry when that is truthy, [null] otherwise. *)
Definition built_args (t : Template) (layoutModel : value)
    (ro : render_options) (helper empty : N) : list value :=
  let loc := get (model ro) "_locals" in
  ([layoutModel; VFun helper;
    (if truthy loc then loc else VObj empty []); model ro]
   ++ viewData t
   ++ map (fun kv => or_else (get loc (to_string (snd kv))) VNull)
          (shortcuts t))%list.

(** The run [p] of a section function returns [out], its calls of the
    helper having been answered by [answers]: for every call, what the
    helper delivered and the layout model as it was when the function
    went on. *)
Inductive returns_with
  : prog -> list ((error + string) * value) -> string -> Prop :=
| RW_return (out : string) : returns_with (Return out) [] out
| RW_call (path : string) (extra : list value)
    (k : error + string -> value -> prog) (r : error + string) (lm : value)
    (answers : list ((error + string) * value)) (out : string) :
    returns_with (k r lm) answers out ->
    returns_with (CallPartial path extra k) ((r, lm) :: answers) out.

(** The trace of [st'] is the trace of [st] with later events on top. *)
Definition grows (st st' : state) : Prop :=
  exists later, trace st' = (later ++ trace st)%list.

(** A layout model: an object whose keys are pairwise different. *)
Definition well_formed (v : value) : Prop :=
  exists i o, v = VObj i o /\ NoDup (map fst o).

(** The value a run returned, [d] when it did not return. *)
Definition returned {A : Type} (d : A) (r : state * result A) : A :=
  match snd r with
  | Returned a => a
  | _ => d
  end.

(** What an awaited call delivers, when it delivers a value. *)
Definition delivered {A : Type} (Q : A -> Prop) : error + A -> Prop :=
  fun r => match r with inr a => Q a | inl _ => True end.

End Spec.

(** ** Vocabulary of the further properties *)

Module Props.
Import Text Settings Js Engine Spec Callback.

(** The body of the last definition of [name] in a list of
    definitions. *)
Fixpoint last_body (name : string) (bodies : list (string * string))
  : option string :=
  match bodies with
  | [] => None
  | (n, b) :: rest =>
      match last_body name rest with
      | Some x => Some x
      | None => if String.eqb name n then Some b else None
      end
  end.

(** [s'] is [s] with the keyword [await] and a space put in front of
    some of the places where the word [partial] starts, and nothing else
    changed. *)
Inductive awaits_added : string -> string -> Prop :=
| AA_end : awaits_added "" ""
| AA_keep (c : ascii) (s s' : string) :
    awaits_added s s' -> awaits_added (String c s) (String c s')
| AA_await (c : ascii) (s s' : string) :
    String.prefix "partial" (String c s) = true ->
    awaits_added s s' ->
    awaits_added (String c s) ("await " ++ String c s').

(** The text of a definition region. *)
Definition region_text (ws1 name ws2 : string) (sep : ascii) (value : string)
  : string :=
  "[[##" ++ ws1 ++ name ++ ws2 ++ String sep (value ++ "#]]").

Definition not_hash (c : ascii) : bool := negb (c =? "#")%char.

Definition not_bracket (c : ascii) : bool := negb (c =? "[")%char.

(** A step of the process leaves both stores as they are. *)
Definition same_stores (st st' : state) : Prop :=
  cache st' = cache st /\ asyncCache st' = asyncCache st.

(** A step of the process leaves [header], [stripComment] and
    [stripWhitespace] as they are, and leaves [dot.strip] as it is or,
    when [stripWhitespace] is on, turns it on. *)
Definition settings_kept (st st' : state) : Prop :=
  header (st_settings st') = header (st_settings st)
  /\ stripComment (st_settings st') = stripComment (st_settings st)
  /\ stripWhitespace (st_settings st') = stripWhitespace (st_settings st)
  /\ (dot_strip (st_settings st') = dot_strip (st_settings st)
      \/ (stripWhitespace (st_settings st) = true
          /\ dot_strip (st_settings st') = true)).




End Props.

(** ** Facts about the text utilities *)

Module TextFacts.
Import Text.

Lemma prefix_nil (s : string) : String.prefix "" s = true.
Proof. destruct s; reflexivity. Qed.

Lemma prefix_cons (c d : ascii) (p s : string) :
  String.prefix (String c p) (String d s)
  = if ascii_dec c d then String.prefix p s else false.
Proof. reflexivity. Qed.

Lemma append_nil (b : string) : "" ++ b = b.
Proof. reflexivity. Qed.

Lemma append_cons (c : ascii) (a b : string) :
  String c a ++ b = String c (a ++ b).
Proof. reflexivity. Qed.

Lemma prefix_app (p s : string) :
  String.prefix p s = true -> s = p ++ drop (String.length p) s.
Proof.
  revert s. induction p as [|c p IH]; intros s H; [reflexivity|].
  destruct s as [|d s]; [discriminate|].
  rewrite prefix_cons in H.
  destruct (ascii_dec c d) as [->|Hne]; [|discriminate].
  rewrite append_cons. simpl. f_equal. apply IH. exact H.
Qed.

Lemma find_sub_app (pat s a b : string) :
  find_sub pat s = Some (a, b) -> s = a ++ pat ++ b.
Proof.
  revert a b. induction s as [|c s IH]; intros a b H.
  - cbn [find_sub] in H. destruct (String.prefix pat "") eqn:Hp.
    + injection H as <- <-. rewrite append_nil. apply prefix_app. exact Hp.
    + discriminate.
  - cbn [find_sub] in H. destruct (String.prefix pat (String c s)) eqn:Hp.
    + injection H as <- <-. rewrite append_nil. apply prefix_app. exact Hp.
    + destruct (find_sub pat s) as [[a' b']|] eqn:Hf; [|discriminate].
      injection H as <- <-. rewrite append_cons. f_equal. apply IH. reflexivity.
Qed.

Lemma lazy_until_app (pat s a b : string) :
  lazy_until pat s = Some (a, b) -> s = a ++ pat ++ b /\ a <> "".
Proof.
  unfold lazy_until. destruct s as [|c s]; [discriminate|].
  destruct (find_sub pat s) as [[a' b']|] eqn:Hf; [|discriminate].
  intros H. injection H as <- <-. split; [|discriminate].
  rewrite append_cons. f_equal. apply find_sub_app. exact Hf.
Qed.


Lemma app_assoc_s (a b c : string) : (a ++ b) ++ c = a ++ (b ++ c).
Proof.
  induction a as [|x a IH]; [reflexivity|].
  rewrite !append_cons. f_equal. exact IH.
Qed.

Lemma prefix_self (q r : string) : String.prefix q (q ++ r) = true.
Proof.
  induction q as [|c q IH]; [apply prefix_nil|].
  rewrite append_cons, prefix_cons. destruct (ascii_dec c c); [exact IH|congruence].
Qed.

Lemma length_append (a b : string) :
  String.length (a ++ b) = String.length a + String.length b.
Proof.
  induction a as [|c a IH]; [reflexivity|].
  rewrite append_cons. cbn [String.length]. now rewrite IH.
Qed.

Lemma drop_append (a b : string) : drop (String.length a) (a ++ b) = b.
Proof.
  induction a as [|c a IH]; [reflexivity|].
  rewrite append_cons. cbn [String.length drop]. exact IH.
Qed.

(** The occurrence that [find_sub] reports is the first one. *)
Lemma find_sub_first (pat : string) :
  forall s x y a b,
    find_sub pat s = Some (x, y) -> s = a ++ pat ++ b ->
    String.length x <= String.length a.
Proof.
  induction s as [|c s IH]; intros x y a b H E; cbn [find_sub] in H.
  - destruct (String.prefix pat ""); [|discriminate].
    injection H as <- <-. cbn. lia.
  - destruct (String.prefix pat (String c s)) eqn:Hp.
    + injection H as <- <-. cbn. lia.
    + destruct (find_sub pat s) as [[x' y']|] eqn:Hf; [|discriminate].
      injection H as <- <-.
      destruct a as [|d a].
      * rewrite append_nil in E. rewrite E, prefix_self in Hp. discriminate.
      * rewrite append_cons in E. injection E as <- E.
        cbn [String.length]. apply le_n_S. now apply (IH x' y' a b).
Qed.

Lemma find_sub_none_prefix (pat : string) (s : string) :
  find_sub pat s = None -> String.prefix pat s = false.
Proof.
  destruct s as [|c s]; cbn [find_sub];
    destruct (String.prefix pat _); [discriminate|reflexivity|discriminate|reflexivity].
Qed.

Lemma find_sub_none_tail (pat : string) (c : ascii) (s : string) :
  find_sub pat (String c s) = None -> find_sub pat s = None.
Proof.
  cbn [find_sub]. destruct (String.prefix pat (String c s)); [discriminate|].
  destruct (find_sub pat s) as [[a b]|]; [discriminate|reflexivity].
Qed.

End TextFacts.

(** ** Facts about the matchers and the parser *)

Module ParserFacts.
Import Text Settings Js Engine Spec TextFacts.









Lemma sections_of_ext (f g : string -> string) (bodies : list (string * string)) :
  (forall n b, In (n, b) bodies -> f b = g b) ->
  sections_of f bodies = sections_of g bodies.
Proof.
  unfold sections_of. generalize (@nil (string * value)).
  induction bodies as [|[n b] bodies IH]; intros acc H; [reflexivity|].
  cbn [fold_left fst snd]. rewrite (H n b) by now left.
  apply IH. intros n' b' Hin. apply (H n' b'). now right.
Qed.

Lemma find_sub_complete (pat pre post : string) :
  find_sub pat (pre ++ pat ++ post) <> None.
Proof.
  assert (P : forall q r, String.prefix q (q ++ r) = true).
  { induction q as [|c q IH]; intros r; [apply prefix_nil|].
    rewrite append_cons, prefix_cons.
    destruct (ascii_dec c c); [apply IH|congruence]. }
  induction pre as [|c pre IH].
  - rewrite append_nil. destruct (pat ++ post) eqn:E; cbn [find_sub];
      rewrite <- E, P; discriminate.
  - rewrite append_cons. cbn [find_sub].
    destruct (String.prefix pat (String c (pre ++ pat ++ post))); [discriminate|].
    destruct (find_sub pat (pre ++ pat ++ post)) as [[a b]|]; [discriminate|].
    contradiction.
Qed.


Lemma run_eta {A B : Type} (r : A * B) (b : B) : snd r = b -> r = (fst r, b).
Proof. destruct r. cbn. now intros ->. Qed.

(** What a successful run of the parser returns. *)
Lemma processTemplateString_inv (W : world) (str : string) (opts : value)
    (async : bool) (st st' : state) (cfg : value) (secs : props) (ts : value) :
  processTemplateString W str opts async st = (st', Returned (cfg, secs, ts)) ->
  match match_config str with
  | Some (conf, _) => yaml_load W conf = inr cfg
  | None => cfg = VObj (next_id st) []
  end
  /\ secs = sections_of (if async then add_await else fun x => x)
              (section_bodies (truthy (get cfg "layout"))
                 (if stripComment (st_settings st) then strip_comments str
                  else str))
  /\ cache st' = cache st /\ asyncCache st' = asyncCache st
  /\ trace st' = trace st.
Proof.
  unfold processTemplateString, bind, fresh, get_settings, member, lift, ret, throw.
  cbn [next_id st_settings].
  set (cfgr := match match_config str with
               | Some (conf, _) => _ | None => _ end).
  destruct (match_config str) as [[conf rest]|] eqn:Hc; subst cfgr; cbn beta iota.
  - destruct (yaml_load W conf) as [e|c]; [discriminate|].
    cbn [st_settings].
    destruct (stripWhitespace (st_settings st));
      unfold set_dot_strip; cbn [st_settings stripComment];
      (destruct c; try discriminate);
      (destruct opts; try discriminate);
      intros H; injection H as <- <- <- _; cbn;
      repeat split; try reflexivity;
      unfold sections_of, section_bodies;
      match goal with |- context [truthy ?x] => destruct (truthy x) end;
      reflexivity.
  - cbn [st_settings].
    destruct (stripWhitespace (st_settings st));
      unfold set_dot_strip; cbn [st_settings stripComment];
      (destruct opts; try discriminate);
      intros H; injection H as <- <- <- _; cbn;
      repeat split; try reflexivity.
Qed.

(** The pattern [settings.partialAsync] matches exactly the calls that
    are not already awaited. *)
Lemma match_partial_spec (before s : string) :
  match match_partial before s with Some _ => true | None => false end
  = call_here before s && negb (already_awaited before).
Proof.
  unfold match_partial, call_here, already_awaited.
  rewrite negb_involutive.
  destruct (not_after_await before), (word_boundary before),
    (String.prefix "partial" s); cbn [andb]; try reflexivity;
    destruct (span is_space (drop 7 s)) as [ws s1]; cbn [snd];
    try (destruct s1 as [|[[] [] [] [] [] [] [] []] s2]; try reflexivity;
         destruct (find_sub ")" s2) as [[args r]|]; reflexivity).
Qed.

(** Where no call starts inside another one, replacing the
    non-overlapping matches is the same as prefixing every call. *)
Lemma add_await_from_every :
  forall (s before : string) (k : nat),
    quiet before k s = true -> nested_free before s = true ->
    add_await_from before k s = await_every before s.
Proof.
  induction s as [|c s IH]; intros before k Hq Hn; [reflexivity|].
  cbn [add_await_from await_every].
  cbn [nested_free] in Hn. apply andb_true_iff in Hn as [Hn1 Hn2].
  rewrite <- match_partial_spec.
  destruct k as [|k].
  - destruct (match_partial before (String c s)) as [len|].
    + f_equal. f_equal. apply IH; assumption.
    + f_equal. apply IH; [reflexivity|assumption].
  - cbn [quiet] in Hq.
    destruct (match_partial before (String c s)) as [len|]; [discriminate|].
    f_equal. apply IH; assumption.
Qed.

Lemma add_await_every (s : string) :
  nested_free "" s = true -> add_await s = await_every "" s.
Proof. intros H. apply add_await_from_every; [reflexivity|exact H]. Qed.

End ParserFacts.

(** ** Rules for the triples *)

Module Rules.
Import Js Engine Callback Spec.
Local Open Scope engine_scope.

Lemma bind_inv {A B} (m : M A) (f : A -> M B) (st st' : state) (b : B) :
  bind m f st = (st', Returned b) ->
  exists st1 a, m st = (st1, Returned a) /\ f a st1 = (st', Returned b).
Proof.
  unfold bind. destruct (m st) as [st1 [a|e|]]; try discriminate.
  intros H. now exists st1, a.
Qed.

Lemma ret_inv {A} (a b : A) (st st' : state) :
  ret a st = (st', Returned b) -> st' = st /\ b = a.
Proof. intros H. injection H as <- <-. now split. Qed.

Lemma member_inv (what : string) (v : value) (k : string) (st st' : state)
    (x : value) :
  member what v k st = (st', Returned x) -> st' = st /\ x = get v k.
Proof.
  unfold member. destruct v; try discriminate; apply ret_inv.
Qed.

Lemma fresh_inv (st st' : state) (i : N) :
  fresh st = (st', Returned i) ->
  i = next_id st /\ next_id st' = (next_id st + 1)%N
  /\ trace st' = trace st /\ st_settings st' = st_settings st.
Proof. intros H. injection H as <- <-. now repeat split. Qed.

Section Rules.
Context (R : state -> state -> Prop).
Hypothesis R_refl : forall st, R st st.
Hypothesis R_trans : forall a b c, R a b -> R b c -> R a c.

Lemma ensures_ret {A} (Q : A -> Prop) (a : A) : Q a -> ensures R Q (ret a).
Proof. intros Ha st st' r H. injection H as <- <-. split; [apply R_refl|exact Ha]. Qed.

Lemma ensures_throw {A} (Q : A -> Prop) (e : error) : ensures R Q (throw e).
Proof. intros st st' r H. injection H as <- <-. split; [apply R_refl|exact I]. Qed.

Lemma ensures_no_fuel {A} (Q : A -> Prop) : ensures R Q no_fuel.
Proof. intros st st' r H. injection H as <- <-. split; [apply R_refl|exact I]. Qed.

Lemma ensures_bind {A B} (Q : A -> Prop) (Q' : B -> Prop) (m : M A)
    (f : A -> M B) :
  ensures R Q m -> (forall a, Q a -> ensures R Q' (f a)) ->
  ensures R Q' (bind m f).
Proof.
  intros Hm Hf st st' r H. unfold bind in H.
  destruct (m st) as [st1 [a|e|]] eqn:E; destruct (Hm _ _ _ E) as [R1 Q1].
  - destruct (Hf a Q1 _ _ _ H) as [R2 Q2]. split; [eapply R_trans; eassumption|exact Q2].
  - injection H as <- <-. split; [exact R1|exact I].
  - injection H as <- <-. split; [exact R1|exact I].
Qed.

Lemma ensures_weaken {A} (Q Q' : A -> Prop) (m : M A) :
  ensures R Q m -> (forall a, Q a -> Q' a) -> ensures R Q' m.
Proof.
  intros Hm Hq st st' r H. destruct (Hm _ _ _ H) as [R1 Q1]. split; [exact R1|].
  destruct r; auto.
Qed.

Lemma ensures_try_catch {A} (Q : A -> Prop) (m : M A) (h : error -> M A) :
  ensures R Q m -> (forall e, ensures R Q (h e)) -> ensures R Q (try_catch m h).
Proof.
  intros Hm Hh st st' r H. unfold try_catch in H.
  destruct (m st) as [st1 [a|e|]] eqn:E; destruct (Hm _ _ _ E) as [R1 Q1].
  - injection H as <- <-. split; assumption.
  - destruct (Hh e _ _ _ H) as [R2 Q2]. split; [eapply R_trans; eassumption|exact Q2].
  - injection H as <- <-. split; [exact R1|exact I].
Qed.

Lemma ensures_settle {A} (Q : A -> Prop) (m : M A) :
  ensures R Q m -> ensures R (delivered Q) (settle m).
Proof.
  intros Hm st st' r H. unfold settle in H.
  destruct (m st) as [st1 [a|e|]] eqn:E; destruct (Hm _ _ _ E) as [R1 Q1];
    injection H as <- <-; (split; [exact R1|]); simpl; auto.
Qed.

Lemma ensures_settle_any {A} (m : M A) :
  ensures R any m -> ensures R any (settle m).
Proof.
  intros Hm. eapply ensures_weaken; [apply ensures_settle, Hm|].
  intros; exact I.
Qed.

Lemma ensures_lift {A} (Q : A -> Prop) (r : error + A) :
  delivered Q r -> ensures R Q (lift r).
Proof.
  destruct r as [e|a]; intros H; [apply ensures_throw|now apply ensures_ret].
Qed.

Lemma ensures_pure {A} (Q : A -> Prop) (m : M A) :
  (forall st, exists r, m st = (st, r) /\ match r with Returned a => Q a | _ => True end) ->
  ensures R Q m.
Proof.
  intros Hm st st' r H. destruct (Hm st) as (r' & E & Hq).
  rewrite E in H. injection H as <- <-. split; [apply R_refl|exact Hq].
Qed.

Lemma ensures_member (what : string) (v : value) (k : string) :
  ensures R any (member what v k).
Proof.
  unfold member. destruct v; try apply ensures_throw; now apply ensures_ret.
Qed.

Lemma ensures_get_settings : ensures R any get_settings.
Proof. apply ensures_pure. intros st. eexists. split; [reflexivity|exact I]. Qed.

End Rules.

(** The rendering functions keep every relation that their primitive
    steps and the two template getters keep, on the templates [Good]
    that the getters return. *)
Section Rendering.
Context (W : world) (R : state -> state -> Prop) (Good : Template -> Prop).
Hypothesis R_refl : forall st, R st st.
Hypothesis R_trans : forall a b c, R a b -> R b c -> R a c.
Hypothesis H_log : forall e, is_cache_event e = false -> ensures R any (log e).
Hypothesis H_fresh : ensures R any fresh.
Hypothesis H_ids : forall (A : Type) (f : N -> N * A), ensures R any (with_ids f).
Hypothesis H_pick : forall n, ensures R any (pick n).
Hypothesis H_get : forall t file,
  Good t -> ensures R Good (getTemplate W file (express (options t))).
Hypothesis H_getAsync : forall t file,
  Good t -> ensures R Good (getTemplateAsync W file (express (options t))).

Ltac step :=
  first
    [ apply (ensures_ret R R_refl); exact I
    | apply (ensures_throw R R_refl)
    | apply (ensures_no_fuel R R_refl)
    | apply (ensures_member R R_refl)
    | apply (ensures_get_settings R R_refl)
    | apply H_log; reflexivity | apply H_fresh | apply H_ids | apply H_pick ].

Ltac bstep x := eapply (ensures_bind R R_trans any); [ | intros x _ ].

Lemma ensures_shortcut_values (loc : value) (sc : props) :
  ensures R any (shortcut_values loc sc).
Proof.
  induction sc as [|[k path] sc IH]; cbn [shortcut_values]; [step|].
  bstep v; [step|]. bstep vs; [exact IH|]. step.
Qed.

Lemma ensures_viewModel (async : bool) (t : Template) (lm : value)
    (ro : render_options) :
  ensures R any (viewModel async t lm ro).
Proof.
  unfold viewModel, arg_candidates.
  bstep xs; [|step]. bstep helper; [step|]. bstep loc; [step|]. bstep locals.
  - destruct (truthy loc); [step|]. bstep i; step.
  - bstep scs; [|step]. destruct async; [apply ensures_shortcut_values|].
    unfold shortcut_values_unbound. destruct (shortcuts t); step.
Qed.

Lemma ensures_helper_path (t : Template) (p : string) :
  ensures R any (helper_path W t p).
Proof.
  unfold helper_path. destruct (negb _); [step|].
  bstep views; [step|]. destruct views; step.
Qed.

Lemma ensures_helper_model (m : value) (extra : list value) :
  ensures R any (helper_model m extra).
Proof. unfold helper_model. destruct extra; [step|]. bstep i; step. Qed.

Lemma ensures_final_result (ro : render_options) (lm : value) :
  ensures R any (final_result ro lm).
Proof. unfold final_result. bstep s; step. Qed.

Lemma ensures_master_path (t : Template) : ensures R any (master_path t).
Proof. unfold master_path. destruct (master t); step. Qed.

Lemma ensures_run_prog (rnd : Template -> render_options -> M string)
    (t : Template) :
  (forall t' ro, Good t' -> ensures R any (rnd t' ro)) -> Good t ->
  forall (p : prog) (lm m : value), ensures R any (run_prog W rnd t lm m p).
Proof.
  intros Hrnd Ht. induction p as [out|e|path extra k IH]; intros lm m;
    cbn [run_prog]; [step|step|].
  bstep tp; [apply (ensures_settle_any R), ensures_helper_path|].
  destruct tp as [e|tp]; [apply IH|].
  bstep m'; [apply ensures_helper_model|].
  bstep r; [|apply IH].
  apply (ensures_settle_any R).
  eapply (ensures_bind R R_trans); [apply H_get; exact Ht|].
  intros pt Hpt. now apply Hrnd.
Qed.

Lemma ensures_render_sections (rnd : Template -> render_options -> M string)
    (t : Template) (ro : render_options) :
  (forall t' ro', Good t' -> ensures R any (rnd t' ro')) -> Good t ->
  forall (fs : list (string * section_fn)) (lm : value),
    ensures R any (render_sections W rnd t ro lm fs).
Proof.
  intros Hrnd Ht. induction fs as [|[key f] fs IH]; intros lm;
    cbn [render_sections]; [step|].
  bstep out; [|bstep u; [step|apply IH]].
  apply (ensures_try_catch R R_trans); [|intros e; step].
  bstep args; [apply ensures_viewModel|]. bstep u; [step|].
  now apply ensures_run_prog.
Qed.

Lemma ensures_start_sections (t : Template) (ro : render_options) (lm : value)
    (fs : list (string * section_fn)) :
  ensures R any (start_sections t ro lm fs).
Proof.
  induction fs as [|[key f] fs IH]; cbn [start_sections]; [step|].
  bstep args; [apply (ensures_try_catch R R_trans);
               [apply ensures_viewModel|intros e; step]|].
  bstep u; [step|]. bstep ts; [exact IH|]. step.
Qed.

Lemma ensures_settle_all (rnd : Template -> render_options -> M string)
    (t : Template) :
  (forall t' ro, Good t' -> ensures R any (rnd t' ro)) -> Good t ->
  forall (fuel : nat) (pending : list task) (lm : value),
    ensures R any (settle_all W rnd fuel t lm pending).
Proof.
  intros Hrnd Ht. induction fuel as [|n IH]; intros pending lm;
    destruct pending as [|first rest]; cbn [settle_all];
    [step|step|step|].
  bstep i; [step|].
  destruct (tk_prog (nth i (first :: rest) first)) as [out|e|path extra k].
  - bstep u; [step|apply IH].
  - step.
  - bstep tp; [apply (ensures_settle_any R), ensures_helper_path|].
    destruct tp as [e|tp]; [apply IH|].
    bstep m'; [apply ensures_helper_model|].
    bstep r; [|apply IH].
    apply (ensures_settle_any R).
    eapply (ensures_bind R R_trans); [apply H_getAsync; exact Ht|].
    intros pt Hpt. now apply Hrnd.
Qed.

Lemma ensures_seed_layout (t : Template) (ro : render_options) :
  ensures R any (seed_layout t ro).
Proof. unfold seed_layout. step. Qed.

Lemma ensures_render_all_sections
    (rnd : Template -> render_options -> M string) (t : Template)
    (ro : render_options) :
  (forall t' ro', Good t' -> ensures R any (rnd t' ro')) -> Good t ->
  ensures R any (render_all_sections W rnd t ro).
Proof.
  intros Hrnd Ht. unfold render_all_sections. bstep u; [step|].
  bstep lm0; [apply ensures_seed_layout|].
  now apply ensures_render_sections.
Qed.

(** [render] keeps the relation. *)
Lemma ensures_Template_render :
  forall (fuel : nat) (t : Template) (ro : render_options),
    Good t -> ensures R any (Template_render W fuel t ro).
Proof.
  induction fuel as [|n IH]; intros t ro Ht; cbn [Template_render]; [step|].
  bstep lm.
  - unfold render_all_sections. bstep u; [step|].
    bstep lm0; [apply ensures_seed_layout|].
    apply ensures_render_sections; [exact IH|exact Ht].
  - destruct (negb (isLayout t)); [apply ensures_final_result|].
    bstep mp; [apply ensures_master_path|].
    eapply (ensures_bind R R_trans); [apply H_get; exact Ht|].
    intros mt Hmt. now apply IH.
Qed.

(** [renderAsync] keeps the relation. *)
Lemma ensures_Template_renderAsync :
  forall (fuel : nat) (t : Template) (ro : render_options),
    Good t -> ensures R any (Template_renderAsync W fuel t ro).
Proof.
  induction fuel as [|n IH]; intros t ro Ht; cbn [Template_renderAsync]; [step|].
  bstep lm.
  - unfold renderAsync_all_sections. bstep u; [step|].
    bstep lm0; [apply ensures_seed_layout|].
    bstep pending; [apply ensures_start_sections|].
    apply ensures_settle_all; [exact IH|exact Ht].
  - destruct (negb (isLayout t)); [apply ensures_final_result|].
    bstep mp; [apply ensures_master_path|].
    eapply (ensures_bind R R_trans); [apply H_getAsync; exact Ht|].
    intros mt Hmt. now apply IH.
Qed.

End Rendering.

(** The getters in callback form keep every relation that the cache
    accesses and the builder keep, when the callback does. *)
Section CallbackGetters.
Context (W : world) (R : state -> state -> Prop).
Hypothesis R_refl : forall st, R st st.
Hypothesis R_trans : forall a b c, R a b -> R b c -> R a c.

Lemma ensures_later (m : M delivery) : ensures R any m -> ensures R any (later m).
Proof.
  intros Hm st st' r H. unfold later in H.
  destruct (m st) as [s1 [d|e|]] eqn:E; destruct (Hm _ _ _ E) as [R1 _];
    injection H as <- <-; (split; [exact R1|exact I]).
Qed.

Lemma ensures_getTemplateContentFromFile_cb (file : string)
    (cb : error + string -> M delivery) :
  (forall r, ensures R any (cb r)) ->
  ensures R any (getTemplateContentFromFile_cb W file cb).
Proof.
  intros Hcb. unfold getTemplateContentFromFile_cb. apply ensures_later.
  destruct (read_file W file); [apply Hcb|].
  apply (ensures_try_catch R R_trans); [apply Hcb|intros e; apply Hcb].
Qed.

Lemma ensures_member_value (what : string) (v : value) (k : string) :
  ensures R (fun x => x = get v k) (member what v k).
Proof.
  unfold member. destruct v; try apply (ensures_throw R R_refl);
    now apply (ensures_ret R R_refl).
Qed.

Lemma ensures_buildTemplate_cb (Built : Template -> Prop) (file : string)
    (opts : value) (cb : error + Template -> M delivery) :
  (forall text, ensures R Built (builtTemplateFromString W text file opts)) ->
  (forall r, delivered Built r -> ensures R any (cb r)) ->
  ensures R any (buildTemplate_cb W (loader_of W) file opts cb).
Proof.
  intros Hb Hcb. unfold buildTemplate_cb.
  eapply (ensures_bind R R_trans any); [apply (ensures_member R R_refl)|].
  intros getter _.
  assert (Hd : forall r : error + value,
             ensures R any
               match r with
               | inl err =>
                   let* _ := builtTemplateFromString W VUndef file opts in
                   cb (inl err)
               | inr templateText =>
                   let* t := builtTemplateFromString W templateText file opts in
                   cb (inr t)
               end).
  { intros [err|text].
    - eapply (ensures_bind R R_trans); [apply Hb|].
      intros t _. now apply Hcb.
    - eapply (ensures_bind R R_trans); [apply Hb|].
      intros t Ht. now apply Hcb. }
  assert (Hf : ensures R any
                 (getTemplateContentFromFile_cb W file
                    (fun r => match r with
                              | inl err =>
                                  let* _ := builtTemplateFromString W VUndef
                                              file opts in
                                  cb (inl err)
                              | inr str =>
                                  let* t := builtTemplateFromString W (VStr str)
                                              file opts in
                                  cb (inr t)
                              end))).
  { apply ensures_getTemplateContentFromFile_cb.
    intros [err|str]; [exact (Hd (inl err))|exact (Hd (inr (VStr str)))]. }
  destruct getter; try exact Hf.
  unfold loader_of. apply Hd.
Qed.

Lemma ensures_getTemplate_cb (Good Built : Template -> Prop) (file : string)
    (opts : value) (cb : error + Template -> M delivery) :
  (forall t, Built t -> Good t) ->
  ensures R (fun o => forall t, o = Some t -> Good t)
    (if truthy (get opts "cache") then cache_get false file else ret None) ->
  (forall t, Built t ->
     ensures R any (if truthy (get opts "cache") then cache_set false file t
                    else ret tt)) ->
  (forall text, ensures R Built (builtTemplateFromString W text file opts)) ->
  (forall r, delivered Good r -> ensures R any (cb r)) ->
  ensures R any (getTemplate_cb W (loader_of W) file opts cb).
Proof.
  intros Hbg Hc Hs Hb Hcb. unfold getTemplate_cb.
  eapply (ensures_bind R R_trans); [apply ensures_member_value|].
  intros c ->.
  eapply (ensures_bind R R_trans); [exact Hc|].
  intros [t|] Ht; [apply Hcb; now apply Ht|].
  apply (ensures_buildTemplate_cb Built); [exact Hb|].
  intros [err|t] Ht'; [now apply Hcb|].
  eapply (ensures_bind R R_trans any); [now apply Hs|].
  intros _ _. apply Hcb. now apply Hbg.
Qed.

End CallbackGetters.

(** [render] in callback form keeps every relation that the rendering
    of the sections and the getter in callback form keep. *)
Section CallbackRendering.
Context (W : world) (R : state -> state -> Prop) (Good : Template -> Prop).
Hypothesis R_refl : forall st, R st st.
Hypothesis R_trans : forall a b c, R a b -> R b c -> R a c.
Hypothesis H_sections : forall n t ro,
  Good t -> ensures R any (render_all_sections W (Template_render W n) t ro).
Hypothesis H_getcb : forall t file cb,
  Good t -> (forall r, delivered Good r -> ensures R any (cb r)) ->
  ensures R any (getTemplate_cb W (loader_of W) file (express (options t)) cb).

Lemma ensures_Template_render_cb :
  forall (fuel : nat) (t : Template) (ro : render_options)
         (cb : error + string -> M delivery),
    Good t -> (forall r, ensures R any (cb r)) ->
    ensures R any (Template_render_cb W (loader_of W) fuel t ro cb).
Proof.
  induction fuel as [|n IH]; intros t ro cb Ht Hcb; cbn [Template_render_cb];
    [apply (ensures_no_fuel R R_refl)|].
  eapply (ensures_bind R R_trans any);
    [apply (ensures_settle_any R), H_sections; exact Ht|].
  intros [e|lm] _; [apply Hcb|].
  destruct (negb (isLayout t)).
  - unfold final_result.
    eapply (ensures_bind R R_trans any).
    { eapply (ensures_bind R R_trans any);
        [apply (ensures_get_settings R R_refl)|].
      intros s _. now apply (ensures_ret R R_refl). }
    intros result _. apply Hcb.
  - eapply (ensures_bind R R_trans any).
    { unfold master_path. destruct (master t);
        [now apply (ensures_ret R R_refl)|apply (ensures_throw R R_refl)]. }
    intros mp _. apply H_getcb; [exact Ht|].
    intros [err|mt] Hmt; [apply Hcb|]. now apply IH.
Qed.

End CallbackRendering.

End Rules.

(** ** Facts about objects and [_.merge] *)

Module MergeFacts.
Import Js.

Lemma lookup_replace (k k0 : string) (v : value) (o : props) :
  lookup k (replace k0 v o)
  = if String.eqb k k0 then (if has k0 o then Some v else None) else lookup k o.
Proof.
  unfold has. induction o as [|[k' v'] o IH]; cbn [replace lookup].
  - now destruct (String.eqb k k0).
  - destruct (String.eqb k0 k') eqn:E0; cbn [lookup].
    + apply String.eqb_eq in E0 as <-. now destruct (String.eqb k k0).
    + rewrite IH. destruct (String.eqb k k') eqn:E1; [|reflexivity].
      apply String.eqb_eq in E1 as <-.
      rewrite String.eqb_sym, E0. reflexivity.
Qed.

Lemma lookup_insert_index (i : N) (k k0 : string) (v : value) (o : props) :
  lookup k0 o = None ->
  lookup k (insert_index i k0 v o)
  = if String.eqb k k0 then Some v else lookup k o.
Proof.
  induction o as [|[k' v'] o IH]; cbn [insert_index lookup]; intros Hn.
  - reflexivity.
  - destruct (String.eqb k0 k') eqn:E0; [discriminate|].
    assert (Hk : String.eqb k k0 = true -> String.eqb k k' = false).
    { intros E. apply String.eqb_eq in E as ->. exact E0. }
    destruct (array_index k') as [j|]; [destruct (j <? i)%N|]; cbn [lookup];
      try rewrite (IH Hn);
      destruct (String.eqb k k0) eqn:E; try reflexivity;
      rewrite (Hk eq_refl); reflexivity.
Qed.

Lemma lookup_app_new (k k0 : string) (v : value) (o : props) :
  lookup k (o ++ [(k0, v)])
  = match lookup k o with
    | Some x => Some x
    | None => if String.eqb k k0 then Some v else None
    end.
Proof.
  induction o as [|[k' v'] o IH]; cbn [app lookup]; [reflexivity|].
  destruct (String.eqb k k'); [reflexivity|exact IH].
Qed.

(** Reading after writing. *)
Lemma lookup_set (k k0 : string) (v : value) (o : props) :
  lookup k (set k0 v o) = if String.eqb k k0 then Some v else lookup k o.
Proof.
  unfold set. destruct (has k0 o) eqn:Hh.
  - rewrite lookup_replace, Hh. reflexivity.
  - assert (Hn : lookup k0 o = None).
    { unfold has in Hh. now destruct (lookup k0 o). }
    destruct (array_index k0) as [i|].
    + now apply lookup_insert_index.
    + rewrite lookup_app_new. destruct (String.eqb k k0) eqn:E.
      * apply String.eqb_eq in E as ->. now rewrite Hn.
      * now destruct (lookup k o).
Qed.

Lemma lookup_assign_merge_value_other (k k0 : string) (v : value) (o : props) :
  String.eqb k k0 = false ->
  lookup k (assign_merge_value k0 v o) = lookup k o.
Proof.
  intros E. unfold assign_merge_value.
  destruct v; try (rewrite lookup_set, E; reflexivity).
  destruct (has k0 o); [reflexivity|]. rewrite lookup_set, E. reflexivity.
Qed.

Lemma base_merge_cons (arr : bool) (nx : N) (dst : props) (i : N)
    (k : string) (sv : value) (ps : props) :
  base_merge nx dst (container arr i ((k, sv) :: ps))
  = let '(nx', dst') := merge_key nx dst k sv in
    base_merge nx' dst' (container arr i ps).
Proof.
  destruct arr; cbn [container]; (destruct sv; try reflexivity);
    cbn [base_merge merge_key];
    (destruct (String.eqb k "__proto__"); [reflexivity|]);
    (destruct (merge_target _ (lookup k dst)) as [[[a oid] op]|]);
    match goal with
    | |- context [let '(_, _) := ?m in _] => destruct m; reflexivity
    end.
Qed.

Lemma merge_key_container (nx : N) (dst : props) (k : string) (sv : value) :
  is_container sv = true -> String.eqb k "__proto__" = false ->
  merge_key nx dst k sv
  = (fst (merge_into nx sv (lookup k dst)),
     set k (snd (merge_into nx sv (lookup k dst))) dst).
Proof.
  intros H Hk. unfold merge_key, merge_into. rewrite Hk.
  destruct sv; try discriminate;
    (destruct (merge_target _ (lookup k dst)) as [[[a oid] op]|]);
    match goal with
    | |- context [let '(_, _) := ?m in _] => destruct m; reflexivity
    end.
Qed.

Lemma merge_key_hidden (nx : N) (dst : props) (k : string) (sv : value) :
  is_container sv = true -> String.eqb k "__proto__" = true ->
  merge_key nx dst k sv = (nx, dst).
Proof.
  intros H Hk. unfold merge_key. rewrite Hk.
  destruct sv; try discriminate; reflexivity.
Qed.

Lemma merge_key_scalar (nx : N) (dst : props) (k : string) (sv : value) :
  is_container sv = false ->
  merge_key nx dst k sv = (nx, assign_merge_value k sv dst).
Proof. intros H. destruct sv; try discriminate; reflexivity. Qed.

(** A merge step leaves the other keys alone. *)
Lemma merge_key_other (nx : N) (dst : props) (k k0 : string) (sv : value) :
  String.eqb k k0 = false ->
  lookup k (snd (merge_key nx dst k0 sv)) = lookup k dst.
Proof.
  intros E. destruct (is_container sv) eqn:C.
  - destruct (String.eqb k0 "__proto__") eqn:P.
    + now rewrite (merge_key_hidden _ _ _ _ C P).
    + rewrite (merge_key_container _ _ _ _ C P). cbn [snd].
      rewrite lookup_set, E. reflexivity.
  - rewrite (merge_key_scalar _ _ _ _ C). cbn [snd].
    now apply lookup_assign_merge_value_other.
Qed.

(** A source value that is neither a plain object, an array nor
    [undefined] replaces the destination's. *)
Lemma merge_key_assigned (nx : N) (dst : props) (k : string) (sv : value) :
  is_container sv = false -> sv <> VUndef ->
  lookup k (snd (merge_key nx dst k sv)) = Some sv.
Proof.
  intros Ho Hu. destruct sv; try discriminate; try contradiction;
    cbn [merge_key snd assign_merge_value];
    rewrite lookup_set, String.eqb_refl; reflexivity.
Qed.

(** A plain object or an array is merged with the destination's value. *)
Lemma merge_key_merged (nx : N) (dst : props) (k : string) (sv : value) :
  is_container sv = true -> String.eqb k "__proto__" = false ->
  lookup k (snd (merge_key nx dst k sv))
  = Some (snd (merge_into nx sv (lookup k dst))).
Proof.
  intros H Hk. rewrite (merge_key_container _ _ _ _ H Hk). cbn [snd].
  rewrite lookup_set, String.eqb_refl. reflexivity.
Qed.

(** [undefined] is assigned to a missing key only. *)
Lemma merge_key_undefined (nx : N) (dst : props) (k : string) :
  lookup k (snd (merge_key nx dst k VUndef))
  = match lookup k dst with Some d => Some d | None => Some VUndef end.
Proof.
  cbn [merge_key snd assign_merge_value]. unfold has.
  destruct (lookup k dst) as [d|] eqn:E; [exact E|].
  rewrite lookup_set, String.eqb_refl. reflexivity.
Qed.

Lemma lookup_not_key (k : string) (ps : props) :
  k ∉ map fst ps -> lookup k ps = None.
Proof.
  induction ps as [|[a b] ps IH]; intros H; [reflexivity|].
  cbn [map fst] in H. apply not_elem_of_cons in H as [Hne H].
  cbn [lookup]. destruct (String.eqb k a) eqn:E; [|now apply IH].
  apply String.eqb_eq in E. contradiction.
Qed.

(** One merge step, at its own key. *)
Lemma merge_key_value (nx : N) (dst : props) (k : string) (sv : value) :
  lookup k (snd (merge_key nx dst k sv)) = merge_value nx k sv (lookup k dst).
Proof.
  unfold merge_value. destruct (is_container sv) eqn:C.
  - destruct (String.eqb k "__proto__") eqn:P.
    + now rewrite (merge_key_hidden _ _ _ _ C P).
    + now apply merge_key_merged.
  - destruct sv; try discriminate;
      try (rewrite merge_key_assigned; [now destruct (lookup k dst)
                                       |reflexivity|discriminate]).
    rewrite merge_key_undefined. now destruct (lookup k dst).
Qed.

(** The law of [base_merge], key by key: a key that the source does not
    have is left alone; under a key that it has, the source's value is
    merged onto the destination's. *)
Lemma base_merge_value (arr : bool) (i : N) (k : string) :
  forall (ps : props) (nx : N) (dst : props),
    NoDup (map fst ps) ->
    exists nx',
      lookup k (snd (base_merge nx dst (container arr i ps)))
      = match lookup k ps with
        | None => lookup k dst
        | Some sv => merge_value nx' k sv (lookup k dst)
        end.
Proof.
  induction ps as [|[k0 sv0] ps IH]; intros nx dst Hnd.
  { exists nx. destruct arr; reflexivity. }
  rewrite base_merge_cons. cbn [map fst] in Hnd.
  apply NoDup_cons in Hnd as [Hnotin Hnd'].
  destruct (merge_key nx dst k0 sv0) as [nx1 dst1] eqn:Hm.
  assert (Hdst : dst1 = snd (merge_key nx dst k0 sv0)) by now rewrite Hm.
  destruct (IH nx1 dst1 Hnd') as [nx' E].
  cbn [lookup]. destruct (String.eqb k k0) eqn:Ek.
  - apply String.eqb_eq in Ek as ->.
    rewrite (lookup_not_key _ _ Hnotin) in E.
    exists nx. rewrite E, Hdst. apply merge_key_value.
  - assert (Hk : lookup k dst1 = lookup k dst)
      by (rewrite Hdst; now apply merge_key_other).
    exists nx'. rewrite E, Hk. reflexivity.
Qed.

(** The object or array that [merge_into] makes of the source [sv]
    follows the same law one level down. *)
Lemma merge_into_value (nx : N) (sv : value) (dv : option value) (k : string) :
  is_container sv = true -> NoDup (map fst (own_props sv)) ->
  exists nx',
    lookup k (own_props (snd (merge_into nx sv dv)))
    = match lookup k (own_props sv) with
      | None => lookup k (target_props sv dv)
      | Some x => merge_value nx' k x (lookup k (target_props sv dv))
      end.
Proof.
  intros Hc Hnd. unfold merge_into, target_props.
  destruct (merge_target sv dv) as [[[a oid] op]|].
  - destruct sv as [| | | | |i ps|i ps|]; try discriminate; cbn [own_props] in *.
    + destruct (base_merge_value false i k ps nx op Hnd) as [nx' E].
      cbn [container] in E. exists nx'.
      destruct (base_merge nx op (VObj i ps)) as [nx1 merged].
      cbn [snd] in *. now destruct a.
    + destruct (base_merge_value true i k ps nx op Hnd) as [nx' E].
      cbn [container] in E. exists nx'.
      destruct (base_merge nx op (VArr i ps)) as [nx1 merged].
      cbn [snd] in *. now destruct a.
  - destruct sv as [| | | | |i ps|i ps|]; try discriminate; cbn [own_props] in *.
    + destruct (base_merge_value false i k ps (nx + 1)
                  (merge_start (VObj i ps) dv) Hnd) as [nx' E].
      cbn [container] in E. exists nx'.
      destruct (base_merge (nx + 1) (merge_start (VObj i ps) dv) (VObj i ps))
        as [nx1 merged].
      cbn [snd is_array container own_props] in *. exact E.
    + destruct (base_merge_value true i k ps (nx + 1)
                  (merge_start (VArr i ps) dv) Hnd) as [nx' E].
      cbn [container] in E. exists nx'.
      destruct (base_merge (nx + 1) (merge_start (VArr i ps) dv) (VArr i ps))
        as [nx1 merged].
      cbn [snd is_array container own_props] in *. exact E.
Qed.

(** *** The keys of an object stay pairwise different *)

Lemma map_fst_replace (k : string) (v : value) (o : props) :
  map fst (replace k v o) = map fst o.
Proof.
  induction o as [|[k' v'] o IH]; cbn [replace map fst]; [reflexivity|].
  destruct (String.eqb k k'); cbn [map fst]; [reflexivity|now rewrite IH].
Qed.

Lemma lookup_None_not_key (k : string) (o : props) :
  lookup k o = None -> k ∉ map fst o.
Proof.
  induction o as [|[k' v'] o IH]; cbn [lookup map fst]; intros H.
  - apply not_elem_of_nil.
  - destruct (String.eqb k k') eqn:E; [discriminate|].
    apply not_elem_of_cons. split; [|now apply IH].
    intros ->. now rewrite String.eqb_refl in E.
Qed.

Lemma keys_insert_index (i : N) (k : string) (v : value) (o : props) (x : string) :
  x ∈ map fst (insert_index i k v o) <-> x = k \/ x ∈ map fst o.
Proof.
  induction o as [|[k' v'] o IH]; cbn [insert_index map fst].
  - rewrite elem_of_cons. tauto.
  - destruct (array_index k') as [j|]; [destruct (j <? i)%N|]; cbn [map fst];
      rewrite ?elem_of_cons; try rewrite IH; cbn [map fst];
      rewrite ?elem_of_cons; tauto.
Qed.

Lemma NoDup_insert_index (i : N) (k : string) (v : value) (o : props) :
  k ∉ map fst o -> NoDup (map fst o) -> NoDup (map fst (insert_index i k v o)).
Proof.
  induction o as [|[k' v'] o IH]; cbn [insert_index map fst]; intros Hk Hn.
  - apply NoDup_singleton.
  - apply not_elem_of_cons in Hk as [Hne Hk].
    apply NoDup_cons in Hn as [Hk' Hn].
    assert (G : NoDup (k :: k' :: map fst o)).
    { apply NoDup_cons. split; [|now apply NoDup_cons].
      apply not_elem_of_cons. now split. }
    destruct (array_index k') as [j|]; [destruct (j <? i)%N|]; cbn [map fst];
      try exact G.
    apply NoDup_cons. split; [|now apply IH].
    rewrite keys_insert_index. intros [->|H]; [now apply Hne|now apply Hk'].
Qed.

Lemma NoDup_set (k : string) (v : value) (o : props) :
  NoDup (map fst o) -> NoDup (map fst (set k v o)).
Proof.
  intros Hn. unfold set. unfold has.
  destruct (lookup k o) eqn:Hl.
  - now rewrite map_fst_replace.
  - apply lookup_None_not_key in Hl.
    destruct (array_index k) as [i|]; [now apply NoDup_insert_index|].
    rewrite map_app. cbn [map fst]. apply NoDup_app. split; [exact Hn|].
    split; [|apply NoDup_singleton].
    intros x Hx Hx'. apply list_elem_of_singleton in Hx' as ->. now apply Hl.
Qed.

Lemma NoDup_assign_merge_value (k : string) (v : value) (o : props) :
  NoDup (map fst o) -> NoDup (map fst (assign_merge_value k v o)).
Proof.
  intros Hn. unfold assign_merge_value.
  destruct v; try now apply NoDup_set.
  destruct (has k o); [exact Hn|now apply NoDup_set].
Qed.

Lemma NoDup_merge_key (nx : N) (dst : props) (k : string) (sv : value) :
  NoDup (map fst dst) -> NoDup (map fst (snd (merge_key nx dst k sv))).
Proof.
  intros Hn. destruct (is_container sv) eqn:C.
  - destruct (String.eqb k "__proto__") eqn:P.
    + now rewrite (merge_key_hidden _ _ _ _ C P).
    + rewrite (merge_key_container _ _ _ _ C P). cbn [snd]. now apply NoDup_set.
  - rewrite (merge_key_scalar _ _ _ _ C). cbn [snd].
    now apply NoDup_assign_merge_value.
Qed.

Lemma NoDup_base_merge (arr : bool) (i : N) :
  forall (ps : props) (nx : N) (dst : props),
    NoDup (map fst dst) ->
    NoDup (map fst (snd (base_merge nx dst (container arr i ps)))).
Proof.
  induction ps as [|[k sv] ps IH]; intros nx dst Hn;
    [destruct arr; exact Hn|].
  rewrite base_merge_cons.
  destruct (merge_key nx dst k sv) as [nx' dst'] eqn:Hm.
  apply IH. change dst' with (snd (nx', dst')). rewrite <- Hm.
  now apply NoDup_merge_key.
Qed.

Lemma NoDup_merge1 (nx : N) (dst : props) (src : value) :
  NoDup (map fst dst) -> NoDup (map fst (snd (merge1 nx dst src))).
Proof.
  intros Hn. destruct src; try exact Hn.
  - cbn [merge1 snd]. revert dst Hn. generalize 0%N.
    induction s as [|c s IH]; intros n0 dst Hn; [exact Hn|].
    cbn [chars_from fold_left]. apply IH. now apply NoDup_assign_merge_value.
  - now apply (NoDup_base_merge false).
  - now apply (NoDup_base_merge true).
Qed.

(** The merge of [_.merge({}, a, b)] is a layout model. *)
Lemma merge_fresh_well_formed (nx : N) (a b : value) :
  Spec.well_formed (snd (merge_fresh nx a b)).
Proof.
  unfold merge_fresh.
  destruct (merge1 (nx + 1) [] a) as [nx1 d1] eqn:H1.
  destruct (merge1 nx1 d1 b) as [nx2 d2] eqn:H2.
  exists nx, d2. split; [reflexivity|].
  change d2 with (snd (nx2, d2)). rewrite <- H2. apply NoDup_merge1.
  change d1 with (snd (nx1, d1)). rewrite <- H1. apply NoDup_merge1.
  apply NoDup_nil_2.
Qed.

End MergeFacts.

(** ** Building templates *)

Module BuildFacts.
Import Js Engine Spec Rules MergeFacts.
Local Open Scope engine_scope.

Section Building.
Context (W : world) (R : state -> state -> Prop).
Hypothesis R_refl : forall st, R st st.
Hypothesis R_trans : forall a b c, R a b -> R b c -> R a c.
Hypothesis H_fresh : ensures R any fresh.
Hypothesis H_strip : forall b, ensures R any (set_dot_strip b).

Ltac step :=
  first
    [ apply (ensures_ret R R_refl); exact I
    | apply (ensures_throw R R_refl)
    | apply (ensures_member R R_refl)
    | apply (ensures_get_settings R R_refl)
    | apply H_fresh | apply H_strip ].

Ltac bstep x := eapply (ensures_bind R R_trans any); [ | intros x _ ].

Lemma ensures_processTemplateString (str : string) (opts : value) (async : bool) :
  ensures R (fun p => get (snd p) "cache" = or_else (get opts "cache") (VBool false))
    (processTemplateString W str opts async).
Proof.
  unfold processTemplateString.
  bstep cid; [step|]. bstep cfg.
  { destruct (Settings.match_config str) as [[conf rest]|]; [|step].
    apply (ensures_lift R R_refl). now destruct (yaml_load W conf). }
  bstep s; [step|]. bstep u; [destruct (stripWhitespace s); step|].
  bstep lay; [step|]. bstep tid; [step|]. bstep getter; [step|].
  apply (ensures_ret R R_refl). cbn [snd get].
  rewrite lookup_set, String.eqb_refl. reflexivity.
Qed.

Lemma ensures_compile_sections (async : bool) (vn : string) (sp : bool)
    (secs : props) :
  ensures R any (compile_sections W async vn sp secs).
Proof.
  induction secs as [|[key v] secs IH]; cbn [compile_sections]; [step|].
  bstep f.
  { destruct v; try step. apply (ensures_lift R R_refl).
    now destruct (dot_template W async vn sp s). }
  bstep fs; [exact IH|]. step.
Qed.

Lemma ensures_own_guard (secs : props) : ensures R any (own_guard secs).
Proof.
  unfold own_guard. destruct secs; [step|].
  destruct (has "hasOwnProperty" _); step.
Qed.

Lemma ensures_compile_all (t : Template) :
  ensures R (fun t' => isAsync t' = isAsync t /\ options t' = options t)
    (compile_all W t).
Proof.
  unfold compile_all. eapply (ensures_bind R R_trans any);
    [apply ensures_compile_sections|].
  intros fs _. apply (ensures_ret R R_refl). split; reflexivity.
Qed.

Lemma ensures_init (t : Template) :
  ensures R (fun t' => isAsync t' = isAsync t /\ options t' = options t)
    (init W t).
Proof.
  unfold init. bstep u; [apply ensures_own_guard|]. apply ensures_compile_all.
Qed.

Lemma ensures_new_Template (o : source_options) (async : bool) :
  ensures R (fun t => isAsync t = async /\ options t = o)
    (new_Template W o async).
Proof.
  unfold new_Template.
  bstep lay; [step|]. bstep mst.
  { destruct (truthy lay); [|step]. destruct lay; step. }
  bstep s; [step|]. destruct async.
  - apply (ensures_ret R R_refl). split; reflexivity.
  - eapply ensures_weaken; [apply ensures_init|]. intros t' H. exact H.
Qed.

Lemma ensures_as_text (v : value) : ensures R any (as_text v).
Proof. unfold as_text. destruct v; step. Qed.

Lemma ensures_builtTemplateFromString (str : value) (file : string)
    (opts : value) :
  ensures R (built_from opts false) (builtTemplateFromString W str file opts).
Proof.
  unfold builtTemplateFromString.
  apply (ensures_try_catch R R_trans); [|intros e; step].
  bstep text; [apply ensures_as_text|].
  eapply (ensures_bind R R_trans); [apply ensures_processTemplateString|].
  intros [[cfg secs] ts] Hts. cbn [snd] in Hts.
  eapply ensures_weaken; [apply ensures_new_Template|].
  intros t [Ha Ho]. split; [exact Ha|]. rewrite Ho. exact Hts.
Qed.

Lemma ensures_builtTemplateFromStringAsync (str : value) (file : string)
    (opts : value) :
  ensures R (built_from opts true) (builtTemplateFromStringAsync W str file opts).
Proof.
  unfold builtTemplateFromStringAsync.
  eapply (ensures_bind R R_trans (built_from opts true)).
  - apply (ensures_try_catch R R_trans); [|intros e; step].
    bstep text; [apply ensures_as_text|].
    eapply (ensures_bind R R_trans); [apply ensures_processTemplateString|].
    intros [[cfg secs] ts] Hts. cbn [snd] in Hts.
    eapply (ensures_bind R R_trans); [apply ensures_new_Template|].
    intros t [Ha Ho].
    eapply (ensures_bind R R_trans any); [apply ensures_own_guard|].
    intros _ _. apply (ensures_ret R R_refl).
    split; [exact Ha|]. rewrite Ho. exact Hts.
  - intros t [Ha Hc]. eapply ensures_weaken; [apply ensures_compile_all|].
    intros t' [Ha' Ho']. split; [now rewrite Ha'|now rewrite Ho'].
Qed.

Lemma ensures_template_content (file : string) (opts : value) :
  ensures R any (template_content W file opts).
Proof.
  unfold template_content. bstep getter; [step|].
  destruct getter; try (bstep txt; [apply (ensures_lift R R_refl);
                                  now destruct (read_file W file)|step]).
  apply (ensures_lift R R_refl). now destruct (call_loader W id file opts).
Qed.

Lemma ensures_buildTemplate (file : string) (opts : value) :
  ensures R (built_from opts false) (buildTemplate W file opts).
Proof.
  unfold buildTemplate. bstep text; [apply ensures_template_content|].
  apply ensures_builtTemplateFromString.
Qed.

Lemma ensures_buildTemplateAsync (file : string) (opts : value) :
  ensures R (built_from opts true) (buildTemplateAsync W file opts).
Proof.
  unfold buildTemplateAsync. bstep text; [apply ensures_template_content|].
  apply ensures_builtTemplateFromStringAsync.
Qed.

End Building.

End BuildFacts.

(** ** The cache stores *)

Module CacheFacts.
Import Js Engine Spec Rules BuildFacts.
Local Open Scope engine_scope.

(** *** The stores stay typed *)

Lemma keeps_typed_refl (st : state) : keeps_typed st st.
Proof. intros H. exact H. Qed.

Lemma keeps_typed_trans (a b c : state) :
  keeps_typed a b -> keeps_typed b c -> keeps_typed a c.
Proof. intros H1 H2 H. apply H2, H1, H. Qed.

Lemma typed_same_stores {A} (m : M A) :
  (forall st st' r, m st = (st', r) ->
     cache st' = cache st /\ asyncCache st' = asyncCache st) ->
  ensures keeps_typed any m.
Proof.
  intros Hm st st' r H. destruct (Hm _ _ _ H) as [Hc Ha]. split.
  - intros [T1 T2]. split; intros key t; [rewrite Hc|rewrite Ha]; eauto.
  - destruct r; exact I.
Qed.

Lemma typed_log (e : event) : ensures keeps_typed any (log e).
Proof. apply typed_same_stores. intros st st' r H. injection H as <- _. now split. Qed.

Lemma typed_fresh : ensures keeps_typed any fresh.
Proof. apply typed_same_stores. intros st st' r H. injection H as <- _. now split. Qed.

Lemma typed_with_ids (A : Type) (f : N -> N * A) : ensures keeps_typed any (with_ids f).
Proof.
  apply typed_same_stores. intros st st' r H. unfold with_ids in H.
  destruct (f (next_id st)). injection H as <- _. now split.
Qed.

Lemma typed_pick (n : nat) : ensures keeps_typed any (pick n).
Proof.
  apply typed_same_stores. intros st st' r H. unfold pick in H.
  destruct (schedule st); injection H as <- _; now split.
Qed.

Lemma typed_set_dot_strip (b : bool) : ensures keeps_typed any (set_dot_strip b).
Proof. apply typed_same_stores. intros st st' r H. injection H as <- _. now split. Qed.

Lemma typed_cache_get (async : bool) (key : string) :
  ensures keeps_typed any (cache_get async key).
Proof. apply typed_same_stores. intros st st' r H. injection H as <- _. now split. Qed.

Lemma typed_cache_set (async : bool) (key : string) (t : Template) :
  isAsync t = async -> ensures keeps_typed any (cache_set async key t).
Proof.
  intros Ht st st' r H. injection H as <- <-. split; [|exact I].
  intros [T1 T2].
  assert (Hins : forall (m : gmap string Template) (b : bool),
            (forall k t', m !! k = Some t' -> isAsync t' = b) -> isAsync t = b ->
            forall k t', <[key := t]> m !! k = Some t' -> isAsync t' = b).
  { intros m b Hm Hb k t'. destruct (decide (key = k)) as [->|Hne].
    - rewrite lookup_insert_eq. intros E. injection E as <-. exact Hb.
    - rewrite lookup_insert_ne by exact Hne. apply Hm. }
  destruct async; split; cbn [cache asyncCache]; try assumption.
  - apply Hins; assumption.
  - apply Hins; assumption.
Qed.

Lemma typed_getTemplate (W : world) (file : string) (opts : value) :
  ensures keeps_typed any (getTemplate W file opts).
Proof.
  unfold getTemplate.
  eapply (ensures_bind _ keeps_typed_trans any);
    [apply (ensures_member _ keeps_typed_refl)|intros c _].
  eapply (ensures_bind _ keeps_typed_trans any).
  { destruct (truthy c); [apply typed_cache_get|].
    now apply (ensures_ret _ keeps_typed_refl). }
  intros [t|] _; [now apply (ensures_ret _ keeps_typed_refl)|].
  eapply (ensures_bind _ keeps_typed_trans).
  { apply (ensures_buildTemplate W _ keeps_typed_refl keeps_typed_trans
             typed_fresh typed_set_dot_strip). }
  intros t [Ht _].
  eapply (ensures_bind _ keeps_typed_trans any).
  { destruct (truthy c); [now apply typed_cache_set|].
    now apply (ensures_ret _ keeps_typed_refl). }
  intros _ _. now apply (ensures_ret _ keeps_typed_refl).
Qed.

Lemma typed_getTemplateAsync (W : world) (file : string) (opts : value) :
  ensures keeps_typed any (getTemplateAsync W file opts).
Proof.
  unfold getTemplateAsync.
  eapply (ensures_bind _ keeps_typed_trans any).
  { destruct (truthy (get opts "cache")); [apply typed_cache_get|].
    now apply (ensures_ret _ keeps_typed_refl). }
  intros [t|] _; [now apply (ensures_ret _ keeps_typed_refl)|].
  eapply (ensures_bind _ keeps_typed_trans).
  { apply (ensures_buildTemplateAsync W _ keeps_typed_refl keeps_typed_trans
             typed_fresh typed_set_dot_strip). }
  intros t [Ht _].
  eapply (ensures_bind _ keeps_typed_trans any).
  { destruct (truthy (get opts "cache")); [now apply typed_cache_set|].
    now apply (ensures_ret _ keeps_typed_refl). }
  intros _ _. now apply (ensures_ret _ keeps_typed_refl).
Qed.

Lemma typed_Template_render (W : world) (fuel : nat) (t : Template)
    (ro : render_options) :
  ensures keeps_typed any (Template_render W fuel t ro).
Proof.
  apply (ensures_Template_render W keeps_typed any); try exact I;
    first [ exact keeps_typed_refl | exact keeps_typed_trans
          | exact typed_fresh | exact typed_with_ids | exact typed_pick
          | intros; apply typed_log | intros; apply typed_getTemplate ].
Qed.

Lemma typed_Template_renderAsync (W : world) (fuel : nat) (t : Template)
    (ro : render_options) :
  ensures keeps_typed any (Template_renderAsync W fuel t ro).
Proof.
  apply (ensures_Template_renderAsync W keeps_typed any); try exact I;
    first [ exact keeps_typed_refl | exact keeps_typed_trans
          | exact typed_fresh | exact typed_with_ids | exact typed_pick
          | intros; apply typed_log | intros; apply typed_getTemplateAsync ].
Qed.

Lemma ensures_fst {A} (R : state -> state -> Prop) (Q : A -> Prop) (m : M A)
    (st : state) :
  ensures R Q m -> R st (fst (m st)).
Proof. intros H. destruct (m st) as [st' r] eqn:E. exact (proj1 (H _ _ _ E)). Qed.

Lemma ensures_trivially {A} (m : M A) : ensures (fun _ _ => True) any m.
Proof. intros st st' r _. split; [exact I|destruct r; exact I]. Qed.

(** A template obtained from the sync getter is a sync template, one
    obtained from the async getter an async template. *)
Lemma getTemplate_mode (W : world) (file : string) (opts : value)
    (st st' : state) (t : Template) :
  cache_typed st ->
  getTemplate W file opts st = (st', Returned t) -> isAsync t = false.
Proof.
  intros [T1 _]. unfold getTemplate, bind, member.
  destruct opts; try discriminate; unfold ret;
    match goal with |- context [truthy ?c] => destruct (truthy c) end;
    unfold cache_get; cbn [cache];
    try (destruct (cache st !! file) as [t0|] eqn:Hc;
         [intros H; injection H as _ <-; now apply (T1 file)|]);
    match goal with
    | |- context [buildTemplate W file ?o ?s] =>
        destruct (buildTemplate W file o s) as [s1 [t1|e|]] eqn:Hb;
        try discriminate;
        destruct (ensures_buildTemplate W (fun _ _ => True)
                    (fun _ => I) (fun _ _ _ _ _ => I)
                    (ensures_trivially _) (fun _ => ensures_trivially _)
                    file o _ _ _ Hb) as [_ [Hm _]];
        unfold cache_set;
        intros H; injection H as _ <-; exact Hm
    end.
Qed.

Lemma getTemplateAsync_mode (W : world) (file : string) (opts : value)
    (st st' : state) (t : Template) :
  cache_typed st ->
  getTemplateAsync W file opts st = (st', Returned t) -> isAsync t = true.
Proof.
  intros [_ T2]. unfold getTemplateAsync, bind, ret.
  destruct (truthy (get opts "cache"));
    unfold cache_get; cbn [asyncCache];
    try (destruct (asyncCache st !! file) as [t0|] eqn:Hc;
         [intros H; injection H as _ <-; now apply (T2 file)|]);
    match goal with
    | |- context [buildTemplateAsync W file ?o ?s] =>
        destruct (buildTemplateAsync W file o s) as [s1 [t1|e|]] eqn:Hb;
        try discriminate;
        destruct (ensures_buildTemplateAsync W (fun _ _ => True)
                    (fun _ => I) (fun _ _ _ _ _ => I)
                    (ensures_trivially _) (fun _ => ensures_trivially _)
                    file o _ _ _ Hb) as [_ [Hm _]];
        unfold cache_set;
        intros H; injection H as _ <-; exact Hm
    end.
Qed.

Lemma bind_ext_on {A B} (m : M A) (f g : A -> M B) (st : state) :
  (forall st' a, m st = (st', Returned a) -> f a st' = g a st') ->
  bind m f st = bind m g st.
Proof.
  intros H. unfold bind. destruct (m st) as [s1 [a|e|]]; try reflexivity.
  now apply H.
Qed.

Lemma builtTemplateFromString_mode (W : world) (str : value) (file : string)
    (opts : value) (st st' : state) (t : Template) :
  builtTemplateFromString W str file opts st = (st', Returned t) ->
  isAsync t = false.
Proof.
  intros H.
  destruct (ensures_builtTemplateFromString W (fun _ _ => True)
              (fun _ => I) (fun _ _ _ _ _ => I)
              (ensures_trivially _) (fun _ => ensures_trivially _)
              str file opts _ _ _ H) as [_ [Hm _]].
  exact Hm.
Qed.

Lemma getTemplateContentFromFile_cb_ext (W : world) (file : string)
    (k k' : error + string -> M Callback.delivery) (st : state) :
  (forall r s, k r s = k' r s) ->
  Callback.getTemplateContentFromFile_cb W file k st
  = Callback.getTemplateContentFromFile_cb W file k' st.
Proof.
  intros H. unfold Callback.getTemplateContentFromFile_cb, Callback.later.
  destruct (read_file W file) as [e|str].
  - now rewrite H.
  - unfold try_catch. rewrite H.
    destruct (k' (inr str) st) as [s1 [d|e|]]; try reflexivity.
    now rewrite H.
Qed.

Lemma buildTemplate_cb_ext (W : world) (file : string) (opts : value)
    (k k' : error + Template -> M Callback.delivery) (st : state) :
  (forall e s, k (inl e) s = k' (inl e) s) ->
  (forall t s, isAsync t = false -> k (inr t) s = k' (inr t) s) ->
  Callback.buildTemplate_cb W (Callback.loader_of W) file opts k st
  = Callback.buildTemplate_cb W (Callback.loader_of W) file opts k' st.
Proof.
  intros He Ht. unfold Callback.buildTemplate_cb.
  apply bind_ext_on. intros s1 getter _.
  assert (Hd : forall (r : error + value) s,
             match r with
             | inl err =>
                 let* _ := builtTemplateFromString W VUndef file opts in
                 k (inl err)
             | inr templateText =>
                 let* t := builtTemplateFromString W templateText file opts in
                 k (inr t)
             end s
             = match r with
               | inl err =>
                   let* _ := builtTemplateFromString W VUndef file opts in
                   k' (inl err)
               | inr templateText =>
                   let* t := builtTemplateFromString W templateText file opts in
                   k' (inr t)
               end s).
  { intros [err|text] s; apply bind_ext_on; intros s' t Hb; [apply He|].
    apply Ht. exact (builtTemplateFromString_mode _ _ _ _ _ _ _ Hb). }
  destruct getter as [| |b|n|txt|i o|i o|f];
    try (apply getTemplateContentFromFile_cb_ext; intros [err|str] s;
         [exact (Hd (inl err) s)|exact (Hd (inr (VStr str)) s)]).
  unfold Callback.loader_of. apply Hd.
Qed.

(** The sync getter in callback form calls its callback with errors and
    with sync templates only: what it does is the same for any two
    callbacks that agree on those. *)
Lemma getTemplate_cb_mode (W : world) (file : string) (opts : value)
    (cb cb' : error + Template -> M Callback.delivery) (st : state) :
  cache_typed st ->
  (forall e s, cb (inl e) s = cb' (inl e) s) ->
  (forall t s, isAsync t = false -> cb (inr t) s = cb' (inr t) s) ->
  Callback.getTemplate_cb W (Callback.loader_of W) file opts cb st
  = Callback.getTemplate_cb W (Callback.loader_of W) file opts cb' st.
Proof.
  intros [T1 _] He Ht. unfold Callback.getTemplate_cb.
  apply bind_ext_on. intros s1 c Hm. apply member_inv in Hm as [-> ->].
  apply bind_ext_on. intros s2 fc Hc. destruct fc as [t|].
  - apply Ht. destruct (truthy (get opts "cache")); [|discriminate].
    injection Hc as _ Hc. now apply (T1 file).
  - apply buildTemplate_cb_ext.
    + intros e s. apply He.
    + intros t s Hmode. apply bind_ext_on. intros s' u _. now apply Ht.
Qed.

Lemma typed_deliver (r : error + string) :
  ensures keeps_typed any (Callback.deliver r).
Proof. now apply (ensures_ret _ keeps_typed_refl). Qed.

Lemma typed_getTemplate_cb (W : world) (file : string) (opts : value)
    (cb : error + Template -> M Callback.delivery) :
  (forall r, ensures keeps_typed any (cb r)) ->
  ensures keeps_typed any
    (Callback.getTemplate_cb W (Callback.loader_of W) file opts cb).
Proof.
  intros Hcb.
  apply (ensures_getTemplate_cb W keeps_typed keeps_typed_refl keeps_typed_trans
           (fun _ => True) (built_from opts false)).
  - intros; exact I.
  - eapply ensures_weaken; [|intros o _ t _; exact I].
    destruct (truthy (get opts "cache")); [apply typed_cache_get|].
    now apply (ensures_ret _ keeps_typed_refl).
  - intros t [Ht _]. destruct (truthy (get opts "cache"));
      [now apply typed_cache_set|now apply (ensures_ret _ keeps_typed_refl)].
  - intros text.
    apply (ensures_builtTemplateFromString W _ keeps_typed_refl
             keeps_typed_trans typed_fresh typed_set_dot_strip).
  - intros r _. apply Hcb.
Qed.

Lemma typed_Template_render_cb (W : world) (fuel : nat) (t : Template)
    (ro : render_options) (cb : error + string -> M Callback.delivery) :
  (forall r, ensures keeps_typed any (cb r)) ->
  ensures keeps_typed any
    (Callback.Template_render_cb W (Callback.loader_of W) fuel t ro cb).
Proof.
  intros Hcb.
  apply (ensures_Template_render_cb W keeps_typed (fun _ => True)
           keeps_typed_refl keeps_typed_trans); try exact I; try exact Hcb.
  - intros n t' ro' _.
    apply (ensures_render_all_sections W keeps_typed (fun _ => True));
      try exact I;
      first [ exact keeps_typed_refl | exact keeps_typed_trans
            | exact typed_fresh | exact typed_with_ids
            | intros; apply typed_log | intros; apply typed_getTemplate
            | intros; apply typed_Template_render ].
  - intros t' file cb' _ Hcb'. apply typed_getTemplate_cb.
    intros r. apply Hcb'. destruct r; exact I.
Qed.

(** Every operation keeps the stores typed. *)
Lemma typed_run_op (W : world) (fuel : nat) (o : op) (st : state) :
  keeps_typed st (run_op W fuel o st).
Proof.
  destruct o as [file opts|file opts|file opts|text opts|text opts|text opts
                |async]; cbn [run_op].
  - apply (ensures_fst keeps_typed any). unfold render.
    eapply (ensures_bind _ keeps_typed_trans any); [apply typed_getTemplate|].
    intros t _. apply typed_Template_render.
  - apply (ensures_fst keeps_typed any). unfold Callback.render_cb.
    apply typed_getTemplate_cb. intros [err|t]; [apply typed_deliver|].
    apply typed_Template_render_cb. apply typed_deliver.
  - apply (ensures_fst keeps_typed any). unfold renderAsync.
    eapply (ensures_bind _ keeps_typed_trans any); [apply typed_getTemplateAsync|].
    intros t _. apply typed_Template_renderAsync.
  - apply (ensures_fst keeps_typed any). unfold renderString.
    eapply (ensures_bind _ keeps_typed_trans).
    { apply (ensures_builtTemplateFromString W _ keeps_typed_refl
               keeps_typed_trans typed_fresh typed_set_dot_strip). }
    intros t _. apply typed_Template_render.
  - apply (ensures_fst keeps_typed any). unfold Callback.renderString_cb.
    eapply (ensures_bind _ keeps_typed_trans).
    { apply (ensures_builtTemplateFromString W _ keeps_typed_refl
               keeps_typed_trans typed_fresh typed_set_dot_strip). }
    intros t _. apply typed_Template_render_cb. apply typed_deliver.
  - apply (ensures_fst keeps_typed any). unfold renderStringAsync.
    eapply (ensures_bind _ keeps_typed_trans).
    { apply (ensures_builtTemplateFromStringAsync W _ keeps_typed_refl
               keeps_typed_trans typed_fresh typed_set_dot_strip). }
    intros t _. apply typed_Template_renderAsync.
  - intros [T1 T2]. destruct async; split; cbn [cache_clear fst cache asyncCache];
      try assumption; intros key t; rewrite lookup_empty; discriminate.
Qed.

Lemma typed_run_ops (W : world) (ops : list (nat * op)) (st : state) :
  keeps_typed st (run_ops W ops st).
Proof.
  unfold run_ops. revert st. induction ops as [|[fuel o] ops IH]; intros st.
  - apply keeps_typed_refl.
  - cbn [fold_left fst snd]. eapply keeps_typed_trans; [apply typed_run_op|apply IH].
Qed.

(** *** Without the cache flag the stores are left alone *)

Lemma untouched_refl (st : state) : stores_untouched st st.
Proof. repeat split. Qed.

Lemma untouched_trans (a b c : state) :
  stores_untouched a b -> stores_untouched b c -> stores_untouched a c.
Proof.
  intros (A1 & A2 & A3) (B1 & B2 & B3).
  repeat split; [now rewrite B1|now rewrite B2|now rewrite B3].
Qed.

Lemma untouched_same {A} (m : M A) :
  (forall st st' r, m st = (st', r) ->
     cache st' = cache st /\ asyncCache st' = asyncCache st
     /\ trace st' = trace st) ->
  ensures stores_untouched any m.
Proof.
  intros Hm st st' r H. destruct (Hm _ _ _ H) as (Hc & Ha & Ht). split.
  - repeat split; [exact Hc|exact Ha|now rewrite Ht].
  - destruct r; exact I.
Qed.

Lemma untouched_log (e : event) :
  is_cache_event e = false -> ensures stores_untouched any (log e).
Proof.
  intros He st st' r H. injection H as <- <-. split; [|exact I].
  repeat split. cbn [trace]. unfold cache_events.
  rewrite filter_cons_False; [reflexivity|]. rewrite He. discriminate.
Qed.

Lemma untouched_fresh : ensures stores_untouched any fresh.
Proof. apply untouched_same. intros st st' r H. injection H as <- _. now repeat split. Qed.

Lemma untouched_with_ids (A : Type) (f : N -> N * A) :
  ensures stores_untouched any (with_ids f).
Proof.
  apply untouched_same. intros st st' r H. unfold with_ids in H.
  destruct (f (next_id st)). injection H as <- _. now repeat split.
Qed.

Lemma untouched_pick (n : nat) : ensures stores_untouched any (pick n).
Proof.
  apply untouched_same. intros st st' r H. unfold pick in H.
  destruct (schedule st); injection H as <- _; now repeat split.
Qed.

Lemma untouched_set_dot_strip (b : bool) :
  ensures stores_untouched any (set_dot_strip b).
Proof. apply untouched_same. intros st st' r H. injection H as <- _. now repeat split. Qed.

Lemma built_cache_off (opts : value) (async : bool) (t : Template) :
  truthy (get opts "cache") = false -> built_from opts async t -> cache_off t.
Proof.
  intros Hoff [_ Hc]. unfold cache_off. rewrite Hc. unfold or_else.
  rewrite Hoff. reflexivity.
Qed.

Lemma off_getTemplate (W : world) (file : string) (opts : value) :
  truthy (get opts "cache") = false ->
  ensures stores_untouched cache_off (getTemplate W file opts).
Proof.
  intros Hoff. unfold getTemplate, member.
  assert (G : ensures stores_untouched cache_off
            (let* fromCache := ret None in
             match fromCache with
             | Some t => ret t
             | None =>
                 let* t := buildTemplate W file opts in
                 let* _ := ret tt in ret t
             end)).
  { eapply (ensures_bind _ untouched_trans (fun h => h = None));
      [now apply (ensures_ret _ untouched_refl)|].
    intros h ->.
    eapply (ensures_bind _ untouched_trans).
    { apply (ensures_buildTemplate W _ untouched_refl untouched_trans
               untouched_fresh untouched_set_dot_strip). }
    intros t Ht.
    eapply (ensures_bind _ untouched_trans any);
      [now apply (ensures_ret _ untouched_refl)|].
    intros _ _. apply (ensures_ret _ untouched_refl).
    now apply (built_cache_off opts false). }
  destruct opts; try apply (ensures_throw _ untouched_refl);
    unfold bind at 1, ret at 1; cbn beta iota; rewrite Hoff; exact G.
Qed.

Lemma off_getTemplateAsync (W : world) (file : string) (opts : value) :
  truthy (get opts "cache") = false ->
  ensures stores_untouched cache_off (getTemplateAsync W file opts).
Proof.
  intros Hoff. unfold getTemplateAsync. rewrite Hoff.
  eapply (ensures_bind _ untouched_trans (fun h => h = None));
    [now apply (ensures_ret _ untouched_refl)|].
  intros h ->.
  eapply (ensures_bind _ untouched_trans).
  { apply (ensures_buildTemplateAsync W _ untouched_refl untouched_trans
             untouched_fresh untouched_set_dot_strip). }
  intros t Ht.
  eapply (ensures_bind _ untouched_trans any);
    [now apply (ensures_ret _ untouched_refl)|].
  intros _ _. apply (ensures_ret _ untouched_refl).
  now apply (built_cache_off opts true).
Qed.

Lemma off_Template_render (W : world) (fuel : nat) (t : Template)
    (ro : render_options) :
  cache_off t -> ensures stores_untouched any (Template_render W fuel t ro).
Proof.
  intros Ht.
  apply (ensures_Template_render W stores_untouched cache_off); try exact Ht;
    first [ exact untouched_refl | exact untouched_trans
          | exact untouched_fresh | exact untouched_with_ids
          | exact untouched_pick | exact untouched_log
          | intros t' file Ht'; now apply off_getTemplate ].
Qed.

Lemma off_Template_renderAsync (W : world) (fuel : nat) (t : Template)
    (ro : render_options) :
  cache_off t -> ensures stores_untouched any (Template_renderAsync W fuel t ro).
Proof.
  intros Ht.
  apply (ensures_Template_renderAsync W stores_untouched cache_off); try exact Ht;
    first [ exact untouched_refl | exact untouched_trans
          | exact untouched_fresh | exact untouched_with_ids
          | exact untouched_pick | exact untouched_log
          | intros t' file Ht'; now apply off_getTemplateAsync ].
Qed.

Lemma off_deliver (r : error + string) :
  ensures stores_untouched any (Callback.deliver r).
Proof. now apply (ensures_ret _ untouched_refl). Qed.

Lemma off_getTemplate_cb (W : world) (file : string) (opts : value)
    (cb : error + Template -> M Callback.delivery) :
  truthy (get opts "cache") = false ->
  (forall r, delivered cache_off r -> ensures stores_untouched any (cb r)) ->
  ensures stores_untouched any
    (Callback.getTemplate_cb W (Callback.loader_of W) file opts cb).
Proof.
  intros Hoff Hcb.
  apply (ensures_getTemplate_cb W stores_untouched untouched_refl
           untouched_trans cache_off (built_from opts false)).
  - intros t. now apply built_cache_off.
  - rewrite Hoff. apply (ensures_ret _ untouched_refl). intros t; discriminate.
  - intros t _. rewrite Hoff. now apply (ensures_ret _ untouched_refl).
  - intros text.
    apply (ensures_builtTemplateFromString W _ untouched_refl untouched_trans
             untouched_fresh untouched_set_dot_strip).
  - exact Hcb.
Qed.

Lemma off_Template_render_cb (W : world) (fuel : nat) (t : Template)
    (ro : render_options) (cb : error + string -> M Callback.delivery) :
  cache_off t -> (forall r, ensures stores_untouched any (cb r)) ->
  ensures stores_untouched any
    (Callback.Template_render_cb W (Callback.loader_of W) fuel t ro cb).
Proof.
  intros Ht Hcb.
  apply (ensures_Template_render_cb W stores_untouched cache_off
           untouched_refl untouched_trans); try exact Ht; try exact Hcb.
  - intros n t' ro' Ht'.
    apply (ensures_render_all_sections W stores_untouched cache_off);
      try exact Ht';
      first [ exact untouched_refl | exact untouched_trans
            | exact untouched_fresh | exact untouched_with_ids
            | exact untouched_log
            | intros t2 file Ht2; now apply off_getTemplate
            | intros t2 ro2 Ht2; now apply off_Template_render ].
  - intros t' file cb' Ht' Hcb'. now apply off_getTemplate_cb.
Qed.

(** A render operation whose options do not set the cache flag leaves
    both stores alone. *)
Lemma off_run_op (W : world) (fuel : nat) (o : op) (opts : value) (st : state) :
  op_options o = Some opts -> truthy (get opts "cache") = false ->
  stores_untouched st (run_op W fuel o st).
Proof.
  intros Ho Hoff.
  destruct o as [file o|file o|file o|text o|text o|text o|async];
    cbn [op_options] in Ho;
    try discriminate; injection Ho as ->; cbn [run_op];
    apply (ensures_fst stores_untouched any).
  - unfold render. eapply (ensures_bind _ untouched_trans);
      [now apply off_getTemplate|].
    intros t Ht. now apply off_Template_render.
  - unfold Callback.render_cb. apply off_getTemplate_cb; [exact Hoff|].
    intros [err|t] Ht; [apply off_deliver|].
    apply off_Template_render_cb; [exact Ht|apply off_deliver].
  - unfold renderAsync. eapply (ensures_bind _ untouched_trans);
      [now apply off_getTemplateAsync|].
    intros t Ht. now apply off_Template_renderAsync.
  - unfold renderString. eapply (ensures_bind _ untouched_trans).
    { apply (ensures_builtTemplateFromString W _ untouched_refl untouched_trans
               untouched_fresh untouched_set_dot_strip). }
    intros t Ht. apply off_Template_render. now apply (built_cache_off opts false).
  - unfold Callback.renderString_cb. eapply (ensures_bind _ untouched_trans).
    { apply (ensures_builtTemplateFromString W _ untouched_refl untouched_trans
               untouched_fresh untouched_set_dot_strip). }
    intros t Ht. apply off_Template_render_cb; [|apply off_deliver].
    now apply (built_cache_off opts false).
  - unfold renderStringAsync. eapply (ensures_bind _ untouched_trans).
    { apply (ensures_builtTemplateFromStringAsync W _ untouched_refl
               untouched_trans untouched_fresh untouched_set_dot_strip). }
    intros t Ht. apply off_Template_renderAsync.
    now apply (built_cache_off opts true).
Qed.

End CacheFacts.

(** ** Facts about the rendering of a section *)

Module SectionFacts.
Import Js Engine Spec Rules MergeFacts.
Local Open Scope engine_scope.

Lemma same_value_zero_sym (a b : value) :
  same_value_zero a b = same_value_zero b a.
Proof.
  destruct a, b; cbn [same_value_zero]; try reflexivity.
  - now destruct b, b0.
  - apply Z.eqb_sym.
  - apply String.eqb_sym.
  - apply N.eqb_sym.
  - apply N.eqb_sym.
  - apply N.eqb_sym.
Qed.

Lemma existsb_false {A} (p : A -> bool) (l : list A) :
  existsb p l = false <-> forall x, In x l -> p x = false.
Proof.
  induction l as [|y l IH]; cbn [existsb In]; split; intros H.
  - intros x [].
  - reflexivity.
  - apply orb_false_iff in H as [Hy Hl]. intros x [<-|Hin]; [exact Hy|].
    now apply IH.
  - apply orb_false_iff. split; [apply H; now left|].
    apply IH. intros x Hin. apply H. now right.
Qed.

Lemma shortcut_values_inv (loc : value) (sc : props) (st st' : state)
    (vs : list value) :
  shortcut_values loc sc st = (st', Returned vs) ->
  st' = st
  /\ vs = map (fun kv => or_else (get loc (to_string (snd kv))) VNull) sc.
Proof.
  revert st' vs. induction sc as [|[k path] sc IH]; intros st' vs;
    cbn [shortcut_values]; intros H.
  - apply ret_inv in H as [-> ->]. now split.
  - apply bind_inv in H as (s1 & v & Hm & H).
    apply member_inv in Hm as [-> ->].
    apply bind_inv in H as (s2 & vs1 & Hs & H).
    apply IH in Hs as [-> ->]. apply ret_inv in H as [-> ->]. now split.
Qed.

(** What a successful construction of the argument list returns; in
    [render] it succeeds for a template without shortcuts only. *)
Lemma viewModel_inv (async : bool) (t : Template) (lm : value)
    (ro : render_options) (st st' : state) (args : list value) :
  viewModel async t lm ro st = (st', Returned args) ->
  args = union (built_args t lm ro (next_id st) (next_id st + 1))
  /\ trace st' = trace st
  /\ (async = false -> shortcuts t = []).
Proof.
  unfold viewModel, arg_candidates, built_args. intros H.
  apply bind_inv in H as (s1 & xs & H & Hr). apply ret_inv in Hr as [-> ->].
  apply bind_inv in H as (s2 & helper & Hf & H).
  apply fresh_inv in Hf as (-> & Hn2 & Ht2 & _).
  apply bind_inv in H as (s3 & loc & Hm & H).
  apply member_inv in Hm as [-> ->].
  apply bind_inv in H as (s4 & locals & Hl & H).
  apply bind_inv in H as (s5 & scs & Hs & H).
  assert (Hscs : s5 = s4
            /\ scs = map (fun kv => or_else (get (get (model ro) "_locals")
                                               (to_string (snd kv))) VNull)
                         (shortcuts t)
            /\ (async = false -> shortcuts t = [])).
  { destruct async.
    - apply shortcut_values_inv in Hs as [-> ->].
      split; [reflexivity|]. split; [reflexivity|discriminate].
    - unfold shortcut_values_unbound in Hs.
      destruct (shortcuts t); [|discriminate].
      apply ret_inv in Hs as [-> ->]. now repeat split. }
  destruct Hscs as (-> & -> & Hsync). clear Hs.
  apply ret_inv in H as [-> ->].
  destruct (truthy (get (model ro) "_locals")).
  - apply ret_inv in Hl as [-> ->].
    split; [reflexivity|]. split; [exact Ht2|exact Hsync].
  - apply bind_inv in Hl as (s6 & i & Hf & Hl).
    apply fresh_inv in Hf as (-> & _ & Ht6 & _).
    apply ret_inv in Hl as [-> ->]. rewrite Hn2.
    split; [reflexivity|]. split; [now rewrite Ht6|exact Hsync].
Qed.

Lemma lookup_put (k k0 : string) (v : value) (o : props) :
  lookup k (put k0 v o)
  = if String.eqb k0 "__proto__" then lookup k o
    else if String.eqb k k0 then Some v else lookup k o.
Proof.
  unfold put. destruct (String.eqb k0 "__proto__"); [reflexivity|].
  apply lookup_set.
Qed.

Lemma get_store (key : string) (out : string) (i : N) (o : props) :
  key <> "__proto__" -> get (store key out (VObj i o)) key = VStr out.
Proof.
  intros H. apply String.eqb_neq in H. cbn [store get].
  rewrite lookup_put, H, String.eqb_refl. reflexivity.
Qed.


Lemma log_inv (e : event) (st st' : state) (u : unit) :
  log e st = (st', Returned u) -> trace st' = e :: trace st
  /\ st_settings st' = st_settings st.
Proof. intros H. injection H as <- _. now split. Qed.

Lemma try_catch_throw_inv {A} (m : M A) (wrap : error -> error)
    (st st' : state) (a : A) :
  try_catch m (fun err => throw (wrap err)) st = (st', Returned a) ->
  m st = (st', Returned a).
Proof.
  unfold try_catch, throw. destruct (m st) as [s1 [x|e|]]; try discriminate.
  intros H. exact H.
Qed.

(** A run that returns has got an answer to each of its calls. *)
Lemma run_prog_returns (W : world)
    (rnd : Template -> render_options -> M string) (t : Template) :
  forall (p : prog) (lm m : value) (st st' : state) (out : string),
    run_prog W rnd t lm m p st = (st', Returned out) ->
    exists answers, returns_with p answers out.
Proof.
  induction p as [o|e|path extra k IH]; intros lm m st st' out H;
    cbn [run_prog] in H.
  - apply ret_inv in H as [_ ->]. exists []. constructor.
  - discriminate.
  - apply bind_inv in H as (s1 & tp & _ & H). destruct tp as [e|tp].
    + apply IH in H as (answers & H). exists ((inl e, lm) :: answers).
      now constructor.
    + apply bind_inv in H as (s2 & m' & _ & H).
      apply bind_inv in H as (s3 & r & _ & H).
      apply IH in H as (answers & H). exists ((r, lm) :: answers).
      now constructor.
Qed.





(** *** The shape of a built template *)

Lemma lift_inv {A} (r : error + A) (st st' : state) (a : A) :
  lift r st = (st', Returned a) -> st' = st /\ r = inr a.
Proof.
  destruct r as [e|x]; [discriminate|]. intros H.
  apply ret_inv in H as [-> ->]. now split.
Qed.

Lemma compile_sections_keys (W : world) (async : bool) (vn : string) (sp : bool) :
  forall (secs : props) (st st' : state) (fs : list (string * section_fn)),
    compile_sections W async vn sp secs st = (st', Returned fs) ->
    map fst fs = map fst secs.
Proof.
  induction secs as [|[key v] secs IH]; intros st st' fs H;
    cbn [compile_sections] in H.
  - apply ret_inv in H as [_ ->]. reflexivity.
  - apply bind_inv in H as (s1 & f & _ & H).
    apply bind_inv in H as (s2 & fs' & Hc & H).
    apply ret_inv in H as [_ ->]. cbn [map fst]. f_equal. now apply (IH s1 s2).
Qed.

(** Every compiled function is what the compiler made of the section's
    text. *)
Lemma compile_sections_funs (W : world) (async : bool) (vn : string) (sp : bool) :
  forall (secs : props) (st st' : state) (fs : list (string * section_fn)),
    compile_sections W async vn sp secs st = (st', Returned fs) ->
    Forall2 (fun kv kf =>
               fst kf = fst kv
               /\ exists text, snd kv = VStr text
                               /\ dot_template W async vn sp text = inr (snd kf))
            secs fs.
Proof.
  induction secs as [|[key v] secs IH]; intros st st' fs H;
    cbn [compile_sections] in H.
  - apply ret_inv in H as [_ ->]. constructor.
  - apply bind_inv in H as (s1 & f & Hf & H).
    apply bind_inv in H as (s2 & fs' & Hc & H).
    apply ret_inv in H as [_ ->]. constructor; [|now apply (IH s1 s2)].
    cbn [fst snd]. split; [reflexivity|].
    destruct v; try discriminate. apply lift_inv in Hf as [_ Hf]. now eexists.
Qed.

Lemma compile_all_inv (W : world) (t t' : Template) (st st' : state) :
  compile_all W t st = (st', Returned t') ->
  t' = with_templates t (templates t')
  /\ map fst (templates t') = map fst (sections (options t))
  /\ Forall2 (fun kv kf =>
                fst kf = fst kv
                /\ exists text,
                     snd kv = VStr text
                     /\ dot_template W (isAsync t) (varname t) (strip t) text
                        = inr (snd kf))
             (sections (options t)) (templates t').
Proof.
  unfold compile_all. intros H. apply bind_inv in H as (s1 & fs & Hc & H).
  apply ret_inv in H as [_ ->]. cbn [templates with_templates].
  split; [reflexivity|].
  split; [now apply compile_sections_keys in Hc|].
  now apply compile_sections_funs in Hc.
Qed.

Lemma init_inv (W : world) (t t' : Template) (st st' : state) :
  init W t st = (st', Returned t') ->
  t' = with_templates t (templates t')
  /\ map fst (templates t') = map fst (sections (options t))
  /\ Forall2 (fun kv kf =>
                fst kf = fst kv
                /\ exists text,
                     snd kv = VStr text
                     /\ dot_template W (isAsync t) (varname t) (strip t) text
                        = inr (snd kf))
             (sections (options t)) (templates t').
Proof.
  unfold init. intros H. apply bind_inv in H as (s1 & u & _ & H).
  now apply compile_all_inv in H.
Qed.

(** The template the constructor builds, before its sections are
    compiled. *)
Lemma new_Template_inv (W : world) (o : source_options) (async : bool)
    (st st' : state) (t : Template) :
  new_Template W o async st = (st', Returned t) ->
  options t = o /\ isAsync t = async
  /\ isLayout t = truthy (get (config o) "layout")
  /\ (isLayout t = true ->
      exists l, get (config o) "layout" = VStr l
                /\ master t = Some (path_join W (dirname o) l))
  /\ strip t = dot_strip (st_settings st)
  /\ (async = false ->
      map fst (templates t) = map fst (sections o)
      /\ Forall2 (fun kv kf =>
                    fst kf = fst kv
                    /\ exists text,
                         snd kv = VStr text
                         /\ dot_template W false (varname t) (strip t) text
                            = inr (snd kf))
                 (sections o) (templates t)).
Proof.
  unfold new_Template. intros H.
  apply bind_inv in H as (s1 & lay & Hm & H). apply member_inv in Hm as [-> ->].
  apply bind_inv in H as (s2 & mst & Hmst & H).
  apply bind_inv in H as (s3 & s & Hs & H).
  assert (Hst : s2 = st).
  { destruct (truthy (get (config o) "layout")).
    - destruct (get (config o) "layout"); try discriminate.
      now apply ret_inv in Hmst as [-> _].
    - now apply ret_inv in Hmst as [-> _]. }
  subst s2. injection Hs as <- <-.
  assert (Hmaster : truthy (get (config o) "layout") = true ->
            exists l, get (config o) "layout" = VStr l
                      /\ mst = Some (path_join W (dirname o) l)).
  { intros Ht. rewrite Ht in Hmst.
    destruct (get (config o) "layout"); try discriminate.
    apply ret_inv in Hmst as [_ ->]. now eexists. }
  destruct async.
  - apply ret_inv in H as [_ ->]. cbn. repeat split; try assumption;
      discriminate.
  - apply init_inv in H as (Ho & Hk & Hf). rewrite Ho.
    cbn [options isAsync isLayout master strip varname with_templates templates]
      in *.
    repeat split; try assumption.
Qed.

(** A template built in sync mode. *)
Lemma builtTemplateFromString_inv (W : world) (str : value) (file : string)
    (opts : value) (st st' : state) (t : Template) :
  builtTemplateFromString W str file opts st = (st', Returned t) ->
  filename (options t) = file /\ isAsync t = false
  /\ isLayout t = truthy (get (config (options t)) "layout")
  /\ (isLayout t = true ->
      exists l, get (config (options t)) "layout" = VStr l
                /\ master t = Some (path_join W (path_dirname W file) l))
  /\ map fst (templates t) = map fst (sections (options t))
  /\ Forall2 (fun kv kf =>
                fst kf = fst kv
                /\ exists text,
                     snd kv = VStr text
                     /\ dot_template W false (varname t) (strip t) text
                        = inr (snd kf))
             (sections (options t)) (templates t)
  /\ exists text s1,
      str = VStr text
      /\ processTemplateString W text opts false st
         = (s1, Returned (config (options t), sections (options t),
                          express (options t))).
Proof.
  unfold builtTemplateFromString. intros H. apply try_catch_throw_inv in H.
  apply bind_inv in H as (s0 & text & Ht & H).
  assert (str = VStr text /\ s0 = st) as [-> ->].
  { destruct str; try discriminate. apply ret_inv in Ht as [-> ->]. now split. }
  apply bind_inv in H as (s1 & [[cfg secs] ts] & Hp & H).
  apply new_Template_inv in H as (Ho & Ha & Hl & Hm & _ & Hk).
  cbn [config sections dirname filename express] in Hl, Hm, Hk.
  destruct (Hk eq_refl) as [Hk1 Hk2].
  rewrite Ho. cbn [config sections dirname filename express].
  split; [reflexivity|]. split; [exact Ha|]. split; [exact Hl|].
  split; [exact Hm|]. split; [exact Hk1|]. split; [exact Hk2|].
  exists text, s1. split; [reflexivity|exact Hp].
Qed.

(** A template built in async mode. *)
Lemma builtTemplateFromStringAsync_inv (W : world) (str : value) (file : string)
    (opts : value) (st st' : state) (t : Template) :
  builtTemplateFromStringAsync W str file opts st = (st', Returned t) ->
  filename (options t) = file /\ isAsync t = true
  /\ isLayout t = truthy (get (config (options t)) "layout")
  /\ (isLayout t = true ->
      exists l, get (config (options t)) "layout" = VStr l
                /\ master t = Some (path_join W (path_dirname W file) l))
  /\ map fst (templates t) = map fst (sections (options t))
  /\ Forall2 (fun kv kf =>
                fst kf = fst kv
                /\ exists text,
                     snd kv = VStr text
                     /\ dot_template W true (varname t) (strip t) text
                        = inr (snd kf))
             (sections (options t)) (templates t)
  /\ exists text s1,
      str = VStr text
      /\ processTemplateString W text opts true st
         = (s1, Returned (config (options t), sections (options t),
                          express (options t))).
Proof.
  unfold builtTemplateFromStringAsync. intros H.
  apply bind_inv in H as (s2 & t0 & H & Hi).
  apply try_catch_throw_inv in H.
  apply bind_inv in H as (s0 & text & Ht & H).
  assert (str = VStr text /\ s0 = st) as [-> ->].
  { destruct str; try discriminate. apply ret_inv in Ht as [-> ->]. now split. }
  apply bind_inv in H as (s1 & [[cfg secs] ts] & Hp & H).
  apply bind_inv in H as (s3 & t1 & H & Hg).
  apply bind_inv in Hg as (s4 & u & _ & Hg). apply ret_inv in Hg as [_ ->].
  apply new_Template_inv in H as (Ho & Ha & Hl & Hm & _ & _).
  apply compile_all_inv in Hi as (Ht' & Hk & Hf). rewrite Ht'.
  cbn [options isAsync isLayout master strip varname with_templates templates]
    in *.
  rewrite Ho, Ha in *.
  cbn [config sections dirname filename express] in *.
  split; [reflexivity|]. split; [reflexivity|]. split; [exact Hl|].
  split; [exact Hm|]. split; [exact Hk|]. split; [exact Hf|].
  exists text, s1. split; [reflexivity|exact Hp].
Qed.

End SectionFacts.

(** ** The trace only grows *)

Module TraceFacts.
Import Js Engine Spec Rules BuildFacts.
Local Open Scope engine_scope.

Lemma grows_refl (st : state) : grows st st.
Proof. now exists []. Qed.

Lemma grows_trans (a b c : state) : grows a b -> grows b c -> grows a c.
Proof.
  intros [l1 H1] [l2 H2]. exists (l2 ++ l1)%list.
  rewrite H2, H1. now rewrite <- app_assoc.
Qed.

Lemma grows_same {A} (m : M A) :
  (forall st st' r, m st = (st', r) -> trace st' = trace st) ->
  ensures grows any m.
Proof.
  intros Hm st st' r H. split; [exists []; now apply (Hm _ _ _ H)|].
  destruct r; exact I.
Qed.

Lemma grows_log (e : event) : ensures grows any (log e).
Proof. intros st st' r H. injection H as <- <-. split; [now exists [e]|exact I]. Qed.

Lemma grows_fresh : ensures grows any fresh.
Proof. apply grows_same. intros st st' r H. now injection H as <- _. Qed.

Lemma grows_with_ids (A : Type) (f : N -> N * A) : ensures grows any (with_ids f).
Proof.
  apply grows_same. intros st st' r H. unfold with_ids in H.
  destruct (f (next_id st)). now injection H as <- _.
Qed.

Lemma grows_pick (n : nat) : ensures grows any (pick n).
Proof.
  apply grows_same. intros st st' r H. unfold pick in H.
  destruct (schedule st); now injection H as <- _.
Qed.

Lemma grows_set_dot_strip (b : bool) : ensures grows any (set_dot_strip b).
Proof. apply grows_same. intros st st' r H. now injection H as <- _. Qed.

Lemma grows_cache_get (async : bool) (key : string) :
  ensures grows any (cache_get async key).
Proof.
  intros st st' r H. injection H as <- <-.
  split; [now exists [CacheGet async key]|exact I].
Qed.

Lemma grows_cache_set (async : bool) (key : string) (t : Template) :
  ensures grows any (cache_set async key t).
Proof.
  intros st st' r H. injection H as <- <-.
  split; [now exists [CacheSet async key]|exact I].
Qed.

Lemma grows_getTemplate (W : world) (file : string) (opts : value) :
  ensures grows any (getTemplate W file opts).
Proof.
  unfold getTemplate.
  eapply (ensures_bind _ grows_trans any);
    [apply (ensures_member _ grows_refl)|intros c _].
  eapply (ensures_bind _ grows_trans any).
  { destruct (truthy c); [apply grows_cache_get|].
    now apply (ensures_ret _ grows_refl). }
  intros [t|] _; [now apply (ensures_ret _ grows_refl)|].
  eapply (ensures_bind _ grows_trans).
  { apply (ensures_buildTemplate W _ grows_refl grows_trans
             grows_fresh grows_set_dot_strip). }
  intros t _.
  eapply (ensures_bind _ grows_trans any).
  { destruct (truthy c); [apply grows_cache_set|].
    now apply (ensures_ret _ grows_refl). }
  intros _ _. now apply (ensures_ret _ grows_refl).
Qed.

Lemma grows_getTemplateAsync (W : world) (file : string) (opts : value) :
  ensures grows any (getTemplateAsync W file opts).
Proof.
  unfold getTemplateAsync.
  eapply (ensures_bind _ grows_trans any).
  { destruct (truthy (get opts "cache")); [apply grows_cache_get|].
    now apply (ensures_ret _ grows_refl). }
  intros [t|] _; [now apply (ensures_ret _ grows_refl)|].
  eapply (ensures_bind _ grows_trans).
  { apply (ensures_buildTemplateAsync W _ grows_refl grows_trans
             grows_fresh grows_set_dot_strip). }
  intros t _.
  eapply (ensures_bind _ grows_trans any).
  { destruct (truthy (get opts "cache")); [apply grows_cache_set|].
    now apply (ensures_ret _ grows_refl). }
  intros _ _. now apply (ensures_ret _ grows_refl).
Qed.

Ltac grows_side :=
  first [ exact grows_refl | exact grows_trans
        | exact grows_fresh | exact grows_with_ids | exact grows_pick
        | intros; apply grows_log
        | intros; apply grows_getTemplate
        | intros; apply grows_getTemplateAsync ].

Lemma grows_Template_render (W : world) (fuel : nat) (t : Template)
    (ro : render_options) :
  ensures grows any (Template_render W fuel t ro).
Proof.
  apply (ensures_Template_render W grows any); try exact I; grows_side.
Qed.

Lemma grows_Template_renderAsync (W : world) (fuel : nat) (t : Template)
    (ro : render_options) :
  ensures grows any (Template_renderAsync W fuel t ro).
Proof.
  apply (ensures_Template_renderAsync W grows any); try exact I; grows_side.
Qed.

Lemma grows_run_prog (W : world)
    (rnd : Template -> render_options -> M string) (t : Template)
    (lm m : value) (p : prog) :
  (forall t' ro', ensures grows any (rnd t' ro')) ->
  ensures grows any (run_prog W rnd t lm m p).
Proof.
  intros Hrnd.
  apply (ensures_run_prog W grows any); try exact I; try grows_side.
  intros t' ro' _. apply Hrnd.
Qed.

Lemma grows_start_sections (t : Template) (ro : render_options) (lm : value)
    (fs : list (string * section_fn)) :
  ensures grows any (start_sections t ro lm fs).
Proof. apply (ensures_start_sections grows); grows_side. Qed.

Lemma grows_render_sections (W : world)
    (rnd : Template -> render_options -> M string) (t : Template)
    (ro : render_options) (fs : list (string * section_fn)) (lm : value) :
  (forall t' ro', ensures grows any (rnd t' ro')) ->
  ensures grows any (render_sections W rnd t ro lm fs).
Proof.
  intros Hrnd.
  apply (ensures_render_sections W grows any); try exact I; try grows_side.
  intros t' ro' _. apply Hrnd.
Qed.

Lemma grows_settle_all (W : world)
    (rnd : Template -> render_options -> M string) (t : Template)
    (fuel : nat) (pending : list task) (lm : value) :
  (forall t' ro', ensures grows any (rnd t' ro')) ->
  ensures grows any (settle_all W rnd fuel t lm pending).
Proof.
  intros Hrnd.
  apply (ensures_settle_all W grows any); try exact I; try grows_side.
  intros t' ro' _. apply Hrnd.
Qed.

Lemma grows_In (st st' : state) (e : event) :
  grows st st' -> In e (trace st) -> In e (trace st').
Proof. intros [l ->] H. apply in_or_app. now right. Qed.

End TraceFacts.

(** ** The layout model through the sections of a template *)

Module LayoutFacts.
Import Js Engine Spec Rules MergeFacts SectionFacts TraceFacts.
Local Open Scope engine_scope.

Lemma NoDup_put (k : string) (v : value) (o : props) :
  NoDup (map fst o) -> NoDup (map fst (put k v o)).
Proof.
  intros Hn. unfold put. destruct (String.eqb k "__proto__"); [exact Hn|].
  now apply NoDup_set.
Qed.

Lemma store_well_formed (key out : string) (lm : value) :
  well_formed lm -> well_formed (store key out lm).
Proof.
  intros (i & o & -> & Hn). exists i, (put key (VStr out) o).
  split; [reflexivity|now apply NoDup_put].
Qed.

Lemma get_store_same (key out : string) (lm : value) :
  well_formed lm -> key <> "__proto__" ->
  get (store key out lm) key = VStr out.
Proof. intros (i & o & -> & _) Hk. now apply get_store. Qed.

Lemma get_store_other (key out k : string) (lm : value) :
  k <> key -> get (store key out lm) k = get lm k.
Proof.
  intros Hne. destruct lm; try reflexivity. cbn [store get].
  rewrite lookup_put. destruct (String.eqb key "__proto__"); [reflexivity|].
  destruct (String.eqb k key) eqn:E; [|reflexivity].
  apply String.eqb_eq in E. contradiction.
Qed.

Lemma union_hd (x : value) (xs : list value) : hd VUndef (union (x :: xs)) = x.
Proof. reflexivity. Qed.

Lemma built_args_hd (t : Template) (lm : value) (ro : render_options)
    (a b : N) :
  hd VUndef (union (built_args t lm ro a b)) = lm.
Proof. unfold built_args. apply union_hd. Qed.

(** The sync loop: every section function is applied to arguments whose
    first one is the layout model as the sections before it have left
    it; what the function returns is stored in the layout model, the
    store recorded in the trace; the other keys are left as they were. *)
Lemma render_sections_applied (W : world)
    (rnd : Template -> render_options -> M string) (t : Template)
    (ro : render_options) :
  (forall t' ro', ensures grows any (rnd t' ro')) ->
  forall (fs : list (string * section_fn)) (lm0 : value) (st st1 : state)
         (lm : value),
    well_formed lm0 ->
    List.NoDup (map fst fs) -> ~ In "__proto__" (map fst fs) ->
    render_sections W rnd t ro lm0 fs st = (st1, Returned lm) ->
    well_formed lm
    /\ (forall k, ~ In k (map fst fs) -> get lm k = get lm0 k)
    /\ (forall pre k f post, fs = (pre ++ (k, f) :: post)%list ->
          exists args answers out,
            (forall X, ~ In X (map fst pre) ->
               get (hd VUndef args) X = get lm0 X)
            /\ In (Invoke (filename (options t)) k args) (trace st1)
            /\ returns_with (f args) answers out
            /\ In (Store (filename (options t)) k out) (trace st1)
            /\ get lm k = VStr out).
Proof.
  intros Hrnd. induction fs as [|[key f] fs IH];
    intros lm0 st st1 lm Hwf Hnd Hproto H.
  - cbn [render_sections] in H. apply ret_inv in H as [-> ->].
    split; [exact Hwf|]. split; [reflexivity|].
    intros pre k f post E. now destruct pre.
  - cbn [render_sections] in H.
    apply bind_inv in H as (s1 & out & Hrun & H).
    apply bind_inv in H as (s2 & u & Hl & H).
    apply log_inv in Hl as [Hl _].
    apply try_catch_throw_inv in Hrun.
    apply bind_inv in Hrun as (s3 & args & Hv & Hrun).
    apply viewModel_inv in Hv as (Hargs & _ & _).
    apply bind_inv in Hrun as (s4 & u' & Hli & Hrun).
    apply log_inv in Hli as [Hli _].
    pose proof (proj1 (grows_run_prog W rnd t _ _ _ Hrnd _ _ _ Hrun)) as Hgr.
    apply run_prog_returns in Hrun as (answers & Hrun).
    pose proof (proj1 (grows_render_sections W rnd t ro fs _ Hrnd _ _ _ H)) as Hg.
    cbn [map fst] in Hnd, Hproto. apply List.NoDup_cons_iff in Hnd as [Hkey Hnd].
    apply IH in H as (Hwf' & Hframe & Hall);
      [|now apply store_well_formed|exact Hnd|cbn [In] in Hproto; tauto].
    split; [exact Hwf'|]. split.
    + intros k Hk. cbn [map fst In] in Hk.
      rewrite Hframe by tauto. apply get_store_other. intros ->. tauto.
    + intros pre k f0 post E. destruct pre as [|[key' f'] pre].
      * cbn [app] in E. injection E as <- <- <-.
        exists args, answers, out. split; [|split; [|split; [exact Hrun|split]]].
        -- intros X _. rewrite Hargs, built_args_hd. reflexivity.
        -- apply (grows_In s2); [exact Hg|]. rewrite Hl. right.
           apply (grows_In s4); [exact Hgr|]. rewrite Hli. now left.
        -- apply (grows_In s2); [exact Hg|]. rewrite Hl. now left.
        -- rewrite Hframe by exact Hkey. apply get_store_same; [exact Hwf|].
           intros ->. apply Hproto. now left.
      * cbn [app] in E. injection E as <- <- ->.
        destruct (Hall pre k f0 post eq_refl)
          as (args' & answers' & out' & Hx & Hi & Hr & Hs & Hget).
        exists args', answers', out'. split; [|now repeat split].
        intros X HX. cbn [map fst In] in HX. rewrite Hx by tauto.
        apply get_store_other. intros ->. tauto.
Qed.

Lemma pick_inv (n : nat) (st st' : state) (i : nat) :
  0 < n -> pick n st = (st', Returned i) -> i < n.
Proof.
  intros Hn. unfold pick.
  destruct (schedule st) as [|c cs]; intros H; injection H as _ <-.
  - exact Hn.
  - apply Nat.mod_upper_bound. lia.
Qed.

(** The pending sections around the one the scheduler chooses. *)
Lemma pending_split (pending : list task) (i : nat) (tk : task) :
  pending !! i = Some tk ->
  exists pre post,
    pending = (pre ++ tk :: post)%list
    /\ delete i pending = (pre ++ post)%list
    /\ forall tk', <[i := tk']> pending = (pre ++ tk' :: post)%list.
Proof.
  intros Hi. exists (take i pending), (drop (S i) pending).
  split; [now rewrite take_drop_middle|].
  split; [apply delete_take_drop|].
  intros tk'. apply insert_take_drop. now apply lookup_lt_Some in Hi.
Qed.

(** The async loop: what every pending section function returns is
    stored in the layout model, the store recorded in the trace; the
    other keys are left as they were. *)
Lemma settle_all_applied (W : world)
    (rnd : Template -> render_options -> M string) (t : Template) :
  (forall t' ro', ensures grows any (rnd t' ro')) ->
  forall (fuel : nat) (pending : list task) (lm0 : value) (st st1 : state)
         (lm : value),
    well_formed lm0 ->
    List.NoDup (map tk_key pending) -> ~ In "__proto__" (map tk_key pending) ->
    settle_all W rnd fuel t lm0 pending st = (st1, Returned lm) ->
    well_formed lm
    /\ (forall k, ~ In k (map tk_key pending) -> get lm k = get lm0 k)
    /\ (forall tk, In tk pending ->
          exists answers out,
            returns_with (tk_prog tk) answers out
            /\ In (Store (filename (options t)) (tk_key tk) out) (trace st1)
            /\ get lm (tk_key tk) = VStr out).
Proof.
  intros Hrnd. induction fuel as [|n IH];
    intros pending lm0 st st1 lm Hwf Hnd Hproto H;
    destruct pending as [|first rest]; cbn [settle_all] in H;
    try discriminate;
    try (apply ret_inv in H as [-> ->];
         split; [exact Hwf|]; split; [reflexivity|]; intros k []).
  apply bind_inv in H as (s1 & i & Hp & H).
  apply pick_inv in Hp; [|cbn [length]; lia].
  set (pending := first :: rest) in *.
  destruct (pending !! i) as [tk|] eqn:Hi;
    [|apply lookup_ge_None in Hi; cbn [length] in Hi; lia].
  assert (Hnth : nth i pending first = tk).
  { rewrite nth_lookup, Hi. reflexivity. }
  rewrite Hnth in H.
  destruct (pending_split pending i tk Hi) as (pre & post & Epend & Edel & Eins).
  clearbody pending. subst pending.
  rewrite map_app in Hnd, Hproto. cbn [map] in Hnd, Hproto.
  destruct (tk_prog tk) as [out|e|path extra k0] eqn:Ep.
  - apply bind_inv in H as (s2 & u & Hl & H). apply log_inv in Hl as [Hl _].
    rewrite Edel in H.
    pose proof (proj1 (grows_settle_all W rnd t n _ _ Hrnd _ _ _ H)) as Hg.
    apply List.NoDup_remove in Hnd as [Hnd Hkey].
    rewrite <- map_app in Hnd, Hkey.
    apply IH in H as (Hwf' & Hframe & Hall);
      [|now apply store_well_formed|exact Hnd
       |rewrite map_app; rewrite in_app_iff in *; cbn [In] in Hproto; tauto].
    split; [exact Hwf'|]. split.
    + intros k Hk. rewrite map_app in *. cbn [map] in Hk.
      rewrite in_app_iff in *. cbn [In] in Hk.
      rewrite Hframe by (rewrite in_app_iff; tauto).
      apply get_store_other. intros ->. tauto.
    + intros tk0 Hin. apply in_app_or in Hin as [Hin|[<-|Hin]].
      * apply Hall. apply in_or_app. now left.
      * exists [], out. rewrite Ep. split; [constructor|]. split.
        -- apply (grows_In s2); [exact Hg|]. rewrite Hl. now left.
        -- rewrite Hframe by exact Hkey. apply get_store_same; [exact Hwf|].
           intros E. apply Hproto. apply in_or_app. right. left. exact E.
      * apply Hall. apply in_or_app. now right.
  - discriminate.
  - assert (Hstep : forall (p : prog) (m : value) (answer : (error + string) * value)
                      (s : state),
               (forall answers out,
                   returns_with p answers out ->
                   returns_with (tk_prog tk) (answer :: answers) out) ->
               settle_all W rnd n t lm0
                 (<[i := {| tk_key := tk_key tk; tk_prog := p; tk_model := m |}]>
                    (pre ++ tk :: post)%list) s = (st1, Returned lm) ->
               well_formed lm
               /\ (forall k, ~ In k (map tk_key (pre ++ tk :: post)%list) ->
                     get lm k = get lm0 k)
               /\ (forall tk0, In tk0 (pre ++ tk :: post)%list ->
                     exists answers out,
                       returns_with (tk_prog tk0) answers out
                       /\ In (Store (filename (options t)) (tk_key tk0) out)
                             (trace st1)
                       /\ get lm (tk_key tk0) = VStr out)).
    { intros p m answer s Hp' H'. rewrite Eins in H'.
      apply IH in H' as (Hwf' & Hframe & Hall);
        [|exact Hwf|rewrite map_app; exact Hnd|rewrite map_app; exact Hproto].
      split; [exact Hwf'|]. split.
      - intros k Hk. apply Hframe. rewrite map_app in *. exact Hk.
      - intros tk0 Hin. apply in_app_or in Hin as [Hin|[<-|Hin]].
        + apply Hall. apply in_or_app. now left.
        + destruct (Hall {| tk_key := tk_key tk; tk_prog := p; tk_model := m |})
            as (answers & out & Hr & Hs & Hget);
            [apply in_or_app; right; now left|].
          cbn [tk_prog tk_key] in Hr, Hs, Hget.
          exists (answer :: answers), out. split; [now apply Hp'|now split].
        + apply Hall. apply in_or_app. right. now right. }
    apply bind_inv in H as (s2 & tp & _ & H).
    destruct tp as [e|tp].
    + apply (Hstep _ _ (inl e, lm0)) in H; [exact H|].
      intros answers out Hr. rewrite Ep. now constructor.
    + apply bind_inv in H as (s3 & m & _ & H).
      apply bind_inv in H as (s4 & r & _ & H).
      apply (Hstep _ _ (r, lm0)) in H; [exact H|].
      intros answers out Hr. rewrite Ep. now constructor.
Qed.

(** The start of the async sections: every section function is applied
    to arguments whose first one is the layout model. *)
Lemma start_sections_applied (t : Template) (ro : render_options) (lm : value) :
  forall (fs : list (string * section_fn)) (st st' : state) (pending : list task),
    start_sections t ro lm fs st = (st', Returned pending) ->
    map tk_key pending = map fst fs
    /\ forall pre k f post, fs = (pre ++ (k, f) :: post)%list ->
         exists args m,
           hd VUndef args = lm
           /\ In (Invoke (filename (options t)) k args) (trace st')
           /\ In {| tk_key := k; tk_prog := f args; tk_model := m |} pending.
Proof.
  induction fs as [|[key f] fs IH]; intros st st' pending H;
    cbn [start_sections] in H.
  - apply ret_inv in H as [_ ->]. split; [reflexivity|].
    intros pre k f post E. now destruct pre.
  - apply bind_inv in H as (s1 & args & Hv & H).
    apply try_catch_throw_inv in Hv. apply viewModel_inv in Hv as (Hargs & _ & _).
    apply bind_inv in H as (s2 & u & Hli & H). apply log_inv in Hli as [Hli _].
    apply bind_inv in H as (s3 & ts & Hs & H).
    apply ret_inv in H as [<- ->].
    pose proof (proj1 (grows_start_sections t ro lm fs _ _ _ Hs)) as Hg.
    apply IH in Hs as [Hkeys Hall].
    split; [cbn [map tk_key fst]; now f_equal|].
    intros pre k f0 post E. destruct pre as [|[key' f'] pre]; cbn [app] in E.
    + injection E as <- <- <-. exists args, (model ro).
      split; [rewrite Hargs; apply built_args_hd|]. split; [|now left].
      apply (grows_In s2); [exact Hg|]. rewrite Hli. now left.
    + injection E as <- <- ->.
      destruct (Hall pre k f0 post eq_refl) as (args' & m & Hh & Hi & Hin).
      exists args', m. split; [exact Hh|]. split; [exact Hi|now right].
Qed.

Lemma seed_layout_well_formed (t : Template) (ro : render_options)
    (st st' : state) (lm : value) :
  seed_layout t ro st = (st', Returned lm) -> well_formed lm.
Proof.
  unfold seed_layout, with_ids. intros H.
  pose proof (merge_fresh_well_formed (next_id st) (layout ro)
                (config (options t))) as Hw.
  destruct (merge_fresh (next_id st) (layout ro) (config (options t))).
  injection H as _ <-. exact Hw.
Qed.

(** The law of the seed of the layout model, key by key: the config's
    value merged onto the layout's value, itself merged onto nothing. *)
Lemma seed_layout_law (t : Template) (ro : render_options) (st : state)
    (ci : N) (cp : props) :
  config (options t) = VObj ci cp ->
  NoDup (map fst cp) ->
  NoDup (map fst (own_props (layout ro))) ->
  (forall s, layout ro <> VStr s) ->
  exists (lm : value) (st' : state),
    seed_layout t ro st = (st', Returned lm)
    /\ trace st' = trace st
    /\ forall k : string,
        exists nx nx' : N,
          get lm k
          = value_of
              match lookup k cp, lookup k (own_props (layout ro)) with
              | Some cv, Some lv =>
                  merge_value nx k cv (merge_value nx' k lv None)
              | Some cv, None => merge_value nx k cv None
              | None, Some lv => merge_value nx' k lv None
              | None, None => None
              end.
Proof.
  intros Hc Hnc Hnl Hstr.
  unfold seed_layout, with_ids, merge_fresh. rewrite Hc.
  destruct (merge1 (next_id st + 1) [] (layout ro)) as [nx1 d1] eqn:H1.
  destruct (merge1 nx1 d1 (VObj ci cp)) as [nx2 d2] eqn:H2.
  eexists _, _. split; [reflexivity|]. split; [reflexivity|].
  intros k. cbn [get].
  assert (L1 : exists nx',
             lookup k d1
             = match lookup k (own_props (layout ro)) with
               | Some lv => merge_value nx' k lv None
               | None => None
               end).
  { destruct (layout ro) as [| | | |s|li lp|li lp|] eqn:El;
      try (cbn in H1; injection H1 as _ <-; now exists 0%N).
    - exfalso. now apply (Hstr s).
    - cbn [merge1] in H1. cbn [own_props] in *.
      destruct (base_merge_value false li k lp (next_id st + 1) [] Hnl)
        as [nx' L].
      cbn [container] in L. rewrite H1 in L. exists nx'. exact L.
    - cbn [merge1] in H1. cbn [own_props] in *.
      destruct (base_merge_value true li k lp (next_id st + 1) [] Hnl)
        as [nx' L].
      cbn [container] in L. rewrite H1 in L. exists nx'. exact L. }
  destruct L1 as [nx' L1].
  cbn [merge1] in H2.
  destruct (base_merge_value false ci k cp nx1 d1 Hnc) as [nx L2].
  cbn [container] in L2. rewrite H2 in L2. cbn [snd] in L2.
  exists nx, nx'. change (match lookup k d2 with Some x => x | None => VUndef end)
    with (value_of (lookup k d2)). rewrite L2, L1.
  destruct (lookup k cp) as [cv|];
    destruct (lookup k (own_props (layout ro))) as [lv|]; reflexivity.
Qed.

(** The sections of a template, in [render] and in [renderAsync]: the
    layout model is seeded, every section function is applied to
    arguments whose first one is the layout model (in [render], as the
    sections before it have left it), and what it returns is stored in
    the layout model. *)
Lemma sections_phase_applied (W : world) (async : bool) (n : nat)
    (t : Template) (ro : render_options) (st st1 : state) (lm : value) :
  NoDup (map fst (templates t)) ->
  ~ In "__proto__" (map fst (templates t)) ->
  (if async
   then renderAsync_all_sections W (Template_renderAsync W n) n t ro st
   else render_all_sections W (Template_render W n) t ro st)
    = (st1, Returned lm) ->
  exists (lm0 : value) (s0 : state),
    seed_layout t ro
      (fst (log (RenderBegin async (filename (options t))) st))
    = (s0, Returned lm0)
    /\ well_formed lm
    /\ (forall k, ~ In k (map fst (templates t)) -> get lm k = get lm0 k)
    /\ forall pre k f post, templates t = (pre ++ (k, f) :: post)%list ->
         exists args answers out,
           (forall X, (async = false -> ~ In X (map fst pre)) ->
              get (hd VUndef args) X = get lm0 X)
           /\ In (Invoke (filename (options t)) k args) (trace st1)
           /\ returns_with (f args) answers out
           /\ In (Store (filename (options t)) k out) (trace st1)
           /\ get lm k = VStr out.
Proof.
  intros Hnd Hproto Hphase. apply NoDup_ListNoDup in Hnd. destruct async.
  - unfold renderAsync_all_sections in Hphase.
    apply bind_inv in Hphase as (s1 & u & Hl & H).
    apply bind_inv in H as (s2 & lm0 & Hseed & H).
    assert (Es1 : s1 = fst (log (RenderBegin true (filename (options t))) st))
      by now rewrite Hl.
    subst s1. exists lm0, s2. split; [exact Hseed|].
    apply seed_layout_well_formed in Hseed.
    apply bind_inv in H as (s3 & pending & Hstart & H).
    apply start_sections_applied in Hstart as [Hkeys Hstart].
    pose proof (proj1 (grows_settle_all W (Template_renderAsync W n) t n _ _
                         (grows_Template_renderAsync W n) _ _ _ H)) as Hgs.
    apply settle_all_applied in H as (Hwf & Hframe & Hall);
      [|intros; apply grows_Template_renderAsync|exact Hseed
       |now rewrite Hkeys|now rewrite Hkeys].
    rewrite Hkeys in Hframe. split; [exact Hwf|]. split; [exact Hframe|].
    intros pre k f post E.
    destruct (Hstart pre k f post E) as (args & m & Hh & Hi & Hin).
    destruct (Hall _ Hin) as (answers & out & Hr & Hs & Hget).
    cbn [tk_prog tk_key] in Hr, Hs, Hget.
    exists args, answers, out. split; [|split; [|now repeat split]].
    + intros X _. now rewrite Hh.
    + exact (grows_In _ _ _ Hgs Hi).
  - unfold render_all_sections in Hphase.
    apply bind_inv in Hphase as (s1 & u & Hl & H).
    apply bind_inv in H as (s2 & lm0 & Hseed & H).
    assert (Es1 : s1 = fst (log (RenderBegin false (filename (options t))) st))
      by now rewrite Hl.
    subst s1. exists lm0, s2. split; [exact Hseed|].
    apply seed_layout_well_formed in Hseed.
    apply render_sections_applied in H as (Hwf & Hframe & Hall);
      [|intros; apply grows_Template_render|exact Hseed|exact Hnd|exact Hproto].
    split; [exact Hwf|]. split; [exact Hframe|].
    intros pre k f post E.
    destruct (Hall pre k f post E) as (args & answers & out & Hx & Hrest).
    exists args, answers, out. split; [|exact Hrest].
    intros X HX. apply Hx. now apply HX.
Qed.

End LayoutFacts.

(** ** The claims *)

Import Text Settings Js Engine Spec Fixture.
Import TextFacts ParserFacts Rules MergeFacts BuildFacts CacheFacts.
Import SectionFacts TraceFacts LayoutFacts.

(** *** C5: the body section of a template without layout *)

(** C5, as stated, fails: for a standalone page with a front-matter
    block the body section is not the text that follows the block. *)
Lemma C5_front_matter_not_removed :
  ~ (forall (W : world) (str : string) (opts : value) (st : state)
            (cfg : value) (secs : props) (ts : value) (conf rest : string),
        match_config str = Some (conf, rest) ->
        stripComment (st_settings st) = false ->
        snd (processTemplateString W str opts false st)
          = Returned (cfg, secs, ts) ->
        has_key cfg "layout" = false ->
        secs = [("body", VStr rest)]).
Proof.
  intros H.
  specialize (H (world_of []) page_titled empty_model (initial 10 [])
                (VObj 0 [("title", VStr "x")]) [("body", VStr page_titled)]
                (VObj 11 [("cache", VBool false)])
                (nl ++ "title: x" ++ nl) (nl ++ "hello")
                eq_refl eq_refl eq_refl eq_refl).
  discriminate H.
Qed.

(** C5 (amended): when the layout of the parsed config is not set, the
    sole section is [body] and it is the whole text, front-matter block
    included (after comment stripping when that is enabled, and with the
    await rewriting in async mode). *)
Theorem C5_body_is_whole_text (W : world) (str : string) (opts : value)
    (async : bool) (st : state) (cfg : value) (secs : props) (ts : value) :
  snd (processTemplateString W str opts async st) = Returned (cfg, secs, ts) ->
  truthy (get cfg "layout") = false ->
  secs = [("body",
           VStr ((if async then add_await else fun x => x)
                   (if stripComment (st_settings st) then strip_comments str
                    else str)))].
Proof.
  intros H Hl. apply run_eta in H.
  apply processTemplateString_inv in H as (_ & -> & _).
  rewrite Hl. reflexivity.
Qed.

Lemma C5_body_is_whole_text_witness :
  snd (processTemplateString (world_of []) page_titled empty_model false
         (initial 10 []))
  = Returned (VObj 0 [("title", VStr "x")], [("body", VStr page_titled)],
              VObj 11 [("cache", VBool false)])
  /\ truthy (get (VObj 0 [("title", VStr "x")]) "layout") = false
  /\ [("body", VStr page_titled)] = [("body", VStr page_titled)].
Proof.
  split; [reflexivity|]. split; [reflexivity|].
  apply (C5_body_is_whole_text (world_of []) page_titled empty_model false
           (initial 10 []) (VObj 0 [("title", VStr "x")])
           [("body", VStr page_titled)] (VObj 11 [("cache", VBool false)]));
    reflexivity.
Defined.

(** *** C6: the shape of the sections mapping *)




(** *** C8: the await rewriting of partial calls *)

(** C8, as stated, fails: a call that starts inside the argument text of
    another call is an occurrence not preceded by the suspension keyword,
    and it is left as it is. *)
Lemma C8_nested_call_not_rewritten :
  ~ (forall (W : world) (str : string) (opts : value) (st : state)
            (cfg : value) (secs : props) (ts : value),
        stripComment (st_settings st) = false ->
        snd (processTemplateString W str opts true st)
          = Returned (cfg, secs, ts) ->
        secs = sections_of (await_every "")
                 (section_bodies (truthy (get cfg "layout")) str)).
Proof.
  intros H.
  specialize (H (world_of []) page_nested_call empty_model (initial 10 [])
                (VObj 10 [])
                [("body", VStr "[[= await partial(partial('x'), 1) ]]")]
                (VObj 11 [("cache", VBool false)])
                eq_refl eq_refl).
  vm_compute in H. discriminate H.
Qed.

(** C8 (amended): in synchronous mode the section bodies are the section
    texts, not rewritten; in asynchronous mode, when no partial call
    starts inside the text of another one, every call of the form
    [partial(...)] that is not already preceded by the suspension keyword
    and white space gets the keyword in front of it, and every call that
    is so preceded is left unchanged. *)
Theorem C8_await_rewriting (W : world) (str : string) (opts : value)
    (async : bool) (st : state) (cfg : value) (secs : props) (ts : value) :
  snd (processTemplateString W str opts async st) = Returned (cfg, secs, ts) ->
  let bodies :=
    section_bodies (truthy (get cfg "layout"))
      (if stripComment (st_settings st) then strip_comments str else str) in
  (async = false -> secs = sections_of (fun body => body) bodies)
  /\ (async = true ->
      (forall name body, In (name, body) bodies -> nested_free "" body = true) ->
      secs = sections_of (await_every "") bodies).
Proof.
  intros H bodies. apply run_eta in H.
  apply processTemplateString_inv in H as (_ & -> & _).
  fold bodies. split; intros ->; [reflexivity|].
  intros Hfree. apply sections_of_ext.
  intros n b Hin. apply add_await_every. now apply (Hfree n).
Qed.

Lemma C8_await_rewriting_witness :
  snd (processTemplateString (world_of []) page_two_calls empty_model true
         (initial 10 []))
  = Returned (VObj 10 [],
              [("body", VStr "[[= await partial('a.dot') ]] [[= await partial('b.dot') ]]")],
              VObj 11 [("cache", VBool false)])
  /\ [("body", VStr "[[= await partial('a.dot') ]] [[= await partial('b.dot') ]]")]
     = sections_of (await_every "") [("body", page_two_calls)].
Proof.
  split; [reflexivity|].
  refine (proj2 (C8_await_rewriting (world_of []) page_two_calls empty_model true
                   (initial 10 []) (VObj 10 []) _ (VObj 11 [("cache", VBool false)])
                   eq_refl) eq_refl _).
  intros name body [E|[]]. injection E as _ <-. reflexivity.
Defined.

(** *** C7: the seed of the layout model *)

Local Open Scope engine_scope.

(** C7, as stated, fails: where the caller layout and the config both hold
    an object under a key, the seed holds their recursive merge and not
    the config's value. *)
Lemma C7_nested_objects_are_merged :
  ~ (forall (t : Template) (ro : render_options) (st st' : state) (lm : value),
        seed_layout t ro st = (st', Returned lm) ->
        forall k : string,
          (has_key (config (options t)) k = true ->
           content (get lm k) = content (get (config (options t)) k))
          /\ (has_key (config (options t)) k = false ->
              content (get lm k) = content (get (layout ro) k))).
Proof.
  intros H.
  destruct (H (template_of_config config_with_meta)
              {| layout := layout_with_meta; model := empty_model;
                 isPartial := false |}
              (initial 10 []) _ _ eq_refl "meta") as [Hc _].
  specialize (Hc eq_refl). vm_compute in Hc. discriminate Hc.
Qed.

(** C7 (amended): in [render] and in [renderAsync] the sections are
    rendered into the layout model seeded as [_.merge({}, layout, config)],
    and every section function is applied to arguments whose first one
    is that model (in [render], with what the sections before it have
    stored).  The value of the seed under every top-level key is the
    config's value merged onto the caller layout's value, itself merged
    onto nothing: a config value that is not a plain object, an array or
    [undefined] takes the place of the layout's; an [undefined] or
    missing config value leaves the layout's; a plain object or an array
    is merged with the layout's value, and the object or array made of
    it follows the same law for each of its own keys, at every depth;
    under the key [__proto__] a plain object or an array is left out. *)
Theorem C7_seed_is_merge (W : world) (async : bool)
    (rnd : Template -> render_options -> M string) (fuel : nat)
    (t : Template) (ro : render_options) (st : state) (ci : N) (cp : props) :
  config (options t) = VObj ci cp ->
  NoDup (map fst cp) ->
  NoDup (map fst (own_props (layout ro))) ->
  (forall s, layout ro <> VStr s) ->
  exists (lm0 : value) (st0 : state),
    seed_layout t ro (fst (log (RenderBegin async (filename (options t))) st))
    = (st0, Returned lm0)
    /\ (if async then renderAsync_all_sections W rnd fuel t ro st
        else render_all_sections W rnd t ro st)
       = (if async
          then (let* pending := start_sections t ro lm0 (templates t) in
                settle_all W rnd fuel t lm0 pending) st0
          else render_sections W rnd t ro lm0 (templates t) st0)
    /\ (forall (n : nat) (st1 : state) (lm : value),
          NoDup (map fst (templates t)) ->
          ~ In "__proto__" (map fst (templates t)) ->
          (if async
           then renderAsync_all_sections W (Template_renderAsync W n) n t ro st
           else render_all_sections W (Template_render W n) t ro st)
            = (st1, Returned lm) ->
          forall pre k f post,
            templates t = (pre ++ (k, f) :: post)%list ->
            exists args answers out,
              In (Invoke (filename (options t)) k args) (trace st1)
              /\ (forall X, (async = false -> ~ In X (map fst pre)) ->
                    get (hd VUndef args) X = get lm0 X)
              /\ returns_with (f args) answers out)
    /\ (forall k : string,
          exists nx nx' : N,
            get lm0 k
            = value_of
                match lookup k cp, lookup k (own_props (layout ro)) with
                | Some cv, Some lv =>
                    merge_value nx k cv (merge_value nx' k lv None)
                | Some cv, None => merge_value nx k cv None
                | None, Some lv => merge_value nx' k lv None
                | None, None => None
                end)
    /\ (forall (nx : N) (sv : value) (dv : option value) (k : string),
          is_container sv = true -> NoDup (map fst (own_props sv)) ->
          exists nx' : N,
            lookup k (own_props (snd (merge_into nx sv dv)))
            = match lookup k (own_props sv) with
              | None => lookup k (target_props sv dv)
              | Some x => merge_value nx' k x (lookup k (target_props sv dv))
              end).
Proof.
  intros Hc Hnc Hnl Hstr.
  destruct (seed_layout_law t ro
              (fst (log (RenderBegin async (filename (options t))) st))
              ci cp Hc Hnc Hnl Hstr) as (lm0 & st0 & Hrun & _ & Hlaw).
  exists lm0, st0. split; [exact Hrun|].
  split; [|split; [|split; [exact Hlaw|]]].
  - destruct async;
      [unfold renderAsync_all_sections|unfold render_all_sections];
      unfold bind at 1; cbn [log fst] in *; unfold bind at 1;
      rewrite Hrun; reflexivity.
  - intros n st1 lm Hnd Hproto Hphase pre k f post E.
    destruct (sections_phase_applied W async n t ro st st1 lm Hnd Hproto Hphase)
      as (lm0' & s0 & Hseed & _ & _ & Hall).
    rewrite Hrun in Hseed. injection Hseed as _ <-.
    destruct (Hall pre k f post E) as (args & answers & out & Hx & Hi & Hr & _).
    now exists args, answers, out.
  - intros nx sv dv k Hsv Hnd. now apply merge_into_value.
Qed.

Lemma C7_seed_is_merge_witness :
  let t := template_of_config config_with_meta in
  let ro := {| layout := layout_with_meta; model := empty_model;
               isPartial := false |} in
  exists (lm0 : value) (st0 : state),
    seed_layout t ro
      (fst (log (RenderBegin true (filename (options t))) (initial 10 [])))
    = (st0, Returned lm0)
    /\ renderAsync_all_sections (world_of []) (Template_renderAsync (world_of []) 1)
         1 t ro (initial 10 [])
       = (let* pending := start_sections t ro lm0 (templates t) in
          settle_all (world_of []) (Template_renderAsync (world_of []) 1) 1 t lm0
                     pending) st0
    /\ get lm0 "lang" = VStr "en" /\ get lm0 "title" = VStr "from-child"
    /\ content (get lm0 "meta")
       = VObj 0 [("a", VNum 1); ("b", VNum 2)].
Proof.
  intros t ro.
  destruct (C7_seed_is_merge (world_of []) true
              (Template_renderAsync (world_of []) 1) 1 t ro (initial 10 []) 4
              [("meta", VObj 5 [("b", VNum 2)]); ("lang", VStr "en")])
    as (lm0 & st0 & Hrun & Hphase & _ & Hk & _).
  - reflexivity.
  - refine (bool_decide_unpack _ _). vm_compute. exact I.
  - refine (bool_decide_unpack _ _). vm_compute. exact I.
  - discriminate.
  - exists lm0, st0. split; [exact Hrun|]. split; [exact Hphase|].
    split; [|split].
    + destruct (Hk "lang") as (nx & nx' & E). rewrite E. reflexivity.
    + destruct (Hk "title") as (nx & nx' & E). rewrite E. reflexivity.
    + destruct (Hk "meta") as (nx & nx' & E). rewrite E. reflexivity.
Defined.

(** *** C10: the two cache stores *)

(** C10: started from stores that hold templates of their own mode (the
    empty stores of a fresh process do), every sequence of operations
    (renders without callback, with a callback and async, from a file
    and from a string, and clearings) leaves the sync store with sync
    templates only and the async store with async templates only; the
    sync getter never returns an async template nor the async getter a
    sync one; the sync getter in callback form calls its callback with
    sync templates only (what it does is the same for any two callbacks
    that agree on errors and on sync templates); and a render operation
    whose options do not set the cache flag neither reads nor writes
    either store. *)
Theorem C10_caches_disjoint_and_opt_in (W : world) :
  (forall (ops : list (nat * op)) (st : state),
      cache_typed st -> cache_typed (run_ops W ops st))
  /\ (forall file opts st st' t,
        cache_typed st ->
        getTemplate W file opts st = (st', Returned t) -> isAsync t = false)
  /\ (forall file opts st st' t,
        cache_typed st ->
        getTemplateAsync W file opts st = (st', Returned t) -> isAsync t = true)
  /\ (forall file opts (cb cb' : error + Template -> M Callback.delivery) st,
        cache_typed st ->
        (forall e s, cb (inl e) s = cb' (inl e) s) ->
        (forall t s, isAsync t = false -> cb (inr t) s = cb' (inr t) s) ->
        Callback.getTemplate_cb W (Callback.loader_of W) file opts cb st
        = Callback.getTemplate_cb W (Callback.loader_of W) file opts cb' st)
  /\ (forall (fuel : nat) (o : op) (opts : value) (st : state),
        op_options o = Some opts -> truthy (get opts "cache") = false ->
        stores_untouched st (run_op W fuel o st)).
Proof.
  split; [|split; [|split; [|split]]].
  - intros ops st. apply typed_run_ops.
  - intros file opts st st' t. apply getTemplate_mode.
  - intros file opts st st' t. apply getTemplateAsync_mode.
  - intros file opts cb cb' st. apply getTemplate_cb_mode.
  - intros fuel o opts st. apply off_run_op.
Qed.

Lemma C10_caches_disjoint_and_opt_in_witness :
  cache_typed (initial 10 [])
  /\ cache_typed
       (run_ops (world_of files_page)
          [(3, OpRender "views/page.dot" cached_model);
           (3, OpRenderAsync "views/page.dot" cached_model);
           (3, OpRenderCb "views/page.dot" cached_model);
           (3, OpRender "views/page.dot" plain_model)]
          (initial 10 []))
  /\ stores_untouched (initial 10 [])
       (run_op (world_of files_page) 3 (OpRenderCb "views/page.dot" plain_model)
          (initial 10 [])).
Proof.
  assert (T : cache_typed (initial 10 [])).
  { split; intros key t; cbn [initial cache asyncCache];
      rewrite lookup_empty; discriminate. }
  split; [exact T|]. split.
  - apply (proj1 (C10_caches_disjoint_and_opt_in (world_of files_page))).
    exact T.
  - apply (proj2 (proj2 (proj2 (proj2
             (C10_caches_disjoint_and_opt_in (world_of files_page)))))
             3 (OpRenderCb "views/page.dot" plain_model) plain_model);
      reflexivity.
Defined.

(** *** C9: a section that throws *)

(** C9 at a page whose section throws: [render] raises the error wrapped
    with the template's file name, [renderAsync] rejects with the original
    error, not wrapped and without the file name. *)
Theorem C9_async_failure_not_wrapped :
  snd (render (world_of files_broken) 3 "views/broken.dot" empty_model
         (initial 10 []))
  = Thrown (render_error "views/broken.dot"
              (TypeError "Cannot read properties (reading 'name')"))
  /\ snd (renderAsync (world_of files_broken) 3 "views/broken.dot" empty_model
            (initial 10 []))
     = Thrown (TypeError "Cannot read properties (reading 'name')").
Proof. split; vm_compute; reflexivity. Qed.

(** *** C3: the model of a partial *)

(** C3 at a page that calls the helper first with extra data and then
    with a path only: the second partial is rendered against the model
    merged for the first call, and prints the extra field [media] that
    the caller's model does not have. *)
Theorem C3_later_call_sees_earlier_extra_data :
  let r := render (world_of files_partials) 3 "views/child.dot" plain_model
             (initial 10 []) in
  snd r = Returned "A x"
  /\ map (fun args => nth 3 args VUndef)
         (invocations "views/b.dot" (trace (fst r)))
     = [VObj 15 [("name", VStr "x"); ("media", VStr "x")]]
  /\ get plain_model "media" = VUndef.
Proof. repeat split; vm_compute; reflexivity. Qed.

(** *** C4: the arguments of a section *)

(** C4 fails in [render]: with a view shortcut configured, [render]
    builds no argument list and applies no section; it throws the
    wrapped [TypeError] of the shortcut callback, which reads
    [this.shortcuts] without [this] being the template.  [renderAsync],
    on the same file and options, applies the section to the four fixed
    arguments followed by the value of the shortcut, and returns the
    page. *)
Theorem C4_sync_render_fails_with_shortcut :
  let W := world_of files_page in
  let r := render W 3 "views/page.dot" model_with_shortcut (initial 10 []) in
  let ra := renderAsync W 3 "views/page.dot" model_with_shortcut (initial 10 []) in
  (exists what : string,
      snd r = Thrown (render_error "views/page.dot" (TypeError what)))
  /\ (forall key args, ~ In (Invoke "views/page.dot" key args) (trace (fst r)))
  /\ snd ra = Returned "hello x"
  /\ trace (fst ra)
     = [Store "views/page.dot" "body" "hello x";
        Invoke "views/page.dot" "body"
          [VObj 12 []; VFun 13; VObj 4 [("title", VStr "Home")];
           model_with_shortcut; VStr "Home"];
        RenderBegin true "views/page.dot"].
Proof.
  intros W r ra. split; [|split; [|split]].
  - exists "this.shortcuts". vm_compute. reflexivity.
  - intros key args Hin.
    assert (E : trace (fst r) = [RenderBegin false "views/page.dot"])
      by (vm_compute; reflexivity).
    rewrite E in Hin. destruct Hin as [Hin|[]]. discriminate Hin.
  - vm_compute. reflexivity.
  - vm_compute. reflexivity.
Qed.

(** *** C2: the result of a template without layout *)





(** *** C1: a two-level layout *)

(** C1, as stated, fails: when the master's own front matter has the key
    of the section, the master's reference to that name resolves to the
    master's config value and not to the child's output. *)
Lemma C1_master_config_shadows_section :
  ~ (forall (W : world) (fuel : nat) (file mfile : string) (opts : value)
            (st st1 st' : state) (t : Template) (r X out : string)
            (args : list value),
        getTemplate W file opts st = (st1, Returned t) ->
        master t = Some mfile ->
        Template_render W fuel t (top_options opts) st1 = (st', Returned r) ->
        In (Store file X out) (trace st') ->
        In (Invoke mfile "body" args) (trace st') ->
        get (hd VUndef args) X = VStr out).
Proof.
  intros H.
  set (W := world_of files_layout_shadowed).
  set (g := getTemplate W "views/child.dot" empty_model (initial 10 [])).
  set (t := returned (template_of_config VUndef) g).
  set (p := Template_render W 3 t (top_options empty_model) (fst g)).
  assert (Hg : g = (fst g, Returned t)) by (vm_compute; reflexivity).
  assert (Hm : master t = Some "views/master.dot") by (vm_compute; reflexivity).
  assert (Hp : p = (fst p, Returned (returned "" p)))
    by (vm_compute; reflexivity).
  assert (Hs : In (Store "views/child.dot" "section" "test-child")
                  (trace (fst p))).
  { vm_compute. right. right. right. left. reflexivity. }
  assert (Hi : In (Invoke "views/master.dot" "body"
                     [VObj 17 [("layout", VStr "master.dot");
                               ("section", VStr "from-master")];
                      VFun 18; VObj 19 []; empty_model])
                  (trace (fst p))).
  { vm_compute. right. left. reflexivity. }
  specialize (H W 3 "views/child.dot" "views/master.dot" empty_model
                (initial 10 []) (fst g) (fst p) t (returned "" p)
                "section" "test-child" _ Hg Hm Hp Hs Hi).
  vm_compute in H. discriminate H.
Qed.

(** C1 (amended): in a two-level layout, every section function of the
    child is applied (the application is recorded with its arguments)
    and what it returns is stored in the shared layout mapping; the
    render of the child then is the render of the master, begun after
    those stores, with that mapping as its layout.  When the sections of
    the master have been rendered, each of its section functions has
    been applied to arguments whose first one, the master's layout
    model, holds under [X] exactly what the child's section [X]
    returned, provided the master's own front matter does not have the
    key [X] (and, in [render], no earlier section of the master has that
    name); what the master's function returned is what the master
    stored, and for a master without layout the render of the child
    returns the header followed by the master's [body].  This holds for
    [render] and for [renderAsync], for templates whose section names
    are pairwise different and are not [__proto__], as the parser builds
    them. *)
Theorem C1_two_level_layout (W : world) (async : bool) (t mt : Template)
    (ro : render_options) (n : nat) (st st1 st2 : state) (lm : value)
    (mp : string) (ci : N) (cp : props) :
  isLayout t = true -> master t = Some mp ->
  NoDup (map fst (templates t)) -> ~ In "__proto__" (map fst (templates t)) ->
  (if async
   then renderAsync_all_sections W (Template_renderAsync W (S n)) (S n) t ro st
   else render_all_sections W (Template_render W (S n)) t ro st)
    = (st1, Returned lm) ->
  (if async then getTemplateAsync W mp (express (options t)) st1
   else getTemplate W mp (express (options t)) st1) = (st2, Returned mt) ->
  config (options mt) = VObj ci cp -> NoDup (map fst cp) ->
  NoDup (map fst (templates mt)) -> ~ In "__proto__" (map fst (templates mt)) ->
  let ro' := {| layout := lm; model := model ro; isPartial := false |} in
  (forall X f, In (X, f) (templates t) ->
     exists args answers out,
       In (Invoke (filename (options t)) X args) (trace st1)
       /\ returns_with (f args) answers out
       /\ In (Store (filename (options t)) X out) (trace st1)
       /\ get lm X = VStr out)
  /\ grows st1 st2
  /\ (if async then Template_renderAsync W (S (S n)) t ro st
      else Template_render W (S (S n)) t ro st)
     = (if async then Template_renderAsync W (S n) mt ro' st2
        else Template_render W (S n) mt ro' st2)
  /\ (forall st3 lm',
        (if async
         then renderAsync_all_sections W (Template_renderAsync W n) n mt ro' st2
         else render_all_sections W (Template_render W n) mt ro' st2)
          = (st3, Returned lm') ->
        (forall pre k g post,
            templates mt = (pre ++ (k, g) :: post)%list ->
            exists args answers outm,
              (forall X out,
                  get lm X = VStr out -> lookup X cp = None ->
                  (async = false -> ~ In X (map fst pre)) ->
                  get (hd VUndef args) X = VStr out)
              /\ In (Invoke (filename (options mt)) k args) (trace st3)
              /\ returns_with (g args) answers outm
              /\ In (Store (filename (options mt)) k outm) (trace st3)
              /\ get lm' k = VStr outm)
        /\ (isLayout mt = false ->
            (if async then Template_renderAsync W (S (S n)) t ro st
             else Template_render W (S (S n)) t ro st)
            = (st3, Returned (header (st_settings st3)
                              ++ to_string (get lm' "body"))))).
Proof.
  intros Hl Hm Hnd Hproto Hphase Hget Hc Hncp Hndm Hprotom ro'.
  destruct (sections_phase_applied W async (S n) t ro st st1 lm Hnd Hproto Hphase)
    as (lm0 & s0 & _ & Hwf & _ & Hall).
  assert (Heq : (if async then Template_renderAsync W (S (S n)) t ro st
                 else Template_render W (S (S n)) t ro st)
                = (if async then Template_renderAsync W (S n) mt ro' st2
                   else Template_render W (S n) mt ro' st2)).
  { destruct async;
      [change (Template_renderAsync W (S (S n)) t ro st)
         with ((let* lm := renderAsync_all_sections W
                             (Template_renderAsync W (S n)) (S n) t ro in
                if negb (isLayout t) then final_result ro lm
                else
                  let* mp := master_path t in
                  let* masterTemplate :=
                    getTemplateAsync W mp (express (options t)) in
                  Template_renderAsync W (S n) masterTemplate
                    {| layout := lm; model := model ro; isPartial := false |}) st)
      |change (Template_render W (S (S n)) t ro st)
         with ((let* lm := render_all_sections W (Template_render W (S n)) t ro in
                if negb (isLayout t) then final_result ro lm
                else
                  let* mp := master_path t in
                  let* masterTemplate := getTemplate W mp (express (options t)) in
                  Template_render W (S n) masterTemplate
                    {| layout := lm; model := model ro; isPartial := false |}) st)];
      unfold bind at 1; rewrite Hphase, Hl; cbn [negb];
      unfold bind at 1, master_path; rewrite Hm; unfold ret at 1;
      unfold bind at 1; rewrite Hget; reflexivity. }
  split; [|split; [|split; [exact Heq|]]].
  - intros X f Hin. apply in_split in Hin as (pre & post & E).
    destruct (Hall pre X f post E)
      as (args & answers & out & _ & Hi & Hr & Hs & Hg).
    now exists args, answers, out.
  - destruct async.
    + exact (proj1 (grows_getTemplateAsync W mp _ _ _ _ Hget)).
    + exact (proj1 (grows_getTemplate W mp _ _ _ _ Hget)).
  - intros st3 lm' Hmaster.
    destruct (sections_phase_applied W async n mt ro' st2 st3 lm' Hndm Hprotom
                Hmaster) as (lm_m & s1 & Hseed & Hwf' & _ & Hallm).
    split.
    + intros pre k g post E.
      destruct (Hallm pre k g post E) as (args & answers & outm & Hx & Hrest).
      exists args, answers, outm. split; [|exact Hrest].
      intros X out HX Hnone Hpre. rewrite (Hx X Hpre).
      destruct Hwf as (li & lo & Elm & Hlo).
      destruct (seed_layout_law mt ro'
                  (fst (log (RenderBegin async (filename (options mt))) st2))
                  ci cp Hc Hncp) as (lm1 & s1' & Hrun & _ & Hlaw).
      { cbn [ro' layout]. rewrite Elm. exact Hlo. }
      { cbn [ro' layout]. rewrite Elm. discriminate. }
      rewrite Hrun in Hseed. injection Hseed as _ <-.
      destruct (Hlaw X) as (nx & nx' & EX). rewrite EX, Hnone.
      cbn [ro' layout]. rewrite Elm in *. cbn [own_props get] in *.
      destruct (lookup X lo) as [v|]; [|discriminate]. subst v. reflexivity.
    + intros Hml. rewrite Heq.
      destruct async;
        [change (Template_renderAsync W (S n) mt ro' st2)
           with ((let* lm := renderAsync_all_sections W
                               (Template_renderAsync W n) n mt ro' in
                  if negb (isLayout mt) then final_result ro' lm
                  else
                    let* mp := master_path mt in
                    let* masterTemplate :=
                      getTemplateAsync W mp (express (options mt)) in
                    Template_renderAsync W n masterTemplate
                      {| layout := lm; model := model ro';
                         isPartial := false |}) st2)
        |change (Template_render W (S n) mt ro' st2)
           with ((let* lm := render_all_sections W (Template_render W n) mt ro' in
                  if negb (isLayout mt) then final_result ro' lm
                  else
                    let* mp := master_path mt in
                    let* masterTemplate :=
                      getTemplate W mp (express (options mt)) in
                    Template_render W n masterTemplate
                      {| layout := lm; model := model ro';
                         isPartial := false |}) st2)];
        unfold bind at 1; rewrite Hmaster, Hml; reflexivity.
Qed.

Lemma C1_two_level_layout_witness :
  let W := world_of files_layout in
  let ro := top_options empty_model in
  let g := getTemplate W "views/child.dot" empty_model (initial 10 []) in
  let t := returned (template_of_config VUndef) g in
  let p := render_all_sections W (Template_render W 2) t ro (fst g) in
  let lm := returned VUndef p in
  let gm := getTemplate W "views/master.dot" (express (options t)) (fst p) in
  let mt := returned (template_of_config VUndef) gm in
  let ro' := {| layout := lm; model := empty_model; isPartial := false |} in
  let pm := render_all_sections W (Template_render W 1) mt ro' (fst gm) in
  let ga := getTemplateAsync W "views/child.dot" empty_model (initial 10 []) in
  let ta := returned (template_of_config VUndef) ga in
  let pa := renderAsync_all_sections W (Template_renderAsync W 2) 2 ta ro
              (fst ga) in
  let lma := returned VUndef pa in
  let gma := getTemplateAsync W "views/master.dot" (express (options ta))
               (fst pa) in
  let mta := returned (template_of_config VUndef) gma in
  (p = (fst p, Returned lm)
   /\ gm = (fst gm, Returned mt)
   /\ get lm "section" = VStr "test-child"
   /\ Template_render W 3 t ro (fst g) = Template_render W 2 mt ro' (fst gm)
   /\ snd (Template_render W 3 t ro (fst g)) = Returned "test-master test-child"
   /\ exists args,
       In (Invoke "views/master.dot" "body" args) (trace (fst pm))
       /\ get (hd VUndef args) "section" = VStr "test-child")
  /\ (pa = (fst pa, Returned lma)
      /\ gma = (fst gma, Returned mta)
      /\ get lma "section" = VStr "test-child"
      /\ Template_renderAsync W 3 ta ro (fst ga)
         = Template_renderAsync W 2 mta
             {| layout := lma; model := empty_model; isPartial := false |}
             (fst gma)
      /\ snd (Template_renderAsync W 3 ta ro (fst ga))
         = Returned "test-master test-child").
Proof.
  intros W ro g t p lm gm mt ro' pm ga ta pa lma gma mta.
  assert (Hl : isLayout t = true) by (vm_compute; reflexivity).
  assert (Hm : master t = Some "views/master.dot") by (vm_compute; reflexivity).
  assert (Hp : p = (fst p, Returned lm)) by (vm_compute; reflexivity).
  assert (Hg : gm = (fst gm, Returned mt)) by (vm_compute; reflexivity).
  assert (Hla : isLayout ta = true) by (vm_compute; reflexivity).
  assert (Hma : master ta = Some "views/master.dot") by (vm_compute; reflexivity).
  assert (Hpa : pa = (fst pa, Returned lma)) by (vm_compute; reflexivity).
  assert (Hga : gma = (fst gma, Returned mta)) by (vm_compute; reflexivity).
  assert (Hk : forall x : Template,
             map fst (templates x) = ["section"] \/ map fst (templates x) = ["body"] ->
             NoDup (map fst (templates x))
             /\ ~ In "__proto__" (map fst (templates x))).
  { intros x [E|E]; rewrite E; (split; [apply NoDup_singleton|]);
      intros [H|[]]; discriminate H. }
  assert (Kt : map fst (templates t) = ["section"]) by (vm_compute; reflexivity).
  assert (Kmt : map fst (templates mt) = ["body"]) by (vm_compute; reflexivity).
  assert (Kta : map fst (templates ta) = ["section"]) by (vm_compute; reflexivity).
  assert (Kmta : map fst (templates mta) = ["body"]) by (vm_compute; reflexivity).
  assert (Hc : config (options mt) = VObj 15 []) by (vm_compute; reflexivity).
  assert (Hca : config (options mta) = VObj 15 []) by (vm_compute; reflexivity).
  assert (Hsec : get lm "section" = VStr "test-child") by (vm_compute; reflexivity).
  split.
  - destruct (C1_two_level_layout W false t mt ro 1 (fst g) (fst p) (fst gm) lm
                "views/master.dot" 15 [] Hl Hm
                (proj1 (Hk t (or_introl Kt))) (proj2 (Hk t (or_introl Kt)))
                Hp Hg Hc (NoDup_nil_2 (A := string))
                (proj1 (Hk mt (or_intror Kmt)))
                (proj2 (Hk mt (or_intror Kmt))))
      as (_ & _ & Heq & Hmaster).
    split; [exact Hp|]. split; [exact Hg|]. split; [exact Hsec|].
    split; [exact Heq|]. split; [vm_compute; reflexivity|].
    assert (Hpm : pm = (fst pm, Returned (returned VUndef pm)))
      by (vm_compute; reflexivity).
    destruct (Hmaster (fst pm) (returned VUndef pm) Hpm) as [Hargs _].
    destruct (templates mt) as [|[k body] [|x rest]] eqn:Et; try discriminate Kmt.
    injection Kmt as ->.
    destruct (Hargs [] "body" body [] eq_refl)
      as (args & answers & outm & Hx & Hi & _).
    exists args. split.
    + assert (Ef : filename (options mt) = "views/master.dot")
        by (vm_compute; reflexivity).
      rewrite Ef in Hi. exact Hi.
    + apply Hx; [exact Hsec|reflexivity|]. intros _ [].
  - split; [exact Hpa|]. split; [exact Hga|].
    split; [vm_compute; reflexivity|].
    split; [|vm_compute; reflexivity].
    exact (proj1 (proj2 (proj2
             (C1_two_level_layout W true ta mta ro 1 (fst ga) (fst pa) (fst gma)
                lma "views/master.dot" 15 [] Hla Hma
                (proj1 (Hk ta (or_introl Kta))) (proj2 (Hk ta (or_introl Kta)))
                Hpa Hga Hca (NoDup_nil_2 (A := string))
                (proj1 (Hk mta (or_intror Kmta)))
                (proj2 (Hk mta (or_intror Kmta))))))).
Defined.

(** ** Further properties *)

Import Props Callback.

(** *** The front-matter block *)

(** X1: a text has a front-matter block exactly when it is the opening
    marker, a non-empty content, the closing marker and a remainder; the
    block found then ends at the first closing marker that leaves the
    content non-empty, so the content is the shortest possible. *)
Theorem front_matter_is_shortest_block (str : string) :
  (match_config str <> None <->
   exists conf rest, conf <> "" /\ str = "---" ++ conf ++ "---" ++ rest)
  /\ forall conf rest,
       match_config str = Some (conf, rest) ->
       str = "---" ++ conf ++ "---" ++ rest /\ conf <> ""
       /\ forall conf' rest',
            conf' <> "" -> str = "---" ++ conf' ++ "---" ++ rest' ->
            String.length conf <= String.length conf'.
Proof.
  assert (Sound : forall conf rest,
            match_config str = Some (conf, rest) ->
            str = "---" ++ conf ++ "---" ++ rest /\ conf <> "").
  { intros conf rest H. unfold match_config in H.
    destruct (String.prefix "---" str) eqn:Hp; [|discriminate].
    apply prefix_app in Hp. apply lazy_until_app in H as [E Hne].
    split; [|exact Hne]. rewrite Hp at 1. change (String.length "---") with 3.
    now rewrite E. }
  split.
  - split.
    + intros H. destruct (match_config str) as [[conf rest]|] eqn:E; [|contradiction].
      exists conf, rest. destruct (Sound _ _ eq_refl) as [-> Hne]. now split.
    + intros (conf & rest & Hne & ->). unfold match_config.
      rewrite prefix_self. change (drop 3 ("---" ++ conf ++ "---" ++ rest))
        with (conf ++ "---" ++ rest).
      destruct conf as [|c conf]; [contradiction|].
      rewrite append_cons. cbn [lazy_until].
      pose proof (find_sub_complete "---" conf rest) as Hc.
      destruct (find_sub "---" (conf ++ "---" ++ rest)) as [[a b]|];
        [discriminate|contradiction].
  - intros conf rest H. destruct (Sound _ _ H) as [E Hne].
    split; [exact E|]. split; [exact Hne|].
    intros conf' rest' Hne' E'. unfold match_config in H.
    destruct (String.prefix "---" str); [|discriminate].
    rewrite E' in H.
    change (drop 3 ("---" ++ conf' ++ "---" ++ rest'))
      with (conf' ++ "---" ++ rest') in H.
    destruct conf' as [|c conf']; [contradiction|].
    rewrite append_cons in H. cbn [lazy_until] in H.
    destruct (find_sub "---" (conf' ++ "---" ++ rest')) as [[a b]|] eqn:Hf;
      [|discriminate].
    injection H as <- <-. cbn [String.length]. apply le_n_S.
    exact (find_sub_first "---" _ a b conf' rest' Hf eq_refl).
Qed.

Lemma front_matter_is_shortest_block_witness :
  match_config page_child
  = Some (nl ++ "layout: master.dot" ++ nl, nl ++ "[[##section:test-child#]]")
  /\ page_child
     = "---" ++ (nl ++ "layout: master.dot" ++ nl) ++ "---"
       ++ (nl ++ "[[##section:test-child#]]").
Proof.
  split; [reflexivity|].
  exact (proj1 (proj2 (front_matter_is_shortest_block page_child) _ _ eq_refl)).
Defined.

(** *** The rewriting of async sections *)

Lemma add_await_from_no_call (s : string) :
  forall before, find_sub "partial" s = None -> add_await_from before 0 s = s.
Proof.
  induction s as [|c s IH]; intros before H; [reflexivity|].
  cbn [add_await_from]. unfold match_partial.
  rewrite (find_sub_none_prefix _ _ H), !andb_false_r.
  f_equal. apply IH. exact (find_sub_none_tail _ _ _ H).
Qed.

Lemma match_partial_prefix (before s : string) (len : nat) :
  match_partial before s = Some len -> String.prefix "partial" s = true.
Proof.
  unfold match_partial.
  destruct (String.prefix "partial" s); [reflexivity|].
  rewrite !andb_false_r. discriminate.
Qed.

Lemma awaits_added_from (s : string) :
  forall before k, awaits_added s (add_await_from before k s).
Proof.
  induction s as [|c s IH]; intros before k; [constructor|].
  cbn [add_await_from]. destruct k as [|k].
  - destruct (match_partial before (String c s)) as [len|] eqn:E.
    + apply AA_await; [exact (match_partial_prefix _ _ _ E)|apply IH].
    + apply AA_keep, IH.
  - apply AA_keep, IH.
Qed.

(** X2: the rewriting of an async section never removes or changes
    text: its result is the section with [await] and a space put in
    front of some of the places where the word [partial] starts; a
    section in which the word [partial] does not occur is left as it
    is. *)
Theorem add_await_only_touches_calls (s : string) :
  awaits_added s (add_await s)
  /\ (find_sub "partial" s = None -> add_await s = s).
Proof.
  split; [apply awaits_added_from|apply add_await_from_no_call].
Qed.

Lemma add_await_only_touches_calls_witness :
  add_await "[[= model.title ]]" = "[[= model.title ]]".
Proof.
  apply (proj2 (add_await_only_touches_calls "[[= model.title ]]")).
  reflexivity.
Defined.

(** *** The removal of comments *)

Lemma strip_comments_skip (x y : string) :
  strip_comments_from (String.length x) (x ++ y) = strip_comments_from 0 y.
Proof.
  induction x as [|c x IH]; [reflexivity|].
  rewrite append_cons. cbn [String.length strip_comments_from]. exact IH.
Qed.

Lemma length_strip_comments_from (s : string) :
  forall k, String.length (strip_comments_from k s) <= String.length s.
Proof.
  induction s as [|c s IH]; intros k; [apply Nat.le_refl|].
  cbn [strip_comments_from]. destruct k as [|k].
  - destruct (String.prefix "<!--" (String c s)).
    + destruct (lazy_until "-->" (drop 4 (String c s))) as [[body r]|].
      * cbn [String.length]. specialize (IH (String.length body + 6)). lia.
      * cbn [String.length]. apply le_n_S, IH.
    + cbn [String.length]. apply le_n_S, IH.
  - cbn [String.length]. specialize (IH k). lia.
Qed.

Lemma strip_comments_no_open (s : string) :
  find_sub "<!--" s = None -> strip_comments_from 0 s = s.
Proof.
  induction s as [|c s IH]; intros H; [reflexivity|].
  cbn [strip_comments_from]. rewrite (find_sub_none_prefix _ _ H).
  f_equal. apply IH. exact (find_sub_none_tail _ _ _ H).
Qed.

Lemma find_sub_none_drop (pat : string) (n : nat) :
  forall s, find_sub pat s = None -> find_sub pat (drop n s) = None.
Proof.
  induction n as [|n IH]; intros s H; [exact H|].
  destruct s as [|c s]; [exact H|].
  cbn [drop]. apply IH. exact (find_sub_none_tail _ _ _ H).
Qed.

Lemma lazy_until_none (pat s : string) :
  find_sub pat s = None -> lazy_until pat s = None.
Proof.
  intros H. unfold lazy_until. destruct s as [|c s]; [reflexivity|].
  now rewrite (find_sub_none_tail _ _ _ H).
Qed.

Lemma strip_comments_no_close (s : string) :
  find_sub "-->" s = None -> strip_comments_from 0 s = s.
Proof.
  induction s as [|c s IH]; intros H; [reflexivity|].
  cbn [strip_comments_from].
  rewrite (lazy_until_none _ _ (find_sub_none_drop "-->" 4 _ H)).
  rewrite (IH (find_sub_none_tail _ _ _ H)).
  now destruct (String.prefix "<!--" (String c s)).
Qed.

(** X3: removing the comments never makes the text longer; a text
    without an opening marker, or without a closing marker, is left as it
    is; otherwise the text up to the first opening marker is kept, the
    comment that starts there (up to the first closing marker after at
    least one character) is dropped, and the removal goes on after it. *)
Theorem strip_comments_first_comment (s : string) :
  String.length (strip_comments s) <= String.length s
  /\ (find_sub "<!--" s = None \/ find_sub "-->" s = None ->
      strip_comments s = s)
  /\ (forall a rest body b,
        find_sub "<!--" s = Some (a, rest) ->
        lazy_until "-->" rest = Some (body, b) ->
        strip_comments s = a ++ strip_comments b).
Proof.
  split; [apply length_strip_comments_from|].
  split; [intros [H|H]; [now apply strip_comments_no_open
                        |now apply strip_comments_no_close]|].
  unfold strip_comments. induction s as [|c s IH]; intros a rest body b H L.
  - discriminate.
  - cbn [find_sub] in H. cbn [strip_comments_from].
    destruct (String.prefix "<!--" (String c s)) eqn:Hp.
    + injection H as <- <-.
      change (lazy_until "-->" (drop 4 (String c s)) = Some (body, b)) in L.
      rewrite L. rewrite append_nil.
      apply prefix_app in Hp. change (String.length "<!--") with 4 in Hp.
      apply lazy_until_app in L as [E _]. rewrite E in Hp.
      injection Hp as _ Hs. rewrite Hs.
      change ("!--" ++ body ++ "-->" ++ b)
        with ("!--" ++ (body ++ ("-->" ++ b))).
      rewrite <- (app_assoc_s body "-->" b), <- (app_assoc_s "!--").
      replace (String.length body + 6)
        with (String.length ("!--" ++ (body ++ "-->"))).
      * apply strip_comments_skip.
      * rewrite !length_append. cbn [String.length]. lia.
    + destruct (find_sub "<!--" s) as [[a' r']|] eqn:Hf; [|discriminate].
      injection H as <- <-. rewrite append_cons. f_equal.
      now apply (IH a' r' body b).
Qed.

Lemma strip_comments_first_comment_witness :
  strip_comments "a<!-- x -->b" = "ab" /\ strip_comments "a<!-- x" = "a<!-- x".
Proof.
  split.
  - exact (proj2 (proj2 (strip_comments_first_comment "a<!-- x -->b"))
             "a" " x -->b" " x " "b" eq_refl eq_refl).
  - apply (proj1 (proj2 (strip_comments_first_comment "a<!-- x"))).
    right. reflexivity.
Defined.

(** *** The named sections *)

Lemma lookup_fold_put (rw : string -> string) (name : string)
    (bodies : list (string * string)) :
  forall acc,
    lookup name
      (fold_left (fun acc cv => put (fst cv) (VStr (rw (snd cv))) acc) bodies acc)
    = if String.eqb name "__proto__" then lookup name acc
      else match last_body name bodies with
           | Some b => Some (VStr (rw b))
           | None => lookup name acc
           end.
Proof.
  induction bodies as [|[n b] bodies IH]; intros acc;
    [now destruct (String.eqb name "__proto__")|].
  cbn [fold_left fst snd last_body]. rewrite IH, lookup_put.
  destruct (String.eqb name "__proto__") eqn:Ep.
  - destruct (String.eqb n "__proto__") eqn:En; [reflexivity|].
    destruct (String.eqb name n) eqn:E; [|reflexivity].
    apply String.eqb_eq in E as <-. now rewrite Ep in En.
  - destruct (last_body name bodies); [reflexivity|].
    destruct (String.eqb n "__proto__") eqn:En.
    + apply String.eqb_eq in En as ->. now rewrite Ep.
    + now destruct (String.eqb name n).
Qed.

Lemma NoDup_fold_put (rw : string -> string) (bodies : list (string * string)) :
  forall acc,
    NoDup (map fst acc) ->
    NoDup (map fst
      (fold_left (fun acc cv => put (fst cv) (VStr (rw (snd cv))) acc) bodies acc)).
Proof.
  induction bodies as [|[n b] bodies IH]; intros acc H; [exact H|].
  cbn [fold_left]. apply IH. now apply NoDup_put.
Qed.

(** X4: in a template with a layout, every name has at most one section,
    and a name defined more than once gets the body of its last
    definition; the name [__proto__] gets no section. *)
Theorem last_definition_of_a_section_wins (W : world) (str : string)
    (opts : value) (async : bool) (st st' : state) (cfg : value)
    (secs : props) (ts : value) :
  processTemplateString W str opts async st = (st', Returned (cfg, secs, ts)) ->
  truthy (get cfg "layout") = true ->
  let text := if stripComment (st_settings st) then strip_comments str else str in
  let rewrite := if async then add_await else fun x => x in
  NoDup (map fst secs)
  /\ forall name,
       lookup name secs
       = if String.eqb name "__proto__" then None
         else option_map (fun b => VStr (rewrite b))
                         (last_body name (scan_defines 0 text)).
Proof.
  intros H Hl text rw.
  apply processTemplateString_inv in H as (_ & -> & _).
  rewrite Hl. unfold section_bodies, sections_of. fold text. fold rw. split.
  - apply NoDup_fold_put. constructor.
  - intros name. rewrite lookup_fold_put.
    destruct (String.eqb name "__proto__"); [reflexivity|].
    now destruct (last_body name (scan_defines 0 text)).
Qed.

Lemma last_definition_of_a_section_wins_witness :
  let text := page_child ++ "[[## section =again#]]" in
  snd (processTemplateString (world_of []) text empty_model false (initial 10 []))
  = Returned (VObj 0 [("layout", VStr "master.dot")],
              [("section", VStr "again")], VObj 11 [("cache", VBool false)])
  /\ lookup "section" [("section", VStr "again")]
     = option_map VStr (last_body "section" (scan_defines 0 text)).
Proof.
  intros text. split; [reflexivity|].
  exact (proj2 (last_definition_of_a_section_wins (world_of []) text empty_model
                  false (initial 10 [])
                  (fst (processTemplateString (world_of []) text empty_model
                          false (initial 10 [])))
                  (VObj 0 [("layout", VStr "master.dot")])
                  [("section", VStr "again")]
                  (VObj 11 [("cache", VBool false)]) eq_refl eq_refl)
           "section").
Defined.

(** *** Writing a section and reading it back *)

Lemma span_stop (p : ascii -> bool) (a b : string) :
  all_chars p a = true ->
  match b with String c _ => p c = false | EmptyString => True end ->
  span p (a ++ b) = (a, b).
Proof.
  intros Ha Hb. induction a as [|c a IH].
  - rewrite append_nil. destruct b as [|d b]; [reflexivity|].
    cbn [span]. now rewrite Hb.
  - cbn [all_chars] in Ha. apply andb_true_iff in Ha as [Hc Ha].
    rewrite append_cons. cbn [span]. rewrite Hc, (IH Ha). reflexivity.
Qed.

Lemma space_not_name (c : ascii) : is_space c = true -> is_name_char c = false.
Proof.
  destruct c as [[] [] [] [] [] [] [] []]; vm_compute; congruence.
Qed.

Lemma name_not_space (c : ascii) : is_name_char c = true -> is_space c = false.
Proof.
  intros H. destruct (is_space c) eqn:E; [|reflexivity].
  apply space_not_name in E. congruence.
Qed.

Lemma find_close_no_hash (v post : string) :
  all_chars not_hash v = true ->
  find_sub "#]]" (v ++ "#]]" ++ post) = Some (v, post).
Proof.
  induction v as [|d v IH]; intros H.
  - rewrite append_nil. pose proof (prefix_self "#]]" post) as P.
    change ("#]]" ++ post) with (String "#" (String "]" (String "]" post))) in *.
    cbn [find_sub]. rewrite P. reflexivity.
  - cbn [all_chars] in H. apply andb_true_iff in H as [Hd H].
    rewrite append_cons. cbn [find_sub]. rewrite prefix_cons.
    destruct (ascii_dec "#" d) as [<-|_]; [discriminate|].
    now rewrite (IH H).
Qed.

Lemma scan_defines_skip (x y : string) :
  scan_defines (String.length x) (x ++ y) = scan_defines 0 y.
Proof.
  induction x as [|c x IH]; [reflexivity|].
  rewrite append_cons. cbn [String.length scan_defines]. exact IH.
Qed.

Lemma match_define_no_bracket (c : ascii) (s : string) :
  not_bracket c = true -> match_define (String c s) = None.
Proof.
  intros H. unfold match_define. rewrite prefix_cons.
  destruct (ascii_dec "[" c) as [<-|_]; [discriminate|reflexivity].
Qed.

Lemma scan_defines_no_bracket (pre s : string) :
  all_chars not_bracket pre = true ->
  scan_defines 0 (pre ++ s) = scan_defines 0 s.
Proof.
  induction pre as [|c pre IH]; intros H; [reflexivity|].
  cbn [all_chars] in H. apply andb_true_iff in H as [Hc H].
  rewrite append_cons. cbn [scan_defines].
  rewrite (match_define_no_bracket _ _ Hc). now apply IH.
Qed.

Lemma match_define_region_text (ws1 name ws2 : string) (sep : ascii)
    (value post : string) :
  all_chars is_space ws1 = true ->
  all_chars is_name_char name = true -> name <> "" ->
  all_chars is_space ws2 = true ->
  sep = ":"%char \/ sep = "="%char ->
  value <> "" -> all_chars not_hash value = true ->
  match_define (region_text ws1 name ws2 sep value ++ post)
  = Some (name, value, String.length (region_text ws1 name ws2 sep value)).
Proof.
  intros H1 Hn Hne H2 Hsep Hv Hh.
  assert (Ssp : is_space sep = false /\ is_name_char sep = false
                /\ ((sep =? ":")%char || (sep =? "=")%char) = true).
  { destruct Hsep as [->| ->]; repeat split; reflexivity. }
  destruct Ssp as (Ss & Sn & Sok).
  unfold region_text.
  rewrite (app_assoc_s "[[##"), !app_assoc_s, (append_cons sep), app_assoc_s.
  unfold match_define. rewrite prefix_self.
  change 4 with (String.length "[[##") at 1. rewrite drop_append.
  destruct name as [|n0 nm]; [contradiction|].
  pose proof Hn as Hn'. cbn [all_chars] in Hn'.
  apply andb_true_iff in Hn' as [Hn0 _].
  rewrite (span_stop is_space ws1 _ H1)
    by (rewrite append_cons; now apply name_not_space).
  rewrite (span_stop is_name_char (String n0 nm) _ Hn).
  2:{ destruct ws2 as [|w ws2]; [rewrite append_nil; exact Sn|].
      rewrite append_cons. cbn [all_chars] in H2.
      apply andb_true_iff in H2 as [Hw _]. now apply space_not_name. }
  rewrite (span_stop is_space ws2 _ H2) by exact Ss.
  rewrite Sok.
  destruct value as [|v0 v]; [contradiction|].
  cbn [all_chars] in Hh. apply andb_true_iff in Hh as [_ Hh].
  rewrite append_cons. cbn [lazy_until]. rewrite (find_close_no_hash _ _ Hh).
  f_equal. f_equal. rewrite !length_append. cbn [String.length].
  rewrite !length_append. cbn [String.length]. lia.
Qed.

(** X5: a section written in the canonical form (the opening marker,
    white space, a non-empty name, white space, a colon or an equals
    sign, a non-empty value without a hash sign, the closing marker),
    after a text without an opening bracket, is read back with its name
    and its value, and the scan goes on right after its closing
    marker. *)
Theorem define_round_trip (pre ws1 name ws2 : string) (sep : ascii)
    (value post : string) :
  all_chars not_bracket pre = true ->
  all_chars is_space ws1 = true ->
  all_chars is_name_char name = true -> name <> "" ->
  all_chars is_space ws2 = true ->
  sep = ":"%char \/ sep = "="%char ->
  value <> "" -> all_chars not_hash value = true ->
  scan_defines 0 (pre ++ region_text ws1 name ws2 sep value ++ post)
  = (name, value) :: scan_defines 0 post.
Proof.
  intros Hpre H1 Hn Hne H2 Hsep Hv Hh.
  rewrite (scan_defines_no_bracket _ _ Hpre).
  pose proof (match_define_region_text ws1 name ws2 sep value post
                H1 Hn Hne H2 Hsep Hv Hh) as Hm.
  remember (region_text ws1 name ws2 sep value) as r eqn:Er.
  destruct r as [|c r]; [unfold region_text in Er; discriminate|].
  rewrite append_cons in *. cbn [scan_defines]. rewrite Hm.
  cbn [String.length]. rewrite Nat.sub_succ, Nat.sub_0_r.
  now rewrite scan_defines_skip.
Qed.

Lemma define_round_trip_witness :
  scan_defines 0 ("<h1>" ++ region_text " " "title" "" ":" "Home" ++ "</h1>")
  = [("title", "Home")].
Proof.
  apply (define_round_trip "<h1>" " " "title" "" ":" "Home" "</h1>");
    first [reflexivity | discriminate | now left].
Defined.

(** *** The errors of the plain form *)

Local Open Scope engine_scope.

















(** *** The caches *)

Lemma cache_flag_object (opts : value) :
  truthy (get opts "cache") = true ->
  forall what, member what opts "cache" = ret (get opts "cache").
Proof. destruct opts; try discriminate; reflexivity. Qed.

(** X7: with the cache flag on, a template that [getTemplate] returned is
    in the cache under its file name, and the next call for that file
    returns the same template from the cache, whatever the loader or the
    file system would deliver by then; likewise for [getTemplateAsync]
    and the async cache. *)
Theorem cached_template_is_served_again (W W' : world) (file : string)
    (opts : value) (st st' : state) (t : Template) :
  truthy (get opts "cache") = true ->
  (getTemplate W file opts st = (st', Returned t) ->
   cache st' !! file = Some t
   /\ getTemplate W' file opts st'
      = (fst (cache_get false file st'), Returned t))
  /\ (getTemplateAsync W file opts st = (st', Returned t) ->
      asyncCache st' !! file = Some t
      /\ getTemplateAsync W' file opts st'
         = (fst (cache_get true file st'), Returned t)).
Proof.
  intros Hc. pose proof (cache_flag_object _ Hc) as Hmem.
  split; intros H.
  - assert (E : cache st' !! file = Some t).
    { unfold getTemplate in H.
      apply bind_inv in H as (s0 & c & Hm & H). apply member_inv in Hm as [-> ->].
      rewrite Hc in H. apply bind_inv in H as (s1 & fc & Hg & H).
      injection Hg as <- <-. destruct (cache st !! file) as [t0|] eqn:E.
      - apply ret_inv in H as [-> ->]. exact E.
      - apply bind_inv in H as (s2 & t' & Hb & H).
        apply bind_inv in H as (s3 & u & Hs & H). apply ret_inv in H as [-> ->].
        injection Hs as <- _. cbn [cache]. apply lookup_insert_eq. }
    split; [exact E|].
    unfold getTemplate. rewrite Hmem. unfold bind, ret. rewrite Hc.
    unfold cache_get. cbn [fst]. rewrite E. reflexivity.
  - assert (E : asyncCache st' !! file = Some t).
    { unfold getTemplateAsync in H. rewrite Hc in H.
      apply bind_inv in H as (s1 & fc & Hg & H).
      injection Hg as <- <-. destruct (asyncCache st !! file) as [t0|] eqn:E.
      - apply ret_inv in H as [-> ->]. exact E.
      - apply bind_inv in H as (s2 & t' & Hb & H).
        apply bind_inv in H as (s3 & u & Hs & H). apply ret_inv in H as [-> ->].
        injection Hs as <- _. cbn [asyncCache]. apply lookup_insert_eq. }
    split; [exact E|].
    unfold getTemplateAsync, bind, ret. rewrite Hc.
    unfold cache_get. cbn [fst]. rewrite E. reflexivity.
Qed.

Lemma cached_template_is_served_again_witness :
  let r := getTemplate (world_of files_page) "views/page.dot" cached_model
             (initial 10 []) in
  let t := returned (template_of_config VUndef) r in
  snd r = Returned t
  /\ cache (fst r) !! "views/page.dot" = Some t
  /\ snd (getTemplate (world_of []) "views/page.dot" cached_model (fst r))
     = Returned t.
Proof.
  intros r t.
  assert (E : r = (fst r, Returned t)) by (vm_compute; reflexivity).
  split; [rewrite E; reflexivity|].
  destruct (proj1 (cached_template_is_served_again (world_of files_page)
                     (world_of []) "views/page.dot" cached_model
                     (initial 10 []) (fst r) t eq_refl) E) as [H1 H2].
  split; [exact H1|]. rewrite H2. reflexivity.
Defined.

(** *** The callback form *)

Lemma getTemplate_cb_returned (W : world) (file : string) (opts : value)
    (k : error + Template -> M delivery) (st st1 st2 : state) (t : Template)
    (d : delivery) :
  getTemplate W file opts st = (st1, Returned t) ->
  k (inr t) st1 = (st2, Returned d) ->
  getTemplate_cb W (loader_of W) file opts k st = (st2, Returned d).
Proof.
  unfold getTemplate, getTemplate_cb. intros H Hk.
  apply bind_inv in H as (s0 & c & Hm & H). unfold bind at 1. rewrite Hm.
  apply bind_inv in H as (s1 & fc & Hg & H). unfold bind at 1. rewrite Hg.
  destruct fc as [t0|].
  - apply ret_inv in H as [-> ->]. exact Hk.
  - apply bind_inv in H as (s2 & t' & Hb & H).
    apply bind_inv in H as (s3 & u & Hs & H). apply ret_inv in H as [-> ->].
    unfold buildTemplate in Hb. apply bind_inv in Hb as (s4 & text & Hc & Hb).
    unfold template_content in Hc.
    apply bind_inv in Hc as (s5 & getter & Hm2 & Hc).
    unfold buildTemplate_cb. unfold bind at 1. rewrite Hm2.
    destruct getter;
      try (apply bind_inv in Hc as (s6 & str & Hl & Hr);
           apply lift_inv in Hl as [-> Hl]; apply ret_inv in Hr as [-> ->];
           unfold getTemplateContentFromFile_cb, later, try_catch; rewrite Hl;
           unfold bind; rewrite Hb, Hs, Hk; reflexivity).
    apply lift_inv in Hc as [-> Hc]. unfold loader_of. rewrite Hc.
    unfold bind. rewrite Hb, Hs. exact Hk.
Qed.

Lemma Template_render_cb_returned (W : world) :
  forall (fuel : nat) (t : Template) (ro : render_options)
         (k : error + string -> M delivery) (st st1 st2 : state) (out : string)
         (d : delivery),
    Template_render W fuel t ro st = (st1, Returned out) ->
    k (inr out) st1 = (st2, Returned d) ->
    Template_render_cb W (loader_of W) fuel t ro k st = (st2, Returned d).
Proof.
  induction fuel as [|n IH]; intros t ro k st st1 st2 out d H Hk;
    cbn [Template_render Template_render_cb] in *; [discriminate|].
  apply bind_inv in H as (s1 & lm & Hr & H).
  unfold bind at 1, settle. rewrite Hr. destruct (negb (isLayout t)).
  - unfold bind. rewrite H. exact Hk.
  - apply bind_inv in H as (s2 & mp & Hmp & H).
    apply bind_inv in H as (s3 & mt & Hg & H).
    unfold bind at 1. rewrite Hmp.
    eapply getTemplate_cb_returned; [exact Hg|].
    cbn beta iota. eapply IH; eassumption.
Qed.

Lemma bind_thrown_inv {A B} (m : M A) (f : A -> M B) (st st' : state)
    (e : error) :
  bind m f st = (st', Thrown e) ->
  m st = (st', Thrown e)
  \/ exists s1 a, m st = (s1, Returned a) /\ f a s1 = (st', Thrown e).
Proof.
  unfold bind. destruct (m st) as [s1 [a|e1|]]; intros H.
  - right. now exists s1, a.
  - left. injection H as <- <-. reflexivity.
  - discriminate.
Qed.

(** X8: where the plain form of [render] returns a string, the callback
    form calls the callback with that string and leaves the same state;
    and for a page without layout, where rendering the page fails in the
    plain form, the callback form calls the callback with that error. *)
Theorem callback_form_agrees_with_plain_form (W : world) (fuel : nat)
    (file : string) (opts : value) (st st' : state) :
  (forall out,
     render W fuel file opts st = (st', Returned out) ->
     render_cb W (loader_of W) fuel file opts deliver st
     = (st', Returned (Called (inr out))))
  /\ (forall s1 t e,
        getTemplate W file opts st = (s1, Returned t) ->
        isLayout t = false ->
        Template_render W fuel t (top_options opts) s1 = (st', Thrown e) ->
        render_cb W (loader_of W) fuel file opts deliver st
        = (st', Returned (Called (inl e)))).
Proof.
  split.
  - intros out H. unfold render in H.
    apply bind_inv in H as (s1 & t & Hg & H). unfold render_cb.
    eapply getTemplate_cb_returned; [exact Hg|]. cbn beta iota.
    eapply Template_render_cb_returned; [exact H|reflexivity].
  - intros s1 t e Hg Hl H. unfold render_cb.
    assert (K : Template_render_cb W (loader_of W) fuel t (top_options opts)
                  deliver s1 = (st', Returned (Called (inl e)))).
    { destruct fuel as [|n]; cbn [Template_render Template_render_cb] in *;
        [discriminate|].
      rewrite Hl in *. cbn [negb] in *.
      unfold bind at 1, settle.
      apply bind_thrown_inv in H as [H|(s2 & lm & _ & H)].
      - rewrite H. reflexivity.
      - discriminate. }
    eapply getTemplate_cb_returned; [exact Hg|]. exact K.
Qed.

Lemma callback_form_agrees_with_plain_form_witness :
  render_cb (world_of files_layout) (loader_of (world_of files_layout)) 4
    "views/child.dot" empty_model deliver (initial 10 [])
  = (fst (render (world_of files_layout) 4 "views/child.dot" empty_model
            (initial 10 [])),
     Returned (Called (inr "test-master test-child")))
  /\ snd (render_cb (world_of files_broken) (loader_of (world_of files_broken)) 3
            "views/broken.dot" empty_model deliver (initial 10 []))
     = Returned (Called (inl (render_error "views/broken.dot"
                  (TypeError "Cannot read properties (reading 'name')")))).
Proof.
  split.
  - apply (proj1 (callback_form_agrees_with_plain_form (world_of files_layout) 4
                    "views/child.dot" empty_model (initial 10 []) _)).
    vm_compute. reflexivity.
  - set (W := world_of files_broken).
    set (g := getTemplate W "views/broken.dot" empty_model (initial 10 [])).
    set (t := returned (template_of_config VUndef) g).
    set (r := Template_render W 3 t (top_options empty_model) (fst g)).
    assert (Eg : g = (fst g, Returned t)) by (vm_compute; reflexivity).
    assert (El : isLayout t = false) by (vm_compute; reflexivity).
    assert (Er : r = (fst r, Thrown (render_error "views/broken.dot"
                        (TypeError "Cannot read properties (reading 'name')"))))
      by (vm_compute; reflexivity).
    rewrite (proj2 (callback_form_agrees_with_plain_form W 3 "views/broken.dot"
                      empty_model (initial 10 []) (fst r)) (fst g) t _ Eg El Er).
    reflexivity.
Defined.

Lemma built_from_nothing (W : world) (file : string) (opts : value) (st : state) :
  builtTemplateFromString W VUndef file opts st
  = (st, Thrown (build_error file (TypeError "str.replace"))).
Proof. reflexivity. Qed.

(** X9: when the template text comes from the file system and the
    options are an object, a template that cannot be loaded or built is
    never reported to the callback of the callback form: whatever the
    plain form of [getTemplate] throws, the outcome is the error of
    building a template from no text at all, raised in a later turn
    where nobody catches it. *)
Theorem callback_never_told_of_build_failure (W : world)
    (loader_cb : N -> string -> value -> (error + value -> M delivery)
                 -> M delivery)
    (fuel : nat) (file : string) (i : N) (o : props)
    (callback : error + string -> M delivery) (st st' : state) (e : error) :
  (forall f, get (VObj i o) "getTemplate" <> VFun f) ->
  getTemplate W file (VObj i o) st = (st', Thrown e) ->
  render_cb W loader_cb fuel file (VObj i o) callback st
  = (st', Returned (Uncaught (build_error file (TypeError "str.replace")))).
Proof.
  intros Hg H. unfold render_cb, getTemplate_cb. unfold getTemplate in H.
  set (opts := VObj i o) in *.
  change (member "options.cache" opts "cache") with (@ret value (get opts "cache")) in *.
  unfold bind at 1 in H. unfold bind at 1. unfold ret at 1 in H. unfold ret at 1.
  cbn beta iota in *. set (c := get opts "cache") in *.
  apply bind_thrown_inv in H as [H|(s1 & fc & Hc & H)].
  { destruct (truthy c); discriminate. }
  unfold bind at 1. rewrite Hc. destruct fc as [t0|]; [discriminate|].
  apply bind_thrown_inv in H as [H|(s2 & t & _ & H)].
  2:{ apply bind_thrown_inv in H as [H|(s3 & u & _ & H)]; [|discriminate].
      destruct (truthy c); discriminate. }
  unfold buildTemplate in H. unfold buildTemplate_cb.
  unfold template_content in *.
  change (member "options.getTemplate" opts "getTemplate")
    with (@ret value (get opts "getTemplate")) in *.
  unfold bind at 1 in H. unfold bind at 1. unfold ret at 1 in H. unfold ret at 1.
  cbn beta iota in *. specialize (Hg). set (getter := get opts "getTemplate") in *.
  assert (F : bind (bind (lift (read_file W file)) (fun s => ret (VStr s)))
                (fun text => builtTemplateFromString W text file opts) s1
              = (st', Thrown e) ->
              getTemplateContentFromFile_cb W file
                (fun r => match r with
                          | inl err =>
                              bind (builtTemplateFromString W VUndef file opts)
                                (fun _ => callback (inl err))
                          | inr str =>
                              bind (builtTemplateFromString W (VStr str) file opts)
                                (fun t1 =>
                                   bind (if truthy c then cache_set false file t1
                                         else ret tt)
                                     (fun _ =>
                                        Template_render_cb W loader_cb fuel t1
                                          (top_options opts) callback))
                          end) s1
              = (st', Returned (Uncaught (build_error file
                                            (TypeError "str.replace"))))).
  { intros Hf. unfold getTemplateContentFromFile_cb, later.
    apply bind_thrown_inv in Hf as [Hf|(s3 & text & Hr & Hf)].
    - apply bind_thrown_inv in Hf as [Hf|(s4 & str & _ & Hf)]; [|discriminate].
      destruct (read_file W file) as [e0|str]; [|discriminate].
      injection Hf as <- _. unfold bind. rewrite built_from_nothing. reflexivity.
    - apply bind_inv in Hr as (s4 & str & Hl & Hr).
      apply lift_inv in Hl as [-> Hl]. apply ret_inv in Hr as [-> ->].
      rewrite Hl. unfold try_catch, bind. rewrite Hf.
      rewrite built_from_nothing. reflexivity. }
  destruct getter eqn:Eg; try exact (F H).
  exfalso. exact (Hg id eq_refl).
Qed.

Lemma callback_never_told_of_build_failure_witness :
  snd (render_cb (world_of []) (loader_of (world_of [])) 4 "views/nothere.dot"
         (VObj 1 []) deliver (initial 10 []))
  = Returned (Uncaught (build_error "views/nothere.dot"
                          (TypeError "str.replace"))).
Proof.
  rewrite (callback_never_told_of_build_failure (world_of [])
             (loader_of (world_of [])) 4 "views/nothere.dot" 1 [] deliver
             (initial 10 []) (initial 10 [])
             (Error "ENOENT: no such file or directory, open 'views/nothere.dot'")).
  - reflexivity.
  - intros f. discriminate.
  - reflexivity.
Defined.

(** *** What a getter does to the stores *)

Lemma same_stores_refl (st : state) : same_stores st st.
Proof. now split. Qed.

Lemma same_stores_trans (a b c : state) :
  same_stores a b -> same_stores b c -> same_stores a c.
Proof. intros [H1 H2] [H3 H4]. split; congruence. Qed.

Lemma same_stores_fresh : ensures same_stores any fresh.
Proof. intros st st' r H. injection H as <- <-. split; [now split|exact I]. Qed.

Lemma same_stores_set_dot_strip (b : bool) :
  ensures same_stores any (set_dot_strip b).
Proof. intros st st' r H. injection H as <- <-. split; [now split|exact I]. Qed.

Lemma same_stores_buildTemplate (W : world) (file : string) (opts : value)
    (st st' : state) (r : result Template) :
  buildTemplate W file opts st = (st', r) -> same_stores st st'.
Proof.
  intros H.
  exact (proj1 (ensures_buildTemplate W same_stores same_stores_refl
                  same_stores_trans same_stores_fresh
                  same_stores_set_dot_strip file opts st st' r H)).
Qed.

Lemma same_stores_buildTemplateAsync (W : world) (file : string) (opts : value)
    (st st' : state) (r : result Template) :
  buildTemplateAsync W file opts st = (st', r) -> same_stores st st'.
Proof.
  intros H.
  exact (proj1 (ensures_buildTemplateAsync W same_stores same_stores_refl
                  same_stores_trans same_stores_fresh
                  same_stores_set_dot_strip file opts st st' r H)).
Qed.

(** X10: a getter changes the stores in one way only: [getTemplate] may
    put the template it returns into the cache under the file name, and
    [getTemplateAsync] into the async cache; the other store is left
    alone, and a call that fails leaves both stores as they were. *)
Theorem getter_only_adds_what_it_returns (W : world) (file : string)
    (opts : value) (st st' : state) (r : result Template) :
  (getTemplate W file opts st = (st', r) ->
   asyncCache st' = asyncCache st
   /\ match r with
      | Returned t => cache st' = cache st \/ cache st' = <[file := t]> (cache st)
      | _ => cache st' = cache st
      end)
  /\ (getTemplateAsync W file opts st = (st', r) ->
      cache st' = cache st
      /\ match r with
         | Returned t => asyncCache st' = asyncCache st
                         \/ asyncCache st' = <[file := t]> (asyncCache st)
         | _ => asyncCache st' = asyncCache st
         end).
Proof.
  split; intros H.
  - unfold getTemplate in H. unfold bind at 1 in H.
    destruct (member "options.cache" opts "cache" st) as [s0 [c|e|]] eqn:Hm.
    2:{ injection H as <- <-. unfold member in Hm.
        destruct opts; injection Hm as <- _; now split. }
    2:{ unfold member in Hm. destruct opts; discriminate. }
    apply member_inv in Hm as [-> _].
    unfold bind at 1 in H.
    destruct ((if truthy c then cache_get false file else ret None) st)
      as [s1 [fc|e|]] eqn:Hg;
      [|destruct (truthy c); discriminate|destruct (truthy c); discriminate].
    assert (S1 : same_stores st s1).
    { destruct (truthy c); injection Hg as <- _; now split. }
    destruct fc as [t0|].
    + injection H as <- <-. destruct S1. split; [assumption|now left].
    + unfold bind at 1 in H.
      destruct (buildTemplate W file opts s1) as [s2 [t|e|]] eqn:Hb;
        pose proof (same_stores_buildTemplate _ _ _ _ _ _ Hb) as S2;
        destruct (same_stores_trans _ _ _ S1 S2) as [C A].
      * unfold bind in H. destruct (truthy c).
        -- injection H as <- <-. cbn [cache asyncCache cache_set].
           split; [exact A|right; now rewrite C].
        -- injection H as <- <-. split; [exact A|now left].
      * injection H as <- <-. now split.
      * injection H as <- <-. now split.
  - unfold getTemplateAsync in H. unfold bind at 1 in H.
    set (c := get opts "cache") in *.
    destruct ((if truthy c then cache_get true file else ret None) st)
      as [s1 [fc|e|]] eqn:Hg;
      [|destruct (truthy c); discriminate|destruct (truthy c); discriminate].
    assert (S1 : same_stores st s1).
    { destruct (truthy c); injection Hg as <- _; now split. }
    destruct fc as [t0|].
    + injection H as <- <-. destruct S1. split; [assumption|now left].
    + unfold bind at 1 in H.
      destruct (buildTemplateAsync W file opts s1) as [s2 [t|e|]] eqn:Hb;
        pose proof (same_stores_buildTemplateAsync _ _ _ _ _ _ Hb) as S2;
        destruct (same_stores_trans _ _ _ S1 S2) as [C A].
      * unfold bind in H. destruct (truthy c).
        -- injection H as <- <-. cbn [cache asyncCache cache_set].
           split; [exact C|right; now rewrite A].
        -- injection H as <- <-. split; [exact C|now left].
      * injection H as <- <-. now split.
      * injection H as <- <-. now split.
Qed.

Lemma getter_only_adds_what_it_returns_witness :
  cache (fst (getTemplate (world_of []) "views/nothere.dot" cached_model
                (initial 10 []))) = ∅.
Proof.
  pose proof (proj1 (getter_only_adds_what_it_returns (world_of [])
                       "views/nothere.dot" cached_model (initial 10 []) _
                       (Thrown (Error
                          "ENOENT: no such file or directory, open 'views/nothere.dot'")))
                eq_refl) as [_ H].
  exact H.
Defined.

(** *** Rendering without a model or without locals *)

Lemma viewModel_needs_locals (t : Template) (lm : value) (ro : render_options)
    (st : state) :
  (model ro = VUndef \/ model ro = VNull ->
   forall async,
     snd (viewModel async t lm ro st) = Thrown (TypeError "options.model"))
  /\ (shortcuts t <> [] -> model ro <> VUndef -> model ro <> VNull ->
      snd (viewModel false t lm ro st) = Thrown (TypeError "this.shortcuts")
      /\ (get (model ro) "_locals" = VUndef \/ get (model ro) "_locals" = VNull ->
          snd (viewModel true t lm ro st)
          = Thrown (TypeError "options.model._locals"))).
Proof.
  unfold viewModel, arg_candidates. split.
  - intros [E|E] async; rewrite E; reflexivity.
  - intros Hs H1 H2. destruct (shortcuts t) as [|[k p] sc]; [contradiction|].
    assert (Hm : forall s, member "options.model" (model ro) "_locals" s
                           = (s, Returned (get (model ro) "_locals"))).
    { intros s. unfold member. destruct (model ro); try contradiction; reflexivity. }
    split.
    + unfold bind at 1. unfold bind at 1. cbn [fresh].
      unfold bind at 1. rewrite Hm. unfold bind at 1.
      destruct (truthy (get (model ro) "_locals")); reflexivity.
    + intros Hl. unfold bind at 1. unfold bind at 1. cbn [fresh].
      unfold bind at 1. rewrite Hm. cbn [shortcut_values].
      destruct Hl as [E|E]; rewrite E; reflexivity.
Qed.

(** X11: a template with at least one section cannot be rendered without
    a model; a template with shortcuts cannot be rendered by [render] at
    all, its shortcut callback failing, and cannot be rendered by
    [renderAsync] for a model whose [_locals] is undefined or null: the
    render fails with the type error, wrapped with the file name. *)
Theorem render_needs_model_and_locals (W : world) (n : nat) (t : Template)
    (ro : render_options) (st : state) :
  templates t <> [] ->
  let failure what := Thrown (render_error (filename (options t)) (TypeError what)) in
  (model ro = VUndef \/ model ro = VNull ->
   snd (Template_render W (S n) t ro st) = failure "options.model"
   /\ snd (Template_renderAsync W (S n) t ro st) = failure "options.model")
  /\ (shortcuts t <> [] -> model ro <> VUndef -> model ro <> VNull ->
      snd (Template_render W (S n) t ro st) = failure "this.shortcuts"
      /\ (get (model ro) "_locals" = VUndef \/ get (model ro) "_locals" = VNull ->
          snd (Template_renderAsync W (S n) t ro st)
          = failure "options.model._locals")).
Proof.
  intros Ht failure.
  destruct (templates t) as [|[key f] rest] eqn:Et; [contradiction|]. clear Ht.
  assert (Gs : forall what,
             (forall lm s, snd (viewModel false t lm ro s) = Thrown (TypeError what)) ->
             snd (Template_render W (S n) t ro st) = failure what).
  { intros what Hv. cbn [Template_render].
    unfold render_all_sections. rewrite Et. cbn [render_sections].
    unfold bind at 1 2. unfold log at 1. unfold bind at 1. unfold seed_layout at 1.
    unfold with_ids at 1. cbn [next_id].
    destruct (merge_fresh (next_id st) (layout ro) (config (options t)))
      as [nx lm0].
    unfold bind at 1. unfold bind at 1. unfold try_catch at 1. unfold bind at 1.
    match goal with
    | |- context [viewModel false t lm0 ro ?s] =>
        specialize (Hv lm0 s); destruct (viewModel false t lm0 ro s) as [s1 r]
    end.
    cbn [snd] in Hv. subst r. reflexivity. }
  assert (Ga : forall what,
             (forall lm s, snd (viewModel true t lm ro s) = Thrown (TypeError what)) ->
             snd (Template_renderAsync W (S n) t ro st) = failure what).
  { intros what Hv. cbn [Template_renderAsync].
    unfold renderAsync_all_sections. rewrite Et. cbn [start_sections].
    unfold bind at 1 2. unfold log at 1. unfold bind at 1.
    unfold seed_layout at 1. unfold with_ids at 1. cbn [next_id].
    destruct (merge_fresh (next_id st) (layout ro) (config (options t)))
      as [nx' lm1].
    unfold bind at 1. unfold bind at 1. unfold try_catch at 1.
    match goal with
    | |- context [viewModel true t lm1 ro ?s] =>
        specialize (Hv lm1 s); destruct (viewModel true t lm1 ro s) as [s1 r]
    end.
    cbn [snd] in Hv. subst r. reflexivity. }
  split.
  - intros Hm. split; [apply Gs|apply Ga]; intros lm s;
      now apply (proj1 (viewModel_needs_locals t lm ro s)).
  - intros Hs H1 H2. split.
    + apply Gs. intros lm s.
      now apply (proj2 (viewModel_needs_locals t lm ro s)).
    + intros Hl. apply Ga. intros lm s.
      now apply (proj2 (viewModel_needs_locals t lm ro s)).
Qed.

Lemma render_needs_model_and_locals_witness :
  snd (Template_render (world_of []) 1 template_with_shortcut
         {| layout := VUndef; model := empty_model; isPartial := false |}
         (initial 10 []))
  = Thrown (render_error "views/page.dot" (TypeError "this.shortcuts"))
  /\ snd (Template_renderAsync (world_of []) 1 template_with_shortcut
            {| layout := VUndef; model := empty_model; isPartial := false |}
            (initial 10 []))
     = Thrown (render_error "views/page.dot" (TypeError "options.model._locals"))
  /\ snd (Template_renderAsync (world_of []) 1 template_with_shortcut
            {| layout := VUndef; model := VNull; isPartial := false |}
            (initial 10 []))
     = Thrown (render_error "views/page.dot" (TypeError "options.model")).
Proof.
  split; [|split].
  - refine (proj1 (proj2 (render_needs_model_and_locals (world_of []) 0
                            template_with_shortcut
                            {| layout := VUndef; model := empty_model;
                               isPartial := false |}
                            (initial 10 []) _) _ _ _)); discriminate.
  - refine (proj2 (proj2 (render_needs_model_and_locals (world_of []) 0
                            template_with_shortcut
                            {| layout := VUndef; model := empty_model;
                               isPartial := false |}
                            (initial 10 []) _) _ _ _) _);
      first [discriminate | now left].
  - refine (proj2 (proj1 (render_needs_model_and_locals (world_of []) 0
                            template_with_shortcut
                            {| layout := VUndef; model := VNull;
                               isPartial := false |}
                            (initial 10 []) _) _));
      first [discriminate | now right].
Defined.

(** *** The arguments of a section *)

Lemma uniq_onto_fresh (xs : list value) :
  forall seen x,
    In x (uniq_onto seen xs) ->
    In x xs /\ existsb (same_value_zero x) seen = false.
Proof.
  induction xs as [|y xs IH]; intros seen x H; [destruct H|].
  cbn [uniq_onto] in H.
  destruct (existsb (same_value_zero y) seen) eqn:E.
  - destruct (IH _ _ H) as [H1 H2]. split; [now right|exact H2].
  - destruct H as [<-|H]; [split; [now left|exact E]|].
    destruct (IH _ _ H) as [H1 H2]. split; [now right|].
    cbn [existsb] in H2. now apply orb_false_iff in H2 as [_ H2].
Qed.

Lemma uniq_onto_is_distinct (xs : list value) :
  forall seen, distinct (uniq_onto seen xs) = true.
Proof.
  induction xs as [|y xs IH]; intros seen; [reflexivity|].
  cbn [uniq_onto]. destruct (existsb (same_value_zero y) seen); [apply IH|].
  cbn [distinct]. rewrite IH, andb_true_r. apply negb_true_iff.
  apply existsb_false. intros x Hx.
  apply uniq_onto_fresh in Hx as [_ Hx]. cbn [existsb] in Hx.
  apply orb_false_iff in Hx as [Hx _]. now rewrite same_value_zero_sym.
Qed.

Lemma uniq_onto_covers (xs : list value) :
  forall seen x,
    In x xs ->
    existsb (same_value_zero x) seen = true
    \/ existsb (same_value_zero x) (uniq_onto seen xs) = true.
Proof.
  induction xs as [|y xs IH]; intros seen x H; [destruct H|].
  cbn [uniq_onto]. destruct H as [->|H].
  - destruct (existsb (same_value_zero x) seen) eqn:E; [now left|].
    right. cbn [existsb].
    assert (R : same_value_zero x x = true).
    { destruct x; cbn [same_value_zero]; try reflexivity;
        first [ now destruct b | apply Z.eqb_refl | apply String.eqb_refl
              | apply N.eqb_refl ]. }
    now rewrite R.
  - destruct (existsb (same_value_zero y) seen) eqn:E; [now apply IH|].
    destruct (IH (y :: seen) x H) as [H1|H1].
    + cbn [existsb] in H1. apply orb_true_iff in H1 as [H1|H1]; [|now left].
      right. cbn [existsb]. now rewrite H1.
    + right. cbn [existsb]. rewrite H1. apply orb_true_r.
Qed.

Lemma length_uniq_onto (xs : list value) :
  forall seen, length (uniq_onto seen xs) <= length xs.
Proof.
  induction xs as [|y xs IH]; intros seen; [apply Nat.le_refl|].
  cbn [uniq_onto]. destruct (existsb (same_value_zero y) seen); cbn [length].
  - specialize (IH seen). lia.
  - apply le_n_S, IH.
Qed.

(** X12: the arguments a section is applied to, in [render] and in
    [renderAsync], never hold the same value twice, hold every one of
    the values the engine lined up for it, and are at most four plus one
    for each entry of the view data and each shortcut. *)
Theorem section_arguments_never_repeat (async : bool) (t : Template)
    (lm : value) (ro : render_options) (st st' : state) (args : list value) :
  viewModel async t lm ro st = (st', Returned args) ->
  distinct args = true
  /\ (forall x, In x (built_args t lm ro (next_id st) (next_id st + 1)) ->
        existsb (same_value_zero x) args = true)
  /\ length args <= 4 + length (viewData t) + length (shortcuts t).
Proof.
  intros H. apply viewModel_inv in H as (-> & _ & _). unfold union.
  split; [apply uniq_onto_is_distinct|]. split.
  - intros x Hx. destruct (uniq_onto_covers _ [] x Hx) as [H|H];
      [discriminate|exact H].
  - etransitivity; [apply length_uniq_onto|].
    unfold built_args. cbn [app length]. rewrite length_app, length_map. lia.
Qed.

Lemma section_arguments_never_repeat_witness :
  distinct
    (returned [] (viewModel true template_with_shortcut (VObj 50 [])
                    {| layout := VUndef; model := model_empty_title;
                       isPartial := false |} (initial 10 [])))
  = true.
Proof.
  set (r := viewModel true template_with_shortcut (VObj 50 [])
              {| layout := VUndef; model := model_empty_title;
                 isPartial := false |} (initial 10 [])).
  assert (E : r = (fst r, Returned (returned [] r))) by (vm_compute; reflexivity).
  exact (proj1 (section_arguments_never_repeat _ _ _ _ _ _ _ E)).
Defined.

(** *** The options a template keeps *)

Lemma processTemplateString_options (W : world) (str : string) (opts : value)
    (async : bool) (st st' : state) (cfg : value) (secs : props) (ts : value) :
  processTemplateString W str opts async st = (st', Returned (cfg, secs, ts)) ->
  exists tid,
    ts = VObj tid
           (set "cache" (or_else (get opts "cache") (VBool false))
              (let picked :=
                 if has_key opts "settings"
                 then [("settings", get opts "settings")] else [] in
               if truthy (get opts "getTemplate")
               then set "getTemplate" (get opts "getTemplate") picked
               else picked)).
Proof.
  unfold processTemplateString. intros H.
  apply bind_inv in H as (s1 & cid & _ & H).
  apply bind_inv in H as (s2 & config & _ & H).
  apply bind_inv in H as (s3 & s & _ & H).
  apply bind_inv in H as (s4 & u & _ & H).
  apply bind_inv in H as (s5 & lay & _ & H).
  apply bind_inv in H as (s6 & tid & _ & H).
  apply bind_inv in H as (s7 & getter & Hg & H).
  apply member_inv in Hg as [-> ->]. apply ret_inv in H as [_ H].
  injection H as _ _ ->. now exists tid.
Qed.

Lemma template_options_of (opts : value) (tid : N) :
  let ts := VObj tid
              (set "cache" (or_else (get opts "cache") (VBool false))
                 (let picked :=
                    if has_key opts "settings"
                    then [("settings", get opts "settings")] else [] in
                  if truthy (get opts "getTemplate")
                  then set "getTemplate" (get opts "getTemplate") picked
                  else picked)) in
  get ts "settings" = get opts "settings"
  /\ get ts "cache" = or_else (get opts "cache") (VBool false)
  /\ get ts "getTemplate"
     = (if truthy (get opts "getTemplate") then get opts "getTemplate"
        else VUndef)
  /\ forall k, k <> "settings" -> k <> "getTemplate" -> k <> "cache" ->
               get ts k = VUndef.
Proof.
  intros ts. subst ts. cbv zeta.
  assert (P : forall k,
             lookup k (if has_key opts "settings"
                       then [("settings", get opts "settings")] else [])
             = if String.eqb k "settings" && has_key opts "settings"
               then Some (get opts "settings") else None).
  { intros k. destruct (has_key opts "settings"); cbn [lookup];
      destruct (String.eqb k "settings"); reflexivity. }
  assert (S : has_key opts "settings" = false -> get opts "settings" = VUndef).
  { destruct opts; try reflexivity; unfold has_key, has, get;
      destruct (lookup "settings" props); try discriminate; reflexivity. }
  assert (L : forall k,
             get (VObj tid
                    (set "cache" (or_else (get opts "cache") (VBool false))
                       (if truthy (get opts "getTemplate")
                        then set "getTemplate" (get opts "getTemplate")
                               (if has_key opts "settings"
                                then [("settings", get opts "settings")] else [])
                        else if has_key opts "settings"
                             then [("settings", get opts "settings")] else []))) k
             = if String.eqb k "cache"
               then or_else (get opts "cache") (VBool false)
               else if String.eqb k "getTemplate" && truthy (get opts "getTemplate")
                    then get opts "getTemplate"
                    else if String.eqb k "settings" && has_key opts "settings"
                         then get opts "settings" else VUndef).
  { intros k. cbn [get]. rewrite lookup_set.
    destruct (String.eqb k "cache"); [reflexivity|].
    destruct (truthy (get opts "getTemplate")).
    - rewrite lookup_set. destruct (String.eqb k "getTemplate"); [reflexivity|].
      cbn [andb]. rewrite P. now destruct (_ && _).
    - rewrite andb_false_r. rewrite P. now destruct (_ && _). }
  repeat split.
  - rewrite L. cbn [String.eqb Ascii.eqb Bool.eqb andb].
    destruct (has_key opts "settings") eqn:E; [reflexivity|].
    symmetry. now apply S.
  - rewrite L. reflexivity.
  - rewrite L. cbn [String.eqb Ascii.eqb Bool.eqb andb].
    now destruct (truthy (get opts "getTemplate")).
  - intros k H1 H2 H3. rewrite L.
    apply String.eqb_neq in H1, H2, H3. now rewrite H1, H2, H3.
Qed.

(** X13: the options a built template keeps, with which its master and
    its partials are fetched, are the caller's settings, the caller's
    loader when there is one, and the caller's cache flag ([false] when
    it is not set); no other field of the caller's options is kept. *)
Theorem template_keeps_three_options (W : world) (str : value) (file : string)
    (opts : value) (st st' : state) (t : Template) :
  builtTemplateFromString W str file opts st = (st', Returned t)
  \/ builtTemplateFromStringAsync W str file opts st = (st', Returned t) ->
  let ts := express (options t) in
  get ts "settings" = get opts "settings"
  /\ get ts "cache" = or_else (get opts "cache") (VBool false)
  /\ get ts "getTemplate"
     = (if truthy (get opts "getTemplate") then get opts "getTemplate"
        else VUndef)
  /\ forall k, k <> "settings" -> k <> "getTemplate" -> k <> "cache" ->
               get ts k = VUndef.
Proof.
  intros H ts.
  assert (E : exists async text s1,
             processTemplateString W text opts async st
             = (s1, Returned (config (options t), sections (options t), ts))).
  { destruct H as [H|H].
    - apply builtTemplateFromString_inv in H
        as (_ & _ & _ & _ & _ & _ & text & s1 & _ & H).
      now exists false, text, s1.
    - apply builtTemplateFromStringAsync_inv in H
        as (_ & _ & _ & _ & _ & _ & text & s1 & _ & H).
      now exists true, text, s1. }
  destruct E as (async & text & s1 & E).
  apply processTemplateString_options in E as (tid & E).
  rewrite E. apply template_options_of.
Qed.

Lemma template_keeps_three_options_witness :
  let r := builtTemplateFromString (world_of []) (VStr "hello") "views/page.dot"
             cached_model (initial 10 []) in
  let t := returned (template_of_config VUndef) r in
  get (express (options t)) "cache" = VBool true
  /\ get (express (options t)) "name" = VUndef.
Proof.
  intros r t.
  assert (E : r = (fst r, Returned t)) by (vm_compute; reflexivity).
  destruct (template_keeps_three_options (world_of []) (VStr "hello")
              "views/page.dot" cached_model (initial 10 []) (fst r) t
              (or_introl E)) as (_ & Hc & _ & Hk).
  split; [exact Hc|]. apply Hk; discriminate.
Defined.

(** *** The settings *)

Lemma kept_refl (st : state) : settings_kept st st.
Proof. repeat split; try reflexivity. now left. Qed.

Lemma kept_trans (a b c : state) :
  settings_kept a b -> settings_kept b c -> settings_kept a c.
Proof.
  intros (H1 & H2 & H3 & H4) (K1 & K2 & K3 & K4).
  split; [congruence|]. split; [congruence|]. split; [congruence|].
  destruct K4 as [K4|[K4 K5]].
  - destruct H4 as [H4|[H4 H5]]; [left; congruence|right; split; congruence].
  - right. split; congruence.
Qed.

Lemma kept_same {A} (m : M A) :
  (forall st st' r, m st = (st', r) -> st_settings st' = st_settings st) ->
  ensures settings_kept any m.
Proof.
  intros Hm st st' r H. split; [|destruct r; exact I].
  unfold settings_kept. rewrite (Hm _ _ _ H). repeat split; now left.
Qed.

Lemma kept_log (e : event) : ensures settings_kept any (log e).
Proof. apply kept_same. intros st st' r H. now injection H as <- _. Qed.

Lemma kept_fresh : ensures settings_kept any fresh.
Proof. apply kept_same. intros st st' r H. now injection H as <- _. Qed.

Lemma kept_with_ids (A : Type) (f : N -> N * A) :
  ensures settings_kept any (with_ids f).
Proof.
  apply kept_same. intros st st' r H. unfold with_ids in H.
  destruct (f (next_id st)). now injection H as <- _.
Qed.

Lemma kept_pick (n : nat) : ensures settings_kept any (pick n).
Proof.
  apply kept_same. intros st st' r H. unfold pick in H.
  destruct (schedule st); now injection H as <- _.
Qed.

Lemma kept_cache_get (async : bool) (key : string) :
  ensures settings_kept any (cache_get async key).
Proof. apply kept_same. intros st st' r H. now injection H as <- _. Qed.

Lemma kept_cache_set (async : bool) (key : string) (t : Template) :
  ensures settings_kept any (cache_set async key t).
Proof. apply kept_same. intros st st' r H. now injection H as <- _. Qed.

Lemma kept_strip_when_asked :
  ensures settings_kept any
    (let* s := get_settings in
     if stripWhitespace s then set_dot_strip true else ret tt).
Proof.
  intros st st' r H. unfold bind, get_settings in H.
  destruct (stripWhitespace (st_settings st)) eqn:E.
  - injection H as <- <-. split; [|exact I].
    unfold settings_kept. cbn [st_settings header stripComment stripWhitespace
                                dot_strip].
    repeat split. right. now split.
  - injection H as <- <-. split; [apply kept_refl|exact I].
Qed.

Lemma kept_processTemplateString (W : world) (str : string) (opts : value)
    (async : bool) :
  ensures settings_kept any (processTemplateString W str opts async).
Proof.
  unfold processTemplateString.
  eapply (ensures_bind _ kept_trans any); [apply kept_fresh|intros cid _].
  eapply (ensures_bind _ kept_trans any).
  { destruct (match_config str) as [[conf rest]|];
      [apply (ensures_lift _ kept_refl); now destruct (yaml_load W conf)
      |now apply (ensures_ret _ kept_refl)]. }
  intros cfg _.
  intros st st' r H. unfold bind at 1 in H. unfold get_settings at 1 in H.
  cbn beta iota in H.
  assert (K := kept_strip_when_asked st).
  unfold bind at 1 in K. unfold get_settings at 1 in K. cbn beta iota in K.
  unfold bind at 1 in H.
  destruct ((if stripWhitespace (st_settings st) then set_dot_strip true
             else ret tt) st) as [s1 [u|e|]] eqn:E;
    destruct (K _ _ eq_refl) as [K1 _].
  - assert (G : ensures settings_kept any
               (let* lay := member "config.layout" cfg "layout" in
                let* tid := fresh in
                let* getter := member "options.getTemplate" opts "getTemplate" in
                @ret (value * props * value)
                  (cfg,
                   if negb (truthy lay)
                   then put "body"
                          (VStr ((if async then add_await else fun x => x)
                                   (if stripComment (st_settings st)
                                    then strip_comments str else str))) []
                   else fold_left
                          (fun acc cv =>
                             put (fst cv)
                               (VStr ((if async then add_await else fun x => x)
                                        (snd cv))) acc)
                          (scan_defines 0
                             (if stripComment (st_settings st)
                              then strip_comments str else str)) [],
                   VObj tid
                     (set "cache" (or_else (get opts "cache") (VBool false))
                        (if truthy getter
                         then set "getTemplate" getter
                                (if has_key opts "settings"
                                 then [("settings", get opts "settings")] else [])
                         else if has_key opts "settings"
                              then [("settings", get opts "settings")] else []))))).
    { eapply (ensures_bind _ kept_trans any);
        [apply (ensures_member _ kept_refl)|intros lay _].
      eapply (ensures_bind _ kept_trans any); [apply kept_fresh|intros tid _].
      eapply (ensures_bind _ kept_trans any);
        [apply (ensures_member _ kept_refl)|intros getter _].
      now apply (ensures_ret _ kept_refl). }
    destruct (G _ _ _ H) as [G1 G2]. split; [|destruct r; exact I].
    exact (kept_trans _ _ _ K1 G1).
  - injection H as <- <-. split; [exact K1|exact I].
  - injection H as <- <-. split; [exact K1|exact I].
Qed.

Ltac kept_side :=
  first [ exact kept_refl | exact kept_trans | exact kept_fresh
        | exact kept_with_ids | exact kept_pick
        | intros; apply kept_log ].

Lemma kept_new_Template (W : world) (o : source_options) (async : bool) :
  ensures settings_kept any (new_Template W o async).
Proof.
  eapply ensures_weaken;
    [apply (ensures_new_Template W settings_kept); kept_side|].
  intros; exact I.
Qed.

Lemma kept_own_guard (secs : props) : ensures settings_kept any (own_guard secs).
Proof.
  unfold own_guard. destruct secs; [now apply (ensures_ret _ kept_refl)|].
  destruct (has "hasOwnProperty" _);
    [apply (ensures_throw _ kept_refl)|now apply (ensures_ret _ kept_refl)].
Qed.

Lemma kept_compile_all (W : world) (t : Template) :
  ensures settings_kept any (compile_all W t).
Proof.
  eapply ensures_weaken;
    [apply (ensures_compile_all W settings_kept); kept_side|].
  intros; exact I.
Qed.

Lemma kept_builtTemplateFromString (W : world) (str : value) (file : string)
    (opts : value) :
  ensures settings_kept any (builtTemplateFromString W str file opts).
Proof.
  unfold builtTemplateFromString.
  apply (ensures_try_catch _ kept_trans);
    [|intros e; apply (ensures_throw _ kept_refl)].
  eapply (ensures_bind _ kept_trans any).
  { destruct str; first [ now apply (ensures_ret _ kept_refl)
                        | apply (ensures_throw _ kept_refl) ]. }
  intros text _.
  eapply (ensures_bind _ kept_trans any); [apply kept_processTemplateString|].
  intros [[cfg secs] ts] _. apply kept_new_Template.
Qed.

Lemma kept_builtTemplateFromStringAsync (W : world) (str : value)
    (file : string) (opts : value) :
  ensures settings_kept any (builtTemplateFromStringAsync W str file opts).
Proof.
  unfold builtTemplateFromStringAsync.
  eapply (ensures_bind _ kept_trans any); [|intros t _; apply kept_compile_all].
  apply (ensures_try_catch _ kept_trans);
    [|intros e; apply (ensures_throw _ kept_refl)].
  eapply (ensures_bind _ kept_trans any).
  { destruct str; first [ now apply (ensures_ret _ kept_refl)
                        | apply (ensures_throw _ kept_refl) ]. }
  intros text _.
  eapply (ensures_bind _ kept_trans any); [apply kept_processTemplateString|].
  intros [[cfg secs] ts] _.
  eapply (ensures_bind _ kept_trans any); [apply kept_new_Template|].
  intros t _.
  eapply (ensures_bind _ kept_trans any); [apply kept_own_guard|].
  intros _ _. now apply (ensures_ret _ kept_refl).
Qed.

Lemma kept_template_content (W : world) (file : string) (opts : value) :
  ensures settings_kept any (template_content W file opts).
Proof. apply (ensures_template_content W settings_kept); kept_side. Qed.

Lemma kept_getTemplate (W : world) (file : string) (opts : value) :
  ensures settings_kept any (getTemplate W file opts).
Proof.
  unfold getTemplate.
  eapply (ensures_bind _ kept_trans any);
    [apply (ensures_member _ kept_refl)|intros c _].
  eapply (ensures_bind _ kept_trans any).
  { destruct (truthy c); [apply kept_cache_get|].
    now apply (ensures_ret _ kept_refl). }
  intros [t|] _; [now apply (ensures_ret _ kept_refl)|].
  eapply (ensures_bind _ kept_trans any).
  { unfold buildTemplate.
    eapply (ensures_bind _ kept_trans any); [apply kept_template_content|].
    intros text _. apply kept_builtTemplateFromString. }
  intros t _.
  eapply (ensures_bind _ kept_trans any).
  { destruct (truthy c); [apply kept_cache_set|].
    now apply (ensures_ret _ kept_refl). }
  intros _ _. now apply (ensures_ret _ kept_refl).
Qed.

Lemma kept_getTemplateAsync (W : world) (file : string) (opts : value) :
  ensures settings_kept any (getTemplateAsync W file opts).
Proof.
  unfold getTemplateAsync.
  eapply (ensures_bind _ kept_trans any).
  { destruct (truthy (get opts "cache")); [apply kept_cache_get|].
    now apply (ensures_ret _ kept_refl). }
  intros [t|] _; [now apply (ensures_ret _ kept_refl)|].
  eapply (ensures_bind _ kept_trans any).
  { unfold buildTemplateAsync.
    eapply (ensures_bind _ kept_trans any); [apply kept_template_content|].
    intros text _. apply kept_builtTemplateFromStringAsync. }
  intros t _.
  eapply (ensures_bind _ kept_trans any).
  { destruct (truthy (get opts "cache")); [apply kept_cache_set|].
    now apply (ensures_ret _ kept_refl). }
  intros _ _. now apply (ensures_ret _ kept_refl).
Qed.

Lemma kept_Template_render (W : world) (fuel : nat) (t : Template)
    (ro : render_options) :
  ensures settings_kept any (Template_render W fuel t ro).
Proof.
  apply (ensures_Template_render W settings_kept any); try exact I;
    first [ kept_side | intros; apply kept_getTemplate ].
Qed.

Lemma kept_Template_renderAsync (W : world) (fuel : nat) (t : Template)
    (ro : render_options) :
  ensures settings_kept any (Template_renderAsync W fuel t ro).
Proof.
  apply (ensures_Template_renderAsync W settings_kept any); try exact I;
    first [ kept_side | intros; apply kept_getTemplateAsync ].
Qed.

Lemma kept_deliver (r : error + string) :
  ensures settings_kept any (deliver r).
Proof. now apply (ensures_ret _ kept_refl). Qed.

Lemma kept_getTemplate_cb (W : world) (file : string) (opts : value)
    (cb : error + Template -> M delivery) :
  (forall r, ensures settings_kept any (cb r)) ->
  ensures settings_kept any (getTemplate_cb W (loader_of W) file opts cb).
Proof.
  intros Hcb.
  apply (ensures_getTemplate_cb W settings_kept kept_refl kept_trans
           (fun _ => True) (fun _ => True)).
  - intros; exact I.
  - eapply ensures_weaken; [|intros o _ t _; exact I].
    destruct (truthy (get opts "cache")); [apply kept_cache_get|].
    now apply (ensures_ret _ kept_refl).
  - intros t _. destruct (truthy (get opts "cache"));
      [apply kept_cache_set|now apply (ensures_ret _ kept_refl)].
  - intros text. eapply ensures_weaken; [apply kept_builtTemplateFromString|].
    intros; exact I.
  - intros r _. apply Hcb.
Qed.

Lemma kept_Template_render_cb (W : world) (fuel : nat) (t : Template)
    (ro : render_options) (cb : error + string -> M delivery) :
  (forall r, ensures settings_kept any (cb r)) ->
  ensures settings_kept any (Template_render_cb W (loader_of W) fuel t ro cb).
Proof.
  intros Hcb.
  apply (ensures_Template_render_cb W settings_kept (fun _ => True)
           kept_refl kept_trans); try exact I; try exact Hcb.
  - intros n t' ro' _.
    apply (ensures_render_all_sections W settings_kept (fun _ => True));
      try exact I;
      first [ kept_side | intros; apply kept_getTemplate
            | intros; apply kept_Template_render ].
  - intros t' file cb' _ Hcb'. apply kept_getTemplate_cb.
    intros r. apply Hcb'. destruct r; exact I.
Qed.

(** X14: whatever a host does with the engine (a render in any of its
    forms, with any outcome, or clearing a cache), the settings
    [header], [stripComment] and [stripWhitespace] are left as they
    were; doT's [strip] is left as it was while [stripWhitespace] is
    off, and is never turned off. *)
Theorem engine_only_ever_turns_strip_on (W : world) (ops : list (nat * op))
    (st : state) :
  let s := st_settings st in
  let s' := st_settings (run_ops W ops st) in
  header s' = header s /\ stripComment s' = stripComment s
  /\ stripWhitespace s' = stripWhitespace s
  /\ (stripWhitespace s = false -> dot_strip s' = dot_strip s)
  /\ (dot_strip s = true -> dot_strip s' = true).
Proof.
  assert (O : forall fuel o st0, settings_kept st0 (run_op W fuel o st0)).
  { intros fuel o st0.
    destruct o as [file opts|file opts|file opts|text opts|text opts|text opts
                  |async]; cbn [run_op].
    - apply (ensures_fst settings_kept any). unfold render.
      eapply (ensures_bind _ kept_trans any); [apply kept_getTemplate|].
      intros t _. apply kept_Template_render.
    - apply (ensures_fst settings_kept any). unfold render_cb.
      apply kept_getTemplate_cb. intros [err|t]; [apply kept_deliver|].
      apply kept_Template_render_cb. apply kept_deliver.
    - apply (ensures_fst settings_kept any). unfold renderAsync.
      eapply (ensures_bind _ kept_trans any); [apply kept_getTemplateAsync|].
      intros t _. apply kept_Template_renderAsync.
    - apply (ensures_fst settings_kept any). unfold renderString.
      eapply (ensures_bind _ kept_trans any);
        [apply kept_builtTemplateFromString|].
      intros t _. apply kept_Template_render.
    - apply (ensures_fst settings_kept any). unfold renderString_cb.
      eapply (ensures_bind _ kept_trans any);
        [apply kept_builtTemplateFromString|].
      intros t _. apply kept_Template_render_cb. apply kept_deliver.
    - apply (ensures_fst settings_kept any). unfold renderStringAsync.
      eapply (ensures_bind _ kept_trans any);
        [apply kept_builtTemplateFromStringAsync|].
      intros t _. apply kept_Template_renderAsync.
    - destruct async; unfold settings_kept; cbn [cache_clear fst st_settings];
        repeat split; now left. }
  assert (K : settings_kept st (run_ops W ops st)).
  { unfold run_ops. revert st. induction ops as [|[fuel o] ops IH]; intros st0.
    - apply kept_refl.
    - cbn [fold_left fst snd].
      exact (kept_trans _ _ _ (O fuel o st0) (IH _)). }
  intros s s'. destruct K as (K1 & K2 & K3 & K4).
  repeat split; try assumption.
  - intros Hoff. destruct K4 as [K4|[K4 _]]; [exact K4|].
    subst s. congruence.
  - intros Hon. destruct K4 as [K4|[_ K4]]; [|exact K4].
    subst s s'. congruence.
Qed.

Lemma engine_only_ever_turns_strip_on_witness :
  dot_strip (st_settings
               (run_ops (world_of files_page)
                  [(3, OpRender "views/page.dot" plain_model);
                   (3, OpRenderCb "views/page.dot" plain_model)]
                  (initial 10 [])))
  = false.
Proof.
  destruct (engine_only_ever_turns_strip_on (world_of files_page)
              [(3, OpRender "views/page.dot" plain_model);
               (3, OpRenderCb "views/page.dot" plain_model)] (initial 10 []))
    as (_ & _ & _ & H & _).
  exact (H eq_refl).
Defined.
